(** * Verification of the NginxCluster reconciler

    A shallow embedding of [controllers/nginxcluster_controller.go] and of
    the part of [api/v1/nginxcluster_types.go] it reads, together with the
    properties of one reconciliation pass.

    Layout:
    - [SHA256]: the digest behind [calculateConfigHash] (FIPS 180-4);
    - the Kubernetes objects the controller touches, as records;
    - the API client as a state monad over a [World] (typed object store,
      clock, fault schedule, call trace) with a panic outcome for Go's
      nil-map writes and nil-pointer dereferences;
    - [Reconcile] and its builders, transcribed statement by statement;
    - the properties. *)

From Stdlib Require Import ZArith Ascii String List.
From stdpp Require Import gmap strings list fin_maps.

Local Open Scope string_scope.
Local Open Scope list_scope.
Local Open Scope Z_scope.

(* ===================================================================== *)
(** ** crypto/sha256 *)
(* ===================================================================== *)

Module SHA256.

(** 32-bit words are integers in [0, 2^32); every operation that can
    leave the range is reduced explicitly. *)
Definition mask32 : Z := 0xFFFFFFFF.
Definition add32 (x y : Z) : Z := (x + y) mod 2 ^ 32.
Definition not32 (x : Z) : Z := Z.lxor x mask32.
Definition rotr (n x : Z) : Z :=
  Z.lor (Z.shiftr x n) (Z.land (Z.shiftl x (32 - n)) mask32).
Definition shr (n x : Z) : Z := Z.shiftr x n.

Definition Ch (x y z : Z) : Z := Z.lxor (Z.land x y) (Z.land (not32 x) z).
Definition Maj (x y z : Z) : Z :=
  Z.lxor (Z.lxor (Z.land x y) (Z.land x z)) (Z.land y z).
Definition bsig0 (x : Z) : Z := Z.lxor (Z.lxor (rotr 2 x) (rotr 13 x)) (rotr 22 x).
Definition bsig1 (x : Z) : Z := Z.lxor (Z.lxor (rotr 6 x) (rotr 11 x)) (rotr 25 x).
Definition ssig0 (x : Z) : Z := Z.lxor (Z.lxor (rotr 7 x) (rotr 18 x)) (shr 3 x).
Definition ssig1 (x : Z) : Z := Z.lxor (Z.lxor (rotr 17 x) (rotr 19 x)) (shr 10 x).

(** The round constants are the first 32 bits of the fractional parts of
    the cube roots of the first 64 primes (FIPS 180-4, section 4.2.2):
    0x428a2f98 for 2, 0x71374491 for 3, ..., 0xc67178f2 for 311. *)
Definition is_prime (n : Z) : bool :=
  forallb (fun d => negb (n mod Z.of_nat d =? 0)) (seq 2 (Z.to_nat n - 2)).

Definition primes : list Z := List.filter is_prime (map Z.of_nat (seq 2 310)).

(** The largest [r' >= r] with [r'^3 <= n], setting the bits below [2^i]
    from the top down. *)
Fixpoint cbrt_bits (i : nat) (n r : Z) : Z :=
  match i with
  | O => r
  | S i' =>
      let r' := r + 2 ^ Z.of_nat i' in
      cbrt_bits i' n (if r' * r' * r' <=? n then r' else r)
  end.

Definition frac_cbrt32 (p : Z) : Z := cbrt_bits 36 (p * 2 ^ 96) 0 mod 2 ^ 32.

Definition K : list Z := Eval vm_compute in map frac_cbrt32 primes.

(** The eight working variables / chaining values. *)
Record regs := Regs { ra : Z; rb : Z; rc : Z; rd : Z; re : Z; rf : Z; rg : Z; rh : Z }.

Definition H0 : regs :=
  Regs 0x6a09e667 0xbb67ae85 0x3c6ef372 0xa54ff53a
       0x510e527f 0x9b05688c 0x1f83d9ab 0x5be0cd19.

(** One round, given the round constant and the schedule word. *)
Definition round (r : regs) (k w : Z) : regs :=
  let t1 := add32 (add32 (add32 (add32 (rh r) (bsig1 (re r))) (Ch (re r) (rf r) (rg r))) k) w in
  let t2 := add32 (bsig0 (ra r)) (Maj (ra r) (rb r) (rc r)) in
  Regs (add32 t1 t2) (ra r) (rb r) (rc r) (add32 (rd r) t1) (re r) (rf r) (rg r).

(** The message schedule is kept as a sliding window of the last sixteen
    words: the head is W[t], and W[t+16] is pushed at the back. *)
Definition next_word (win : list Z) : Z :=
  add32 (add32 (add32 (ssig1 (nth 14 win 0)) (nth 9 win 0)) (ssig0 (nth 1 win 0)))
        (nth 0 win 0).

Fixpoint rounds (ks : list Z) (win : list Z) (r : regs) : regs :=
  match ks with
  | [] => r
  | k :: ks' =>
      rounds ks' (tl win ++ [next_word win]) (round r k (nth 0 win 0))
  end.

Definition compress (h : regs) (block : list Z) : regs :=
  let r := rounds K block h in
  Regs (add32 (ra h) (ra r)) (add32 (rb h) (rb r)) (add32 (rc h) (rc r))
       (add32 (rd h) (rd r)) (add32 (re h) (re r)) (add32 (rf h) (rf r))
       (add32 (rg h) (rg r)) (add32 (rh h) (rh r)).

(** Padding: 0x80, zeroes up to 56 mod 64, then the bit length as a
    big-endian 64-bit integer. *)
Definition be_bytes (n : nat) (x : Z) : list Z :=
  map (fun i => Z.land (Z.shiftr x (8 * Z.of_nat (n - 1 - i))) 0xFF) (seq 0 n).

Definition pad (msg : list Z) : list Z :=
  let len := Z.of_nat (length msg) in
  let zeros := Z.to_nat ((55 - len) mod 64) in
  msg ++ [0x80] ++ repeat 0 zeros ++ be_bytes 8 (8 * len).

Fixpoint words (bs : list Z) : list Z :=
  match bs with
  | b0 :: b1 :: b2 :: b3 :: rest =>
      Z.lor (Z.shiftl b0 24) (Z.lor (Z.shiftl b1 16) (Z.lor (Z.shiftl b2 8) b3))
      :: words rest
  | _ => []
  end.

(** Feeds the words to [compress] sixteen at a time. *)
Fixpoint absorb (h : regs) (buf : list Z) (ws : list Z) : regs :=
  match ws with
  | [] => h
  | w :: ws' =>
      let buf' := buf ++ [w] in
      if (length buf' =? 16)%nat then absorb (compress h buf') [] ws'
      else absorb h buf' ws'
  end.

Definition bytes_of_string (s : string) : list Z :=
  map (fun c => Z.of_N (N_of_ascii c)) (list_ascii_of_string s).

(** [sha256.Sum256]: the 32 digest bytes. *)
Definition Sum256 (s : string) : list Z :=
  let r := absorb H0 [] (words (pad (bytes_of_string s))) in
  flat_map (be_bytes 4) [ra r; rb r; rc r; rd r; re r; rf r; rg r; rh r].

End SHA256.

(** [fmt.Sprintf("%x", hash)] on a byte array: two lower-case hexadecimal
    digits per byte. *)
Definition hex_digit (n : Z) : ascii :=
  if n <? 10 then ascii_of_N (Z.to_N (48 + n)) else ascii_of_N (Z.to_N (87 + n)).

Definition hex_of_bytes (bs : list Z) : string :=
  string_of_list_ascii
    (flat_map (fun b => [hex_digit (Z.shiftr b 4); hex_digit (Z.land b 0xF)]) bs).

(** [calculateConfigHash]: the first sixteen hexadecimal digits of the
    SHA-256 digest of the text. *)
Definition calculateConfigHash (config : string) : string :=
  String.substring 0 16 (hex_of_bytes (SHA256.Sum256 config)).

(* ===================================================================== *)
(** ** Go values: maps that may be nil, timestamps *)
(* ===================================================================== *)

(** A Go [map[string]string] field is either nil or a map. Reading a nil
    map, or a missing key, gives the zero value; writing a nil map panics
    (see [mapassign] below, once the monad is in place). *)
Abbreviation gomap := (option (gmap string string)).

Definition mapaccess (m : gomap) (k : string) : string :=
  match m with
  | Some g => default "" (g !! k)
  | None => ""
  end.

(** Instants are seconds since the Unix epoch. *)
Abbreviation Time := Z.

(** [Time.Format(time.RFC3339)], with the process's zone taken to be UTC:
    [2006-01-02T15:04:05Z]. The date is the proleptic Gregorian one. *)
Fixpoint digits (n : nat) (x : Z) : list ascii :=
  match n with
  | O => []
  | S n' => digits n' (x / 10) ++ [ascii_of_N (Z.to_N (48 + x mod 10))]
  end.

Definition civil_from_days (days : Z) : Z * Z * Z :=
  let z := days + 719468 in
  let era := z / 146097 in
  let doe := z - era * 146097 in
  let yoe := (doe - doe / 1460 + doe / 36524 - doe / 146096) / 365 in
  let doy := doe - (365 * yoe + yoe / 4 - yoe / 100) in
  let mp := (5 * doy + 2) / 153 in
  let d := doy - (153 * mp + 2) / 5 + 1 in
  let m := if mp <? 10 then mp + 3 else mp - 9 in
  let y := yoe + era * 400 + (if m <=? 2 then 1 else 0) in
  (y, m, d).

Definition formatRFC3339 (t : Time) : string :=
  let '(y, m, d) := civil_from_days (t / 86400) in
  let s := t mod 86400 in
  string_of_list_ascii
    (digits 4 y ++ ["-"%char] ++ digits 2 m ++ ["-"%char] ++ digits 2 d ++ ["T"%char]
     ++ digits 2 (s / 3600) ++ [":"%char] ++ digits 2 (s mod 3600 / 60) ++ [":"%char]
     ++ digits 2 (s mod 60) ++ ["Z"%char]).

(* ===================================================================== *)
(** ** The API objects *)
(* ===================================================================== *)

(** [types.NamespacedName], as the pair (namespace, name). *)
Abbreviation NamespacedName := (string * string)%type.

Module metav1.

Record OwnerReference := {
  APIVersion : string;
  Kind : string;
  OwnerName : string;
  OwnerUID : string;
  Controller : bool;
  BlockOwnerDeletion : bool
}.

Record ObjectMeta := {
  Name : string;
  Namespace : string;
  UID : string;
  Labels : gomap;
  Annotations : gomap;
  Finalizers : list string;
  DeletionTimestamp : option Time;
  OwnerReferences : list OwnerReference
}.

(** The zero value of the struct. *)
Definition zero : ObjectMeta :=
  {| Name := ""; Namespace := ""; UID := ""; Labels := None; Annotations := None;
     Finalizers := []; DeletionTimestamp := None; OwnerReferences := [] |}.

Definition withAnnotations (a : gomap) (m : ObjectMeta) : ObjectMeta :=
  {| Name := Name m; Namespace := Namespace m; UID := UID m; Labels := Labels m;
     Annotations := a; Finalizers := Finalizers m;
     DeletionTimestamp := DeletionTimestamp m; OwnerReferences := OwnerReferences m |}.

Definition withFinalizers (f : list string) (m : ObjectMeta) : ObjectMeta :=
  {| Name := Name m; Namespace := Namespace m; UID := UID m; Labels := Labels m;
     Annotations := Annotations m; Finalizers := f;
     DeletionTimestamp := DeletionTimestamp m; OwnerReferences := OwnerReferences m |}.

Definition withOwnerReferences (o : list OwnerReference) (m : ObjectMeta) : ObjectMeta :=
  {| Name := Name m; Namespace := Namespace m; UID := UID m; Labels := Labels m;
     Annotations := Annotations m; Finalizers := Finalizers m;
     DeletionTimestamp := DeletionTimestamp m; OwnerReferences := o |}.

End metav1.

(** [api/v1/nginxcluster_types.go] *)
Module nginxv1.

Record NginxClusterSpec := {
  Replicas : Z;          (* int32 *)
  Image : string;
  NginxConf : string
}.

Record NginxClusterStatus := {
  StatusReplicas : Z;        (* Status.Replicas, int32 *)
  ReadyReplicas : Z;         (* int32 *)
  ConfigHash : string;
  LastUpdateTime : option Time   (* *metav1.Time *)
}.

Record NginxCluster := {
  ObjectMeta : metav1.ObjectMeta;
  Spec : NginxClusterSpec;
  Status : NginxClusterStatus
}.

Definition withObjectMeta (m : metav1.ObjectMeta) (c : NginxCluster) : NginxCluster :=
  {| ObjectMeta := m; Spec := Spec c; Status := Status c |}.

Definition withStatus (s : NginxClusterStatus) (c : NginxCluster) : NginxCluster :=
  {| ObjectMeta := ObjectMeta c; Spec := Spec c; Status := s |}.

End nginxv1.

Module corev1.

Record ConfigMap := {
  ConfigMapMeta : metav1.ObjectMeta;
  Data : gomap
}.

Record ContainerPort := { ContainerPortNumber : Z; ContainerPortName : string }.
Record VolumeMount := { MountName : string; MountPath : string; SubPath : string }.

Record Container := {
  Image : string;
  ContainerName : string;
  Ports : list ContainerPort;
  VolumeMounts : list VolumeMount
}.

(** A volume whose source is a ConfigMap, by the ConfigMap's name. *)
Record Volume := { VolumeName : string; ConfigMapRef : string }.

Record PodSpec := { Containers : list Container; Volumes : list Volume }.

Record PodTemplateSpec := {
  TemplateMeta : metav1.ObjectMeta;
  TemplateSpec : PodSpec
}.

Inductive Protocol := ProtocolTCP | ProtocolUDP | ProtocolSCTP.
Inductive ServiceType :=
  ServiceTypeClusterIP | ServiceTypeNodePort | ServiceTypeLoadBalancer
| ServiceTypeExternalName.

Record ServicePort := { Port : Z; ServicePortName : string; PortProtocol : Protocol }.

Record ServiceSpec := {
  Selector : gomap;
  ServicePorts : list ServicePort;
  Type_ : ServiceType
}.

Record Service := {
  ServiceMeta : metav1.ObjectMeta;
  ServiceSpec_ : ServiceSpec
}.

End corev1.

Module appsv1.

Record DeploymentSpec := {
  Replicas : option Z;               (* *int32 *)
  Selector : gomap;                  (* Selector.MatchLabels *)
  Template : corev1.PodTemplateSpec
}.

Record DeploymentStatus := {
  StatusReplicas : Z;
  ReadyReplicas : Z
}.

Record Deployment := {
  ObjectMeta : metav1.ObjectMeta;
  Spec : DeploymentSpec;
  Status : DeploymentStatus
}.

Definition withReplicas (r : option Z) (d : Deployment) : Deployment :=
  {| ObjectMeta := ObjectMeta d;
     Spec := {| Replicas := r; Selector := Selector (Spec d);
                Template := Template (Spec d) |};
     Status := Status d |}.

(** Replaces [d.Spec.Template.Annotations]. *)
Definition withTemplateAnnotations (a : gomap) (d : Deployment) : Deployment :=
  {| ObjectMeta := ObjectMeta d;
     Spec := {| Replicas := Replicas (Spec d); Selector := Selector (Spec d);
                Template :=
                  {| corev1.TemplateMeta :=
                       metav1.withAnnotations a (corev1.TemplateMeta (Template (Spec d)));
                     corev1.TemplateSpec := corev1.TemplateSpec (Template (Spec d)) |} |};
     Status := Status d |}.

Definition templateAnnotations (d : Deployment) : gomap :=
  metav1.Annotations (corev1.TemplateMeta (Template (Spec d))).

End appsv1.

(* ===================================================================== *)
(** ** The cluster, as the reconciler sees it through its client *)
(* ===================================================================== *)

(** [k8s.io/apimachinery/pkg/api/errors]: the status reasons a call can
    fail with. *)
Inductive error := ErrNotFound | ErrAlreadyExists | ErrConflict | ErrInternal.

Definition IsNotFound (e : error) : bool :=
  match e with ErrNotFound => true | _ => false end.

Inductive ResourceKind := KNginxCluster | KConfigMap | KDeployment | KService.

Inductive Object :=
| ObjNginxCluster (c : nginxv1.NginxCluster)
| ObjConfigMap (cm : corev1.ConfigMap)
| ObjDeployment (d : appsv1.Deployment)
| ObjService (s : corev1.Service).

(** The calls a pass issues, in order, whether or not they succeed; the
    finalization hook is recorded too. *)
Inductive Event :=
| EvGet (k : ResourceKind) (key : NamespacedName)
| EvCreate (o : Object)
| EvUpdate (o : Object)
| EvStatusUpdate (c : nginxv1.NginxCluster)
| EvFinalize (c : nginxv1.NginxCluster).

(** The object store behind the API, one table per kind, the wall clock,
    and the schedule of failures: the n-th call of a pass fails with the
    n-th entry when that is [Some e], and runs normally when it is [None]
    or when the schedule is exhausted. *)
Record World := {
  nginxclusters : gmap NamespacedName nginxv1.NginxCluster;
  configmaps : gmap NamespacedName corev1.ConfigMap;
  deployments : gmap NamespacedName appsv1.Deployment;
  services : gmap NamespacedName corev1.Service;
  clock : Time;
  faults : list (option error)
}.

Definition withFaults (f : list (option error)) (w : World) : World :=
  {| nginxclusters := nginxclusters w; configmaps := configmaps w;
     deployments := deployments w; services := services w;
     clock := clock w; faults := f |}.

Definition withClock (t : Time) (w : World) : World :=
  {| nginxclusters := nginxclusters w; configmaps := configmaps w;
     deployments := deployments w; services := services w;
     clock := t; faults := faults w |}.

(** *** The monad: state, a log of events, and panics *)

Inductive outcome (A : Type) :=
| Done (a : A)
| Panicked.
Arguments Done {A} a.
Arguments Panicked {A}.

Definition M (A : Type) : Type := World -> outcome A * World * list Event.

Definition ret {A} (a : A) : M A := fun w => (Done a, w, []).

Definition bind {A B} (m : M A) (k : A -> M B) : M B :=
  fun w =>
    match m w with
    | (Done a, w1, l1) =>
        match k a w1 with
        | (o, w2, l2) => (o, w2, l1 ++ l2)
        end
    | (Panicked, w1, l1) => (Panicked, w1, l1)
    end.

Definition panic {A} : M A := fun w => (Panicked, w, []).
Definition emit (e : Event) : M unit := fun w => (Done tt, w, [e]).
Definition gets {A} (f : World -> A) : M A := fun w => (Done (f w), w, []).
Definition modify (f : World -> World) : M unit := fun w => (Done tt, f w, []).

Declare Scope go_scope.
Delimit Scope go_scope with go.
Notation "x <- m ;; k" := (bind m (fun x => k))
  (at level 100, m at next level, right associativity) : go_scope.
Notation "m ;; k" := (bind m (fun _ => k))
  (at level 100, right associativity) : go_scope.
Local Open Scope go_scope.

(** [m[k] = v]: assignment to an entry of a nil map panics. *)
Definition mapassign (m : gomap) (k v : string) : M gomap :=
  match m with
  | Some g => ret (Some (<[k := v]> g))
  | None => panic
  end.

(** [*p] on a nil pointer panics. *)
Definition deref {A} (p : option A) : M A :=
  match p with
  | Some a => ret a
  | None => panic
  end.

(** [time.Now()] / [metav1.Now()]. *)
Definition Now : M Time := gets clock.

(** Takes the next entry of the failure schedule. *)
Definition scheduled (fs : list (option error)) : option error :=
  match fs with
  | f :: _ => f
  | [] => None
  end.

Definition nextFault : M (option error) :=
  fun w => (Done (scheduled (faults w)), withFaults (tail (faults w)) w, []).

(** *** [client.Client]

    The client's calls are generic in the kind of object ([client.Object]);
    a kind comes with its table in the store and with what an update of the
    main resource keeps of the stored object. *)
Class Resource (T : Type) := {
  kindOf : ResourceKind;
  metaOf : T -> metav1.ObjectMeta;
  withMeta : metav1.ObjectMeta -> T -> T;
  toObject : T -> Object;
  table : World -> gmap NamespacedName T;
  withTable : gmap NamespacedName T -> World -> World;
  (** [stored sent]: the object an Update leaves in the store *)
  onUpdate : T -> T -> T
}.

Definition keyOf `{Resource T} (o : T) : NamespacedName :=
  (metav1.Namespace (metaOf o), metav1.Name (metaOf o)).

(** NginxCluster has the status subresource: an Update of the main resource
    leaves the stored status alone. *)
#[export] Instance NginxCluster_Resource : Resource nginxv1.NginxCluster := {|
  kindOf := KNginxCluster;
  metaOf := nginxv1.ObjectMeta;
  withMeta := nginxv1.withObjectMeta;
  toObject := ObjNginxCluster;
  table := nginxclusters;
  withTable := fun t w =>
    {| nginxclusters := t; configmaps := configmaps w; deployments := deployments w;
       services := services w; clock := clock w; faults := faults w |};
  onUpdate := fun stored sent => nginxv1.withStatus (nginxv1.Status stored) sent
|}.

#[export] Instance ConfigMap_Resource : Resource corev1.ConfigMap := {|
  kindOf := KConfigMap;
  metaOf := corev1.ConfigMapMeta;
  withMeta := fun m cm => {| corev1.ConfigMapMeta := m; corev1.Data := corev1.Data cm |};
  toObject := ObjConfigMap;
  table := configmaps;
  withTable := fun t w =>
    {| nginxclusters := nginxclusters w; configmaps := t; deployments := deployments w;
       services := services w; clock := clock w; faults := faults w |};
  onUpdate := fun _ sent => sent
|}.

#[export] Instance Deployment_Resource : Resource appsv1.Deployment := {|
  kindOf := KDeployment;
  metaOf := appsv1.ObjectMeta;
  withMeta := fun m d =>
    {| appsv1.ObjectMeta := m; appsv1.Spec := appsv1.Spec d; appsv1.Status := appsv1.Status d |};
  toObject := ObjDeployment;
  table := deployments;
  withTable := fun t w =>
    {| nginxclusters := nginxclusters w; configmaps := configmaps w; deployments := t;
       services := services w; clock := clock w; faults := faults w |};
  onUpdate := fun _ sent => sent
|}.

#[export] Instance Service_Resource : Resource corev1.Service := {|
  kindOf := KService;
  metaOf := corev1.ServiceMeta;
  withMeta := fun m sv => {| corev1.ServiceMeta := m; corev1.ServiceSpec_ := corev1.ServiceSpec_ sv |};
  toObject := ObjService;
  table := services;
  withTable := fun t w =>
    {| nginxclusters := nginxclusters w; configmaps := configmaps w;
       deployments := deployments w; services := t; clock := clock w;
       faults := faults w |};
  onUpdate := fun _ sent => sent
|}.

(** [r.Get(ctx, key, obj)]: the stored object, or the error. *)
Definition Get (T : Type) `{Resource T} (key : NamespacedName) : M (error + T) :=
  emit (EvGet kindOf key) ;;
  f <- nextFault ;;
  match f with
  | Some e => ret (inl e)
  | None =>
      t <- gets table ;;
      match t !! key with
      | Some o => ret (inr o)
      | None => ret (inl ErrNotFound)
      end
  end.

(** [r.Create(ctx, obj)]: fails distinctly when the identity is taken. *)
Definition Create `{Resource T} (o : T) : M (option error) :=
  emit (EvCreate (toObject o)) ;;
  f <- nextFault ;;
  match f with
  | Some e => ret (Some e)
  | None =>
      t <- gets table ;;
      match t !! keyOf o with
      | Some _ => ret (Some ErrAlreadyExists)
      | None => modify (withTable (<[keyOf o := o]> t)) ;; ret None
      end
  end.

(** [r.Update(ctx, obj)] *)
Definition Update `{Resource T} (o : T) : M (option error) :=
  emit (EvUpdate (toObject o)) ;;
  f <- nextFault ;;
  match f with
  | Some e => ret (Some e)
  | None =>
      t <- gets table ;;
      match t !! keyOf o with
      | Some stored => modify (withTable (<[keyOf o := onUpdate stored o]> t)) ;; ret None
      | None => ret (Some ErrNotFound)
      end
  end.

(** [r.Status().Update(ctx, cluster)]: writes the status and nothing else. *)
Definition StatusUpdate (c : nginxv1.NginxCluster) : M (option error) :=
  emit (EvStatusUpdate c) ;;
  f <- nextFault ;;
  match f with
  | Some e => ret (Some e)
  | None =>
      t <- gets nginxclusters ;;
      match t !! keyOf c with
      | Some stored =>
          modify (withTable (<[keyOf c := nginxv1.withStatus (nginxv1.Status c) stored]> t)) ;;
          ret None
      | None => ret (Some ErrNotFound)
      end
  end.

(* ===================================================================== *)
(** ** controller-runtime helpers *)
(* ===================================================================== *)

Module controllerutil.

Definition ContainsFinalizer `{Resource T} (o : T) (finalizer : string) : bool :=
  bool_decide (finalizer ∈ metav1.Finalizers (metaOf o)).

(** Appends the finalizer unless it is there already. *)
Definition AddFinalizer `{Resource T} (o : T) (finalizer : string) : T :=
  let f := metav1.Finalizers (metaOf o) in
  if bool_decide (finalizer ∈ f) then o
  else withMeta (metav1.withFinalizers (f ++ [finalizer]) (metaOf o)) o.

(** Drops every occurrence of the finalizer. *)
Definition RemoveFinalizer `{Resource T} (o : T) (finalizer : string) : T :=
  let f := metav1.Finalizers (metaOf o) in
  withMeta (metav1.withFinalizers (filter (fun e => e ≠ finalizer) f) (metaOf o)) o.

End controllerutil.

(** [ctrl.SetControllerReference(owner, controlled, scheme)] for a
    controlled object built afresh in the owner's namespace: the owner
    link is appended. (The scheme has the NginxCluster kind registered, by
    [init] in the types file.) *)
Definition controllerRef (owner : nginxv1.NginxCluster) : metav1.OwnerReference :=
  {| metav1.APIVersion := "nginx.example.com/v1";
     metav1.Kind := "NginxCluster";
     metav1.OwnerName := metav1.Name (nginxv1.ObjectMeta owner);
     metav1.OwnerUID := metav1.UID (nginxv1.ObjectMeta owner);
     metav1.Controller := true;
     metav1.BlockOwnerDeletion := true |}.

Definition SetControllerReference `{Resource T} (owner : nginxv1.NginxCluster) (o : T) : T :=
  withMeta (metav1.withOwnerReferences
              (metav1.OwnerReferences (metaOf o) ++ [controllerRef owner]) (metaOf o)) o.

(* ===================================================================== *)
(** ** controllers/nginxcluster_controller.go *)
(* ===================================================================== *)

Definition nginxClusterFinalizer : string := "nginx.example.com/finalizer".
Definition configMapNameSuffix : string := "-nginx-config".

(** [ctrl.Result] *)
Record Result := { Requeue : bool }.

Definition getDefaultNginxConf : string := "
events {
    worker_connections 1024;
}

http {
    include       /etc/nginx/mime.types;
    default_type  application/octet-stream;

    sendfile        on;
    keepalive_timeout  65;

    server {
        listen       80;
        server_name  localhost;

        location / {
            root   /usr/share/nginx/html;
            index  index.html index.htm;
        }

        error_page   500 502 503 504  /50x.html;
        location = /50x.html {
            root   /usr/share/nginx/html;
        }
    }
}
".

Definition clusterName (m : nginxv1.NginxCluster) : string :=
  metav1.Name (nginxv1.ObjectMeta m).
Definition clusterNamespace (m : nginxv1.NginxCluster) : string :=
  metav1.Namespace (nginxv1.ObjectMeta m).

Definition configMapForNginxCluster (m : nginxv1.NginxCluster) (configHash : string)
  : corev1.ConfigMap :=
  let nginxConf := nginxv1.NginxConf (nginxv1.Spec m) in
  let nginxConf := if decide (nginxConf = "") then getDefaultNginxConf else nginxConf in
  let cm :=
    {| corev1.ConfigMapMeta :=
         {| metav1.Name := clusterName m +:+ configMapNameSuffix;
            metav1.Namespace := clusterNamespace m;
            metav1.UID := "";
            metav1.Labels := None;
            metav1.Annotations := Some {[ "config-hash" := configHash ]};
            metav1.Finalizers := [];
            metav1.DeletionTimestamp := None;
            metav1.OwnerReferences := [] |};
       corev1.Data := Some {[ "nginx.conf" := nginxConf ]} |} in
  SetControllerReference m cm.

Definition nginxLabels (m : nginxv1.NginxCluster) : gmap string string :=
  {[ "app" := "nginx"; "cluster" := clusterName m ]}.

Definition deploymentForNginxCluster (m : nginxv1.NginxCluster) (configHash : string)
  : appsv1.Deployment :=
  let replicas := nginxv1.Replicas (nginxv1.Spec m) in
  let image := nginxv1.Image (nginxv1.Spec m) in
  let image := if decide (image = "") then "nginx:latest" else image in
  let labels := nginxLabels m in
  let dep :=
    {| appsv1.ObjectMeta :=
         {| metav1.Name := clusterName m;
            metav1.Namespace := clusterNamespace m;
            metav1.UID := "";
            metav1.Labels := None;
            metav1.Annotations := None;
            metav1.Finalizers := [];
            metav1.DeletionTimestamp := None;
            metav1.OwnerReferences := [] |};
       appsv1.Spec :=
         {| appsv1.Replicas := Some replicas;
            appsv1.Selector := Some labels;
            appsv1.Template :=
              {| corev1.TemplateMeta :=
                   {| metav1.Name := "";
                      metav1.Namespace := "";
                      metav1.UID := "";
                      metav1.Labels := Some labels;
                      metav1.Annotations := Some {[ "config-hash" := configHash ]};
                      metav1.Finalizers := [];
                      metav1.DeletionTimestamp := None;
                      metav1.OwnerReferences := [] |};
                 corev1.TemplateSpec :=
                   {| corev1.Containers :=
                        [ {| corev1.Image := image;
                             corev1.ContainerName := "nginx";
                             corev1.Ports :=
                               [ {| corev1.ContainerPortNumber := 80;
                                    corev1.ContainerPortName := "http" |} ];
                             corev1.VolumeMounts :=
                               [ {| corev1.MountName := "nginx-config";
                                    corev1.MountPath := "/etc/nginx/nginx.conf";
                                    corev1.SubPath := "nginx.conf" |} ] |} ];
                      corev1.Volumes :=
                        [ {| corev1.VolumeName := "nginx-config";
                             corev1.ConfigMapRef :=
                               clusterName m +:+ configMapNameSuffix |} ] |} |} |};
       appsv1.Status := {| appsv1.StatusReplicas := 0; appsv1.ReadyReplicas := 0 |} |} in
  SetControllerReference m dep.

Definition serviceForNginxCluster (m : nginxv1.NginxCluster) : corev1.Service :=
  let labels := nginxLabels m in
  let srv :=
    {| corev1.ServiceMeta :=
         {| metav1.Name := clusterName m;
            metav1.Namespace := clusterNamespace m;
            metav1.UID := "";
            metav1.Labels := None;
            metav1.Annotations := None;
            metav1.Finalizers := [];
            metav1.DeletionTimestamp := None;
            metav1.OwnerReferences := [] |};
       corev1.ServiceSpec_ :=
         {| corev1.Selector := Some labels;
            corev1.ServicePorts :=
              [ {| corev1.Port := 80; corev1.ServicePortName := "http";
                   corev1.PortProtocol := corev1.ProtocolTCP |} ];
            corev1.Type_ := corev1.ServiceTypeClusterIP |} |} in
  SetControllerReference m srv.

(** The hook only logs. *)
Definition finalizeNginxCluster (m : nginxv1.NginxCluster) : M (option error) :=
  emit (EvFinalize m) ;; ret None.

(** *** Reconcile

    The body of [Reconcile] is cut at its section comments; each piece is
    the function from that comment to its end, so that the early returns
    of the source are the leaves of the piece they occur in. The pieces
    are listed last to first. Logging is left out. *)

Definition ok (requeue : bool) : M (Result * option error) :=
  ret ({| Requeue := requeue |}, None).
Definition fail (e : error) : M (Result * option error) :=
  ret ({| Requeue := false |}, Some e).

(** "Update the NginxCluster status" to the end. *)
Definition publishStatus (nginxCluster : nginxv1.NginxCluster)
    (deployment : appsv1.Deployment) (configHash : string) : M (Result * option error) :=
  now <- Now ;;
  let nginxCluster :=
    nginxv1.withStatus
      {| nginxv1.StatusReplicas := appsv1.StatusReplicas (appsv1.Status deployment);
         nginxv1.ReadyReplicas := appsv1.ReadyReplicas (appsv1.Status deployment);
         nginxv1.ConfigHash := configHash;
         nginxv1.LastUpdateTime := Some now |} nginxCluster in
  err <- StatusUpdate nginxCluster ;;
  match err with
  | Some e => fail e
  | None => ok false
  end.

(** "Check if the Service already exists, if not create a new one" on. *)
Definition convergeService (nginxCluster : nginxv1.NginxCluster)
    (deployment : appsv1.Deployment) (configHash : string) : M (Result * option error) :=
  r <- Get corev1.Service (clusterNamespace nginxCluster, clusterName nginxCluster) ;;
  match r with
  | inl err =>
      if IsNotFound err then
        let srv := serviceForNginxCluster nginxCluster in
        err <- Create srv ;;
        match err with
        | Some e => fail e
        | None => publishStatus nginxCluster deployment configHash
        end
      else fail err
  | inr _ => publishStatus nginxCluster deployment configHash
  end.

(** "Check if the Deployment already exists, if not create a new one" on. *)
Definition convergeDeployment (nginxCluster : nginxv1.NginxCluster)
    (configHash : string) : M (Result * option error) :=
  r <- Get appsv1.Deployment (clusterNamespace nginxCluster, clusterName nginxCluster) ;;
  match r with
  | inl err =>
      if IsNotFound err then
        let dep := deploymentForNginxCluster nginxCluster configHash in
        err <- Create dep ;;
        match err with
        | Some e => fail e
        | None => ok true
        end
      else fail err
  | inr deployment =>
      let replicas := nginxv1.Replicas (nginxv1.Spec nginxCluster) in
      current <- deref (appsv1.Replicas (appsv1.Spec deployment)) ;;
      if decide (current ≠ replicas) then
        let deployment := appsv1.withReplicas (Some replicas) deployment in
        err <- Update deployment ;;
        match err with
        | Some e => fail e
        | None => ok true
        end
      else
        let currentPodConfigHash :=
          mapaccess (appsv1.templateAnnotations deployment) "config-hash" in
        if decide (currentPodConfigHash ≠ configHash) then
          a <- mapassign (appsv1.templateAnnotations deployment) "config-hash" configHash ;;
          now <- Now ;;
          a <- mapassign a "restartedAt" (formatRFC3339 now) ;;
          let deployment := appsv1.withTemplateAnnotations a deployment in
          err <- Update deployment ;;
          match err with
          | Some e => fail e
          | None => convergeService nginxCluster deployment configHash
          end
        else convergeService nginxCluster deployment configHash
  end.

(** "Calculate config hash" and "Check if ConfigMap already exists" on. *)
Definition convergeConfigMap (nginxCluster : nginxv1.NginxCluster)
  : M (Result * option error) :=
  let configHash := calculateConfigHash (nginxv1.NginxConf (nginxv1.Spec nginxCluster)) in
  r <- Get corev1.ConfigMap
         (clusterNamespace nginxCluster, clusterName nginxCluster +:+ configMapNameSuffix) ;;
  match r with
  | inl err =>
      if IsNotFound err then
        let cm := configMapForNginxCluster nginxCluster configHash in
        err <- Create cm ;;
        match err with
        | Some e => fail e
        | None => convergeDeployment nginxCluster configHash
        end
      else fail err
  | inr configMap =>
      let currentConfigHash :=
        mapaccess (metav1.Annotations (corev1.ConfigMapMeta configMap)) "config-hash" in
      if decide (currentConfigHash ≠ configHash) then
        data <- mapassign (corev1.Data configMap) "nginx.conf"
                  (nginxv1.NginxConf (nginxv1.Spec nginxCluster)) ;;
        ann <- mapassign (metav1.Annotations (corev1.ConfigMapMeta configMap))
                 "config-hash" configHash ;;
        let configMap :=
          {| corev1.ConfigMapMeta :=
               metav1.withAnnotations ann (corev1.ConfigMapMeta configMap);
             corev1.Data := data |} in
        err <- Update configMap ;;
        match err with
        | Some e => fail e
        | None => convergeDeployment nginxCluster configHash
        end
      else convergeDeployment nginxCluster configHash
  end.

(** "Check if the NginxCluster instance is marked to be deleted" on. *)
Definition handleDeletion (nginxCluster : nginxv1.NginxCluster) : M (Result * option error) :=
  let isNginxClusterMarkedToBeDeleted :=
    bool_decide (metav1.DeletionTimestamp (nginxv1.ObjectMeta nginxCluster) ≠ None) in
  if isNginxClusterMarkedToBeDeleted then
    if controllerutil.ContainsFinalizer nginxCluster nginxClusterFinalizer then
      ferr <- finalizeNginxCluster nginxCluster ;;
      match ferr with
      | Some e => fail e
      | None =>
          let nginxCluster :=
            controllerutil.RemoveFinalizer nginxCluster nginxClusterFinalizer in
          err <- Update nginxCluster ;;
          match err with
          | Some e => fail e
          | None => ok false
          end
      end
    else ok false
  else convergeConfigMap nginxCluster.

(** "Add finalizer for this CR" on. *)
Definition attachFinalizer (nginxCluster : nginxv1.NginxCluster) : M (Result * option error) :=
  if negb (controllerutil.ContainsFinalizer nginxCluster nginxClusterFinalizer) then
    let nginxCluster := controllerutil.AddFinalizer nginxCluster nginxClusterFinalizer in
    err <- Update nginxCluster ;;
    match err with
    | Some e => fail e
    | None => handleDeletion nginxCluster
    end
  else handleDeletion nginxCluster.

Definition Reconcile (req : NamespacedName) : M (Result * option error) :=
  r <- Get nginxv1.NginxCluster req ;;
  match r with
  | inl err =>
      if IsNotFound err then ok false
      else fail err
  | inr nginxCluster => attachFinalizer nginxCluster
  end.

(** One pass from a world: the outcome, the world it leaves, the calls
    it made. *)
Definition outcomeOf {A} (x : outcome A * World * list Event) : outcome A := x.1.1.
Definition worldOf {A} (x : outcome A * World * list Event) : World := x.1.2.
Definition eventsOf {A} (x : outcome A * World * list Event) : list Event := x.2.

(* ===================================================================== *)
(** ** Vocabulary for the properties *)
(* ===================================================================== *)

(** The cluster object a pass works on once the finalizer step is over,
    its fingerprint, and the identities of its children. *)
Definition inMemory (c : nginxv1.NginxCluster) : nginxv1.NginxCluster :=
  controllerutil.AddFinalizer c nginxClusterFinalizer.

Definition fingerprintOf (c : nginxv1.NginxCluster) : string :=
  calculateConfigHash (nginxv1.NginxConf (nginxv1.Spec c)).

Definition childKey (c : nginxv1.NginxCluster) : NamespacedName :=
  (clusterNamespace c, clusterName c).

Definition configMapKey (c : nginxv1.NginxCluster) : NamespacedName :=
  (clusterNamespace c, clusterName c +:+ configMapNameSuffix).

Definition markedForDeletion (c : nginxv1.NginxCluster) : Prop :=
  metav1.DeletionTimestamp (nginxv1.ObjectMeta c) ≠ None.

Definition hasFinalizer (c : nginxv1.NginxCluster) : Prop :=
  nginxClusterFinalizer ∈ metav1.Finalizers (nginxv1.ObjectMeta c).

(** The ConfigMap and the Deployment that the in-place updates send. *)
Definition updatedConfigMap (c : nginxv1.NginxCluster) (cm : corev1.ConfigMap)
    (g a : gmap string string) : corev1.ConfigMap :=
  {| corev1.ConfigMapMeta :=
       metav1.withAnnotations (Some (<["config-hash" := fingerprintOf c]> a))
         (corev1.ConfigMapMeta cm);
     corev1.Data := Some (<["nginx.conf" := nginxv1.NginxConf (nginxv1.Spec c)]> g) |}.

Definition restartedDeployment (c : nginxv1.NginxCluster) (d : appsv1.Deployment)
    (a : gmap string string) (now : Time) : appsv1.Deployment :=
  appsv1.withTemplateAnnotations
    (Some (<["restartedAt" := formatRFC3339 now]> (<["config-hash" := fingerprintOf c]> a))) d.

Definition publishedStatus (c : nginxv1.NginxCluster) (d : appsv1.Deployment)
    (now : Time) : nginxv1.NginxClusterStatus :=
  {| nginxv1.StatusReplicas := appsv1.StatusReplicas (appsv1.Status d);
     nginxv1.ReadyReplicas := appsv1.ReadyReplicas (appsv1.Status d);
     nginxv1.ConfigHash := fingerprintOf c;
     nginxv1.LastUpdateTime := Some now |}.

(** *** The calls a pass can make

    [PassEvent req c w0 e]: [e] is a call that a pass for the request
    [req] may issue when it starts in [w0] and fetches the cluster [c].
    Each constructor is one call site of [Reconcile], with what the code
    has established when it reaches it. *)
Inductive PassEvent (req : NamespacedName) (c : nginxv1.NginxCluster) (w0 : World)
  : Event -> Prop :=
| PE_GetCluster :
    PassEvent req c w0 (EvGet KNginxCluster req)
| PE_AddFinalizer :
    ¬ hasFinalizer c ->
    PassEvent req c w0 (EvUpdate (ObjNginxCluster (inMemory c)))
| PE_Finalize :
    markedForDeletion c ->
    PassEvent req c w0 (EvFinalize (inMemory c))
| PE_RemoveFinalizer :
    markedForDeletion c ->
    PassEvent req c w0
      (EvUpdate (ObjNginxCluster
                   (controllerutil.RemoveFinalizer (inMemory c) nginxClusterFinalizer)))
| PE_GetConfigMap :
    ¬ markedForDeletion c ->
    PassEvent req c w0 (EvGet KConfigMap (configMapKey c))
| PE_CreateConfigMap :
    PassEvent req c w0
      (EvCreate (ObjConfigMap (configMapForNginxCluster (inMemory c) (fingerprintOf c))))
| PE_UpdateConfigMap cm g a :
    configmaps w0 !! configMapKey c = Some cm ->
    mapaccess (metav1.Annotations (corev1.ConfigMapMeta cm)) "config-hash" ≠ fingerprintOf c ->
    corev1.Data cm = Some g ->
    metav1.Annotations (corev1.ConfigMapMeta cm) = Some a ->
    PassEvent req c w0 (EvUpdate (ObjConfigMap (updatedConfigMap c cm g a)))
| PE_GetDeployment :
    PassEvent req c w0 (EvGet KDeployment (childKey c))
| PE_CreateDeployment :
    PassEvent req c w0
      (EvCreate (ObjDeployment (deploymentForNginxCluster (inMemory c) (fingerprintOf c))))
| PE_UpdateReplicas d n :
    deployments w0 !! childKey c = Some d ->
    appsv1.Replicas (appsv1.Spec d) = Some n ->
    n ≠ nginxv1.Replicas (nginxv1.Spec c) ->
    PassEvent req c w0
      (EvUpdate (ObjDeployment
                   (appsv1.withReplicas (Some (nginxv1.Replicas (nginxv1.Spec c))) d)))
| PE_UpdateTemplate d a :
    deployments w0 !! childKey c = Some d ->
    appsv1.Replicas (appsv1.Spec d) = Some (nginxv1.Replicas (nginxv1.Spec c)) ->
    appsv1.templateAnnotations d = Some a ->
    mapaccess (Some a) "config-hash" ≠ fingerprintOf c ->
    PassEvent req c w0 (EvUpdate (ObjDeployment (restartedDeployment c d a (clock w0))))
| PE_GetService :
    PassEvent req c w0 (EvGet KService (childKey c))
| PE_CreateService :
    PassEvent req c w0 (EvCreate (ObjService (serviceForNginxCluster (inMemory c))))
| PE_StatusUpdate d :
    deployments w0 !! childKey c = Some d ->
    PassEvent req c w0
      (EvStatusUpdate
         (nginxv1.withStatus (publishedStatus c d (clock w0)) (inMemory c))).

(** *** Several passes

    A later pass starts from the world the previous one left, at some
    later clock reading and with a failure schedule of its own. *)
Record Pass := {
  passRequest : NamespacedName;
  passClock : Time;
  passFaults : list (option error)
}.

Definition runPass (p : Pass) (w : World)
  : outcome (Result * option error) * World * list Event :=
  Reconcile (passRequest p) (withClock (passClock p) (withFaults (passFaults p) w)).

Fixpoint runPasses (ps : list Pass) (w : World) : World :=
  match ps with
  | [] => w
  | p :: ps' => runPasses ps' (worldOf (runPass p w))
  end.

(** *** Predicates on worlds *)

(** Every stored object sits under its own namespace and name. *)
Definition wellKeyed {T} `{Resource T} (w : World) : Prop :=
  ∀ k o, table w !! k = Some o -> keyOf o = k.

Definition WellKeyed (w : World) : Prop :=
  wellKeyed (T := nginxv1.NginxCluster) w ∧ wellKeyed (T := corev1.ConfigMap) w ∧
  wellKeyed (T := appsv1.Deployment) w ∧ wellKeyed (T := corev1.Service) w.

(** What a pass may do to the Service table: nothing, or add the built
    Service under a free identity. *)
Definition serviceFrame (c : nginxv1.NginxCluster) (w w' : World) : Prop :=
  services w' = services w ∨
  (services w !! childKey c = None ∧
   services w' = <[childKey c := serviceForNginxCluster (inMemory c)]> (services w)).

(** What the first call of a pass, the fetch of the cluster, returns. *)
Definition fetched (req : NamespacedName) (w : World) : error + nginxv1.NginxCluster :=
  match scheduled (faults w) with
  | Some e => inl e
  | None =>
      match nginxclusters w !! req with
      | Some c => inr c
      | None => inl ErrNotFound
      end
  end.

Definition isFinalize (e : Event) : bool :=
  match e with EvFinalize _ => true | _ => false end.


(** Two worlds hold the same objects. *)
Definition sameObjects (w w' : World) : Prop :=
  nginxclusters w' = nginxclusters w ∧ configmaps w' = configmaps w ∧
  deployments w' = deployments w ∧ services w' = services w.

(** Prefixes the log of a run. *)
Definition logged {A} (l : list Event) (x : outcome A * World * list Event)
  : outcome A * World * list Event :=
  (outcomeOf x, worldOf x, l ++ eventsOf x).

(** The calls of the steps that come before the Deployment is looked at. *)
Definition isEarlyStep (e : Event) : bool :=
  match e with
  | EvGet KNginxCluster _ | EvGet KConfigMap _
  | EvCreate (ObjConfigMap _)
  | EvUpdate (ObjNginxCluster _) | EvUpdate (ObjConfigMap _) => true
  | _ => false
  end.

(** The world with the stored cluster replaced. *)
Definition withCluster (req : NamespacedName) (c : nginxv1.NginxCluster) (w : World) : World :=
  withTable (<[req := c]> (nginxclusters w)) w.

Definition isDeploymentUpdate (e : Event) : bool :=
  match e with EvUpdate (ObjDeployment _) => true | _ => false end.

(** Every call of the pass uses the identity derived from the cluster's
    name: what a fetch or a create of a child is addressed to. *)
Definition namedFor (c : nginxv1.NginxCluster) (e : Event) : Prop :=
  match e with
  | EvGet KConfigMap key =>
      key = (clusterNamespace c, clusterName c +:+ "-nginx-config")
  | EvGet KDeployment key | EvGet KService key =>
      key = (clusterNamespace c, clusterName c)
  | EvCreate (ObjConfigMap cm) =>
      keyOf cm = (clusterNamespace c, clusterName c +:+ "-nginx-config")
  | EvCreate (ObjDeployment d) => keyOf d = (clusterNamespace c, clusterName c)
  | EvCreate (ObjService s) => keyOf s = (clusterNamespace c, clusterName c)
  | _ => True
  end.

(** The fingerprint a write carries. An update of the Deployment either
    stamps the fingerprint or is the replica update, which leaves the pod
    template of the stored Deployment as it is. *)
Definition taggedWith (w : World) (c : nginxv1.NginxCluster) (e : Event) : Prop :=
  match e with
  | EvCreate (ObjConfigMap cm) | EvUpdate (ObjConfigMap cm) =>
      mapaccess (metav1.Annotations (corev1.ConfigMapMeta cm)) "config-hash" = fingerprintOf c
  | EvCreate (ObjDeployment d) =>
      mapaccess (appsv1.templateAnnotations d) "config-hash" = fingerprintOf c
  | EvUpdate (ObjDeployment d) =>
      mapaccess (appsv1.templateAnnotations d) "config-hash" = fingerprintOf c ∨
      (∃ d0, deployments w !! childKey c = Some d0 ∧
             appsv1.templateAnnotations d = appsv1.templateAnnotations d0)
  | EvStatusUpdate c' => nginxv1.ConfigHash (nginxv1.Status c') = fingerprintOf c
  | _ => True
  end.

(** The fetched children are well formed: the maps and the pointer the
    pass writes through or dereferences are not nil. *)
Definition ChildrenWellFormed (c : nginxv1.NginxCluster) (w : World) : Prop :=
  (∀ cm, configmaps w !! configMapKey c = Some cm ->
         mapaccess (metav1.Annotations (corev1.ConfigMapMeta cm)) "config-hash"
           ≠ fingerprintOf c ->
         corev1.Data cm ≠ None ∧ metav1.Annotations (corev1.ConfigMapMeta cm) ≠ None) ∧
  (∀ d, deployments w !! childKey c = Some d ->
        appsv1.Replicas (appsv1.Spec d) ≠ None ∧ appsv1.templateAnnotations d ≠ None).

(** The Deployment of the cluster is there with the replica count of the
    spec. *)
Definition replicasPinned (c : nginxv1.NginxCluster) (w : World) : Prop :=
  ∃ d, deployments w !! childKey c = Some d ∧
       appsv1.Replicas (appsv1.Spec d) = Some (nginxv1.Replicas (nginxv1.Spec c)).

(** Nothing is left for a pass to create or update: the cluster carries
    the finalizer and is not being deleted, the children are there, and
    the fingerprints and the replica count agree with the spec. The
    status is the one published from the Deployment at some instant. *)
Definition Converged (req : NamespacedName) (w : World) : Prop :=
  ∃ c cm d s t,
    nginxclusters w !! req = Some c ∧ childKey c = req ∧
    hasFinalizer c ∧ ¬ markedForDeletion c ∧
    configmaps w !! configMapKey c = Some cm ∧
    mapaccess (metav1.Annotations (corev1.ConfigMapMeta cm)) "config-hash" = fingerprintOf c ∧
    deployments w !! childKey c = Some d ∧
    appsv1.Replicas (appsv1.Spec d) = Some (nginxv1.Replicas (nginxv1.Spec c)) ∧
    mapaccess (appsv1.templateAnnotations d) "config-hash" = fingerprintOf c ∧
    services w !! childKey c = Some s ∧
    nginxv1.Status c = publishedStatus c d t.

(** *** Sample objects *)

Module Sample.

Definition meta (name : string) : metav1.ObjectMeta :=
  {| metav1.Name := name; metav1.Namespace := "default"; metav1.UID := "";
     metav1.Labels := None; metav1.Annotations := None; metav1.Finalizers := [];
     metav1.DeletionTimestamp := None; metav1.OwnerReferences := [] |}.

Definition cluster (finalizers : list string) (deletion : option Time)
    (replicas : Z) (image conf : string) : nginxv1.NginxCluster :=
  {| nginxv1.ObjectMeta :=
       {| metav1.Name := "web"; metav1.Namespace := "default"; metav1.UID := "c0ffee";
          metav1.Labels := None; metav1.Annotations := None;
          metav1.Finalizers := finalizers; metav1.DeletionTimestamp := deletion;
          metav1.OwnerReferences := [] |};
     nginxv1.Spec :=
       {| nginxv1.Replicas := replicas; nginxv1.Image := image;
          nginxv1.NginxConf := conf |};
     nginxv1.Status :=
       {| nginxv1.StatusReplicas := 0; nginxv1.ReadyReplicas := 0;
          nginxv1.ConfigHash := ""; nginxv1.LastUpdateTime := None |} |}.

Definition req : NamespacedName := ("default", "web").

Definition configMap (hash conf : string) : corev1.ConfigMap :=
  {| corev1.ConfigMapMeta :=
       metav1.withAnnotations (Some {[ "config-hash" := hash ]}) (meta "web-nginx-config");
     corev1.Data := Some {[ "nginx.conf" := conf ]} |}.

Definition deployment (replicas : option Z) (annotations : gomap) : appsv1.Deployment :=
  {| appsv1.ObjectMeta := meta "web";
     appsv1.Spec :=
       {| appsv1.Replicas := replicas; appsv1.Selector := None;
          appsv1.Template :=
            {| corev1.TemplateMeta := metav1.withAnnotations annotations (meta "");
               corev1.TemplateSpec :=
                 {| corev1.Containers := []; corev1.Volumes := [] |} |} |};
     appsv1.Status := {| appsv1.StatusReplicas := 2; appsv1.ReadyReplicas := 1 |} |}.

Definition world (c : nginxv1.NginxCluster) (cm : option corev1.ConfigMap)
    (d : option appsv1.Deployment) (s : option corev1.Service) : World :=
  {| nginxclusters := {[ req := c ]};
     configmaps := from_option (λ x, {[ ("default", "web-nginx-config") := x ]}) ∅ cm;
     deployments := from_option (λ x, {[ req := x ]}) ∅ d;
     services := from_option (λ x, {[ req := x ]}) ∅ s;
     clock := 1761865200;
     faults := [] |}.

Definition finalizers : list string := [nginxClusterFinalizer].

(** A new cluster with an empty spec, nothing created yet. *)
Definition fresh : World := world (cluster [] None 2 "" "") None None None.


(** Being deleted, held by somebody else's finalizer only. *)
Definition deletingForeign : World :=
  world (cluster ["example.com/other"] (Some 1761865000) 2 "" "") None None None.


End Sample.

Module Sample2.

Definition service : corev1.Service :=
  {| corev1.ServiceMeta := Sample.meta "web";
     corev1.ServiceSpec_ :=
       {| corev1.Selector := Some {[ "app" := "legacy" ]};
          corev1.ServicePorts :=
            [ {| corev1.Port := 8080; corev1.ServicePortName := "alt";
                 corev1.PortProtocol := corev1.ProtocolTCP |} ];
          corev1.Type_ := corev1.ServiceTypeNodePort |} |}.

(** A cluster whose Service exists already, shaped unlike the built one. *)
Definition withService : World :=
  Sample.world (Sample.cluster Sample.finalizers None 2 "" "") None None (Some service).

Definition passes : list Pass :=
  [ {| passRequest := Sample.req; passClock := 1761865201; passFaults := [] |};
    {| passRequest := Sample.req; passClock := 1761865202; passFaults := [None; Some ErrConflict] |};
    {| passRequest := Sample.req; passClock := 1761865203; passFaults := [] |} ].

End Sample2.

Module Sample3.

(** The spec's text has been emptied; the ConfigMap still holds the
    earlier text under the earlier fingerprint. *)
Definition emptied : World :=
  Sample.world (Sample.cluster Sample.finalizers None 2 "" "")
    (Some (Sample.configMap "0123456789abcdef" "worker_processes 4;")) None None.

End Sample3.

Module Sample4.

Definition live : nginxv1.NginxCluster := Sample.cluster Sample.finalizers None 2 "" "".





End Sample4.

Module Sample5.

(** Converged under three replicas; the spec now asks for two. *)
Definition resized : World :=
  Sample.world Sample4.live (Some (Sample.configMap (fingerprintOf Sample4.live) ""))
    (Some (Sample.deployment (Some 3) (Some {[ "config-hash" := fingerprintOf Sample4.live ]})))
    None.

End Sample5.

Module Sample6.

Definition oldText : string := "events {}".
Definition newText : string := "events { worker_connections 2048; }".

Definition changed : nginxv1.NginxCluster :=
  Sample.cluster Sample.finalizers None 2 "nginx:1.25" newText.

(** Converged under the old text; the spec now carries the new text. *)
Definition configChanged : World :=
  Sample.world changed
    (Some (Sample.configMap (calculateConfigHash oldText) oldText))
    (Some (Sample.deployment (Some 2)
             (Some {[ "config-hash" := calculateConfigHash oldText ]})))
    (Some (serviceForNginxCluster changed)).

(** The ConfigMap is still under the old fingerprint, the pod template
    already under the new one: the update of the Deployment went through
    for the new text, the one of the ConfigMap was lost, or the text was
    changed back and forth between two passes. *)
Definition templateAhead : World :=
  Sample.world changed
    (Some (Sample.configMap (calculateConfigHash oldText) oldText))
    (Some (Sample.deployment (Some 2)
             (Some {[ "config-hash" := calculateConfigHash newText ]})))
    (Some (serviceForNginxCluster changed)).

End Sample6.

(** *** Vocabulary for the further properties *)

(** The owner links and the namespace of an object sent to the API. *)
Definition ownersOf (o : Object) : list metav1.OwnerReference :=
  match o with
  | ObjNginxCluster c => metav1.OwnerReferences (nginxv1.ObjectMeta c)
  | ObjConfigMap cm => metav1.OwnerReferences (corev1.ConfigMapMeta cm)
  | ObjDeployment d => metav1.OwnerReferences (appsv1.ObjectMeta d)
  | ObjService s => metav1.OwnerReferences (corev1.ServiceMeta s)
  end.

Definition namespaceOf (o : Object) : string :=
  match o with
  | ObjNginxCluster c => metav1.Namespace (nginxv1.ObjectMeta c)
  | ObjConfigMap cm => metav1.Namespace (corev1.ConfigMapMeta cm)
  | ObjDeployment d => metav1.Namespace (appsv1.ObjectMeta d)
  | ObjService s => metav1.Namespace (corev1.ServiceMeta s)
  end.

(** Two versions of a cluster that differ at most in the finalizer list
    and in the status: same spec, same metadata otherwise. *)
Definition sameDesired (c c' : nginxv1.NginxCluster) : Prop :=
  nginxv1.Spec c' = nginxv1.Spec c ∧
  metav1.withFinalizers [] (nginxv1.ObjectMeta c')
  = metav1.withFinalizers [] (nginxv1.ObjectMeta c).

(** The calls of the fetch, finalizer and deletion steps: they are about
    the cluster itself. *)
Definition isClusterStep (e : Event) : bool :=
  match e with
  | EvGet KNginxCluster _ | EvUpdate (ObjNginxCluster _) | EvFinalize _ => true
  | _ => false
  end.

(** The two writes after which a pass asks for a requeue: the create of
    the Deployment, and the update that sets a stored Deployment's replica
    count to the spec's. *)
Definition deploymentWrite (c : nginxv1.NginxCluster) (w : World) (e : Event) : Prop :=
  e = EvCreate (ObjDeployment (deploymentForNginxCluster (inMemory c) (fingerprintOf c))) ∨
  ∃ d n, deployments w !! childKey c = Some d ∧
         appsv1.Replicas (appsv1.Spec d) = Some n ∧
         n ≠ nginxv1.Replicas (nginxv1.Spec c) ∧
         e = EvUpdate (ObjDeployment
                         (appsv1.withReplicas (Some (nginxv1.Replicas (nginxv1.Spec c))) d)).

(** How a pass may end: an error comes without a requeue, and a requeue
    comes without an error, right after one of the two Deployment writes. *)
Definition endsWell (c : nginxv1.NginxCluster) (w : World)
    (o : outcome (Result * option error)) (l : list Event) : Prop :=
  match o with
  | Done (res, err) =>
      (is_Some err -> Requeue res = false) ∧
      (Requeue res = true ->
       err = None ∧ ∃ l' e, l = l' ++ [e] ∧ deploymentWrite c w e)
  | Panicked => True
  end.

(** A lower-case hexadecimal digit. *)
Definition isLowerHex (a : ascii) : bool :=
  let n := Z.of_N (N_of_ascii a) in
  (48 <=? n) && (n <=? 57) || (97 <=? n) && (n <=? 102).

(** The ConfigMaps and the Deployments of the store are well formed:
    none of the maps and pointers that a pass writes through or
    dereferences is nil. *)
Definition wellFormedConfigMap (cm : corev1.ConfigMap) : Prop :=
  corev1.Data cm ≠ None ∧ metav1.Annotations (corev1.ConfigMapMeta cm) ≠ None.

Definition wellFormedDeployment (d : appsv1.Deployment) : Prop :=
  appsv1.Replicas (appsv1.Spec d) ≠ None ∧ appsv1.templateAnnotations d ≠ None.

Definition AllWellFormed (w : World) : Prop :=
  (∀ k cm, configmaps w !! k = Some cm -> wellFormedConfigMap cm) ∧
  (∀ k d, deployments w !! k = Some d -> wellFormedDeployment d).

Definition StoreSound (w : World) : Prop := WellKeyed w ∧ AllWellFormed w.

(** Every cluster of [w] is still there in [w'], with the same desired
    state, and no cluster has appeared. *)
Definition clustersKept (w w' : World) : Prop :=
  ∀ k, match nginxclusters w !! k with
       | Some c => ∃ c', nginxclusters w' !! k = Some c' ∧ sameDesired c c'
       | None => nginxclusters w' !! k = None
       end.

(** The cluster table after some writes of a pass that fetched [c]: the
    table [m0] the pass began with, the entry of [c] replaced by a
    version of [c] with the same desired state. *)
Definition clusterRewritten (c : nginxv1.NginxCluster)
    (m0 m : gmap NamespacedName nginxv1.NginxCluster) : Prop :=
  ∃ c', sameDesired c c' ∧ childKey c' = childKey c ∧ m = <[childKey c := c']> m0.

(** A pass in which no call fails. *)
Definition cleanPass (req : NamespacedName) (t : Time) : Pass :=
  {| passRequest := req; passClock := t; passFaults := [] |}.

(** A table of ConfigMaps, or of Deployments, whose entries sit under
    their own identity and are well formed. *)
Definition goodConfigMaps (t : gmap NamespacedName corev1.ConfigMap) : Prop :=
  ∀ k cm, t !! k = Some cm -> keyOf cm = k ∧ wellFormedConfigMap cm.

Definition goodDeployments (t : gmap NamespacedName appsv1.Deployment) : Prop :=
  ∀ k d, t !! k = Some d -> keyOf d = k ∧ wellFormedDeployment d.

(** The call sites of a pass, numbered in the order of the source. An
    update of the cluster is the finalizer step's when it carries the
    finalizer, the deletion step's when it does not. *)
Definition stage (e : Event) : nat :=
  match e with
  | EvGet KNginxCluster _ => 0
  | EvUpdate (ObjNginxCluster c) => if bool_decide (hasFinalizer c) then 1 else 3
  | EvFinalize _ => 2
  | EvGet KConfigMap _ => 4
  | EvCreate (ObjConfigMap _) | EvUpdate (ObjConfigMap _) => 5
  | EvGet KDeployment _ => 6
  | EvCreate (ObjDeployment _) | EvUpdate (ObjDeployment _) => 7
  | EvGet KService _ => 8
  | EvCreate (ObjService _) | EvUpdate (ObjService _) => 9
  | EvStatusUpdate _ => 10
  | EvCreate (ObjNginxCluster _) => 11
  end.

(** The calls of [l] are at stages from [s] on, each later than the one
    before. *)
Fixpoint inOrder (s : nat) (l : list Event) : Prop :=
  match l with
  | [] => True
  | e :: l' => (s <= stage e)%nat ∧ inOrder (S (stage e)) l'
  end.

(* ===================================================================== *)
(** ** Basic facts *)
(* ===================================================================== *)

Arguments calculateConfigHash : simpl never.
Arguments formatRFC3339 : simpl never.
Arguments scheduled !fs /.
Arguments publishStatus : simpl never.
Arguments convergeService : simpl never.
Arguments convergeDeployment : simpl never.
Arguments convergeConfigMap : simpl never.
Arguments handleDeletion : simpl never.
Arguments attachFinalizer : simpl never.
Arguments serviceForNginxCluster : simpl never.
Arguments deploymentForNginxCluster : simpl never.
Arguments configMapForNginxCluster : simpl never.
Arguments inMemory : simpl never.
Arguments childKey : simpl never.
Arguments configMapKey : simpl never.
Arguments fingerprintOf : simpl never.
Arguments controllerutil.RemoveFinalizer : simpl never.
Arguments controllerutil.AddFinalizer : simpl never.
Arguments controllerutil.ContainsFinalizer : simpl never.

Lemma ContainsFinalizer_true c :
  controllerutil.ContainsFinalizer c nginxClusterFinalizer = true <-> hasFinalizer c.
Proof. unfold controllerutil.ContainsFinalizer, hasFinalizer. apply bool_decide_eq_true. Qed.

Lemma ContainsFinalizer_false c :
  controllerutil.ContainsFinalizer c nginxClusterFinalizer = false <-> ¬ hasFinalizer c.
Proof. unfold controllerutil.ContainsFinalizer, hasFinalizer. apply bool_decide_eq_false. Qed.

Lemma inMemory_id c : hasFinalizer c -> inMemory c = c.
Proof.
  intros Hc. unfold inMemory, controllerutil.AddFinalizer.
  rewrite bool_decide_eq_true_2; [reflexivity | exact Hc].
Qed.

Lemma inMemory_Spec c : nginxv1.Spec (inMemory c) = nginxv1.Spec c.
Proof. unfold inMemory, controllerutil.AddFinalizer. case_bool_decide; reflexivity. Qed.

Lemma inMemory_Status c : nginxv1.Status (inMemory c) = nginxv1.Status c.
Proof. unfold inMemory, controllerutil.AddFinalizer. case_bool_decide; reflexivity. Qed.

Lemma inMemory_name c : clusterName (inMemory c) = clusterName c.
Proof. unfold inMemory, controllerutil.AddFinalizer. case_bool_decide; reflexivity. Qed.

Lemma inMemory_namespace c : clusterNamespace (inMemory c) = clusterNamespace c.
Proof. unfold inMemory, controllerutil.AddFinalizer. case_bool_decide; reflexivity. Qed.

Lemma inMemory_deletion c :
  metav1.DeletionTimestamp (nginxv1.ObjectMeta (inMemory c))
  = metav1.DeletionTimestamp (nginxv1.ObjectMeta c).
Proof. unfold inMemory, controllerutil.AddFinalizer. case_bool_decide; reflexivity. Qed.

Lemma inMemory_hasFinalizer c : hasFinalizer (inMemory c).
Proof.
  unfold hasFinalizer, inMemory, controllerutil.AddFinalizer.
  case_bool_decide; simpl; [assumption | set_solver].
Qed.

Lemma inMemory_fingerprint c : fingerprintOf (inMemory c) = fingerprintOf c.
Proof. unfold fingerprintOf. by rewrite inMemory_Spec. Qed.

Lemma inMemory_keyOf c : keyOf (inMemory c) = childKey c.
Proof. unfold inMemory, controllerutil.AddFinalizer. case_bool_decide; reflexivity. Qed.

Lemma RemoveFinalizer_gone (c : nginxv1.NginxCluster) :
  ¬ hasFinalizer (controllerutil.RemoveFinalizer c nginxClusterFinalizer).
Proof.
  unfold hasFinalizer, controllerutil.RemoveFinalizer. simpl.
  rewrite list_elem_of_filter. tauto.
Qed.

Lemma RemoveFinalizer_Status (c : nginxv1.NginxCluster) f :
  nginxv1.Status (controllerutil.RemoveFinalizer c f) = nginxv1.Status c.
Proof. reflexivity. Qed.

Lemma RemoveFinalizer_keyOf (c : nginxv1.NginxCluster) f :
  keyOf (controllerutil.RemoveFinalizer c f) = childKey c.
Proof. reflexivity. Qed.

Lemma withStatus_same (c : nginxv1.NginxCluster) :
  nginxv1.withStatus (nginxv1.Status c) c = c.
Proof. by destruct c. Qed.

Lemma keyOf_serviceFor c : keyOf (serviceForNginxCluster c) = childKey c.
Proof. reflexivity. Qed.

Lemma keyOf_deploymentFor c h : keyOf (deploymentForNginxCluster c h) = childKey c.
Proof. reflexivity. Qed.

Lemma keyOf_configMapFor c h : keyOf (configMapForNginxCluster c h) = configMapKey c.
Proof. reflexivity. Qed.

Lemma childKey_inMemory c : childKey (inMemory c) = childKey c.
Proof. unfold childKey. by rewrite inMemory_name, inMemory_namespace. Qed.

Lemma configMapKey_inMemory c : configMapKey (inMemory c) = configMapKey c.
Proof. unfold configMapKey. by rewrite inMemory_name, inMemory_namespace. Qed.

Lemma withStatus_RemoveFinalizer (c : nginxv1.NginxCluster) f :
  nginxv1.withStatus (nginxv1.Status c) (controllerutil.RemoveFinalizer c f)
  = controllerutil.RemoveFinalizer c f.
Proof. by destruct c. Qed.

Lemma withStatus_inMemory c :
  nginxv1.withStatus (nginxv1.Status c) (inMemory c) = inMemory c.
Proof. rewrite <- (inMemory_Status c). apply withStatus_same. Qed.

(** A fingerprint has sixteen characters. *)
Lemma calculateConfigHash_length s : String.length (calculateConfigHash s) = 16%nat.
Proof. reflexivity. Qed.

Lemma fingerprint_nonempty c : fingerprintOf c ≠ "".
Proof.
  intros H.
  pose proof (calculateConfigHash_length (nginxv1.NginxConf (nginxv1.Spec c))) as Hl.
  unfold fingerprintOf in H. rewrite H in Hl. discriminate.
Qed.

(** The monad's projections through [bind]. *)
Lemma eventsOf_bind {A B} (m : M A) (k : A -> M B) w :
  eventsOf (bind m k w)
  = match outcomeOf (m w) with
    | Done a => eventsOf (m w) ++ eventsOf (k a (worldOf (m w)))
    | Panicked => eventsOf (m w)
    end.
Proof.
  unfold bind, eventsOf, outcomeOf, worldOf.
  destruct (m w) as [[[a|] w1] l1]; simpl; [|reflexivity].
  destruct (k a w1) as [[o w2] l2]; reflexivity.
Qed.

Lemma outcomeOf_bind {A B} (m : M A) (k : A -> M B) w :
  outcomeOf (bind m k w)
  = match outcomeOf (m w) with
    | Done a => outcomeOf (k a (worldOf (m w)))
    | Panicked => Panicked
    end.
Proof.
  unfold bind, eventsOf, outcomeOf, worldOf.
  destruct (m w) as [[[a|] w1] l1]; simpl; [|reflexivity].
  destruct (k a w1) as [[o w2] l2]; reflexivity.
Qed.

Lemma worldOf_bind {A B} (m : M A) (k : A -> M B) w :
  worldOf (bind m k w)
  = match outcomeOf (m w) with
    | Done a => worldOf (k a (worldOf (m w)))
    | Panicked => worldOf (m w)
    end.
Proof.
  unfold bind, eventsOf, outcomeOf, worldOf.
  destruct (m w) as [[[a|] w1] l1]; simpl; [|reflexivity].
  destruct (k a w1) as [[o w2] l2]; reflexivity.
Qed.

(** Symbolic execution: pushes the three projections through the binds
    and the primitives, and splits on what the code branches on. *)
Ltac run_prims :=
  repeat (rewrite ?eventsOf_bind, ?outcomeOf_bind, ?worldOf_bind;
          unfold Get, Create, Update, StatusUpdate, finalizeNginxCluster, Now,
            emit, nextFault, gets, modify, ret, panic, ok, fail, deref, mapassign;
          cbn [outcomeOf worldOf eventsOf fst snd]).

Ltac split_on t := destruct t eqn:?.

Ltac run_split :=
  match goal with
  | H : ?m !! ?k = _ |- context [?m !! ?k] => rewrite H
  | H : scheduled ?f = _ |- context [scheduled ?f] => rewrite H
  | H : faults ?w = _ |- context [faults ?w] => rewrite H
  | H : ?x = Some _ |- context [match ?x with Some _ => _ | None => _ end] => rewrite H
  | H : ?x = None |- context [match ?x with Some _ => _ | None => _ end] => rewrite H
  | |- context [scheduled ?f] => split_on (scheduled f)
  | |- context [IsNotFound ?e] => destruct e
  | |- context [match ?m !! ?k with _ => _ end] => split_on (m !! k)
  | |- context [match ?x with Some _ => _ | None => _ end] => split_on x
  | |- context [decide ?P] => destruct (decide P)
  end.

Ltac norm_keys :=
  rewrite ?childKey_inMemory, ?configMapKey_inMemory, ?keyOf_serviceFor,
    ?keyOf_deploymentFor, ?keyOf_configMapFor, ?RemoveFinalizer_keyOf, ?inMemory_keyOf;
  repeat match goal with
         | |- context [@keyOf nginxv1.NginxCluster ?i ?x] =>
             change (@keyOf nginxv1.NginxCluster i x) with (childKey x)
         end.

Ltac run_with tac := repeat (run_prims; simpl; norm_keys; tac; try run_split).
Ltac run := run_with idtac.

Ltac stabilise :=
  repeat match goal with
         | H : ¬ _ ≠ _ |- _ => apply dec_stable in H
         end.

Section Events.
Variables (req : NamespacedName) (c : nginxv1.NginxCluster) (w0 : World).

Local Abbreviation cur := (inMemory c).
Local Abbreviation PE := (PassEvent req c w0).

Lemma publishStatus_events d d0 w :
  deployments w0 !! childKey c = Some d0 ->
  appsv1.Status d = appsv1.Status d0 ->
  clock w = clock w0 ->
  Forall PE (eventsOf (publishStatus cur d (fingerprintOf c) w)).
Proof.
  intros Hd Hs Hc. unfold publishStatus.
  assert (Hev : PE (EvStatusUpdate (nginxv1.withStatus (publishedStatus c d0 (clock w0)) cur))).
  { by apply PE_StatusUpdate. }
  unfold publishedStatus in Hev. rewrite <- Hs, <- Hc in Hev.
  run; repeat constructor; try assumption.
Qed.

Lemma convergeService_events d d0 w :
  deployments w0 !! childKey c = Some d0 ->
  appsv1.Status d = appsv1.Status d0 ->
  clock w = clock w0 ->
  Forall PE (eventsOf (convergeService cur d (fingerprintOf c) w)).
Proof.
  intros Hd Hs Hc. unfold convergeService.
  rewrite inMemory_name, inMemory_namespace. fold (childKey c).
  run; rewrite ?Forall_app, ?Forall_cons, ?Forall_nil; repeat split;
    try (by constructor); by eapply publishStatus_events.
Qed.

Lemma convergeDeployment_events w :
  deployments w = deployments w0 ->
  clock w = clock w0 ->
  Forall PE (eventsOf (convergeDeployment cur (fingerprintOf c) w)).
Proof.
  intros Hd Hc. unfold convergeDeployment.
  rewrite inMemory_name, inMemory_namespace, inMemory_Spec. fold (childKey c).
  run; rewrite ?Forall_app, ?Forall_cons, ?Forall_nil; repeat split;
    try (by constructor).
  all: rewrite ?Hd, ?Hc in *; stabilise; subst.
  all: try (by eapply PE_UpdateReplicas).
  all: try (by eapply PE_UpdateTemplate; eauto; congruence).
  all: try (eapply convergeService_events; eauto; done).
Qed.
End Events.

Section Events2.
Variables (req : NamespacedName) (c : nginxv1.NginxCluster) (w0 : World).

Local Abbreviation cur := (inMemory c).
Local Abbreviation PE := (PassEvent req c w0).

Lemma convergeConfigMap_events w :
  ¬ markedForDeletion c ->
  configmaps w = configmaps w0 ->
  deployments w = deployments w0 ->
  clock w = clock w0 ->
  Forall PE (eventsOf (convergeConfigMap cur w)).
Proof.
  intros Hm Hcm Hd Hc. unfold convergeConfigMap.
  rewrite inMemory_name, inMemory_namespace, inMemory_Spec.
  fold (configMapKey c). fold (fingerprintOf c).
  run; rewrite ?Forall_app, ?Forall_cons, ?Forall_nil; repeat split;
    try (by constructor).
  all: rewrite ?Hcm, ?Hc in *; stabilise; subst.
  all: try (eapply convergeDeployment_events; eauto; done).
  all: eapply PE_UpdateConfigMap; eauto.
  all: match goal with H : metav1.Annotations _ = _ |- _ => by rewrite H end.
Qed.
End Events2.

Section Events3.
Variables (req : NamespacedName) (c : nginxv1.NginxCluster) (w0 : World).

Local Abbreviation cur := (inMemory c).
Local Abbreviation PE := (PassEvent req c w0).

Lemma handleDeletion_events w :
  configmaps w = configmaps w0 ->
  deployments w = deployments w0 ->
  clock w = clock w0 ->
  Forall PE (eventsOf (handleDeletion cur w)).
Proof.
  intros Hcm Hd Hc. unfold handleDeletion.
  rewrite inMemory_deletion.
  case_bool_decide as Hm.
  - destruct (controllerutil.ContainsFinalizer cur nginxClusterFinalizer).
    + run; rewrite ?Forall_app, ?Forall_cons, ?Forall_nil; repeat split;
        constructor; exact Hm.
    + run. constructor.
  - apply convergeConfigMap_events; [intros Hx; exact (Hx Hm) | assumption ..].
Qed.

Lemma attachFinalizer_events w :
  configmaps w = configmaps w0 ->
  deployments w = deployments w0 ->
  clock w = clock w0 ->
  Forall PE (eventsOf (attachFinalizer c w)).
Proof.
  intros Hcm Hd Hc. unfold attachFinalizer.
  destruct (controllerutil.ContainsFinalizer c nginxClusterFinalizer) eqn:Hf; simpl.
  - apply ContainsFinalizer_true in Hf.
    rewrite <- (inMemory_id c Hf) at 2. by apply handleDeletion_events.
  - apply ContainsFinalizer_false in Hf. fold (inMemory c).
    run; rewrite ?Forall_app, ?Forall_cons, ?Forall_nil; repeat split;
      try (by constructor).
    all: by apply handleDeletion_events.
Qed.
End Events3.

(** Every call of a pass is one of the call sites of [PassEvent]. *)
Lemma Reconcile_events req w :
  match nginxclusters w !! req with
  | Some c => Forall (PassEvent req c w) (eventsOf (Reconcile req w))
  | None => eventsOf (Reconcile req w) = [EvGet KNginxCluster req]
  end.
Proof.
  unfold Reconcile. run_prims. simpl.
  destruct (nginxclusters w !! req) as [c|] eqn:Hc.
  - run; rewrite ?Forall_app, ?Forall_cons, ?Forall_nil; repeat split;
      try (by constructor).
    by apply attachFinalizer_events.
  - run; reflexivity.
Qed.

(* ===================================================================== *)
(** ** The Service table *)
(* ===================================================================== *)

Lemma publishStatus_services c d h w :
  services (worldOf (publishStatus c d h w)) = services w.
Proof. unfold publishStatus. run; reflexivity. Qed.

Lemma convergeService_services c d h w :
  serviceFrame c w (worldOf (convergeService (inMemory c) d h w)).
Proof.
  unfold convergeService, serviceFrame. fold (childKey (inMemory c)).
  rewrite childKey_inMemory.
  run; rewrite ?publishStatus_services; simpl; rewrite ?keyOf_serviceFor, ?childKey_inMemory in *;
    auto.
Qed.

Lemma convergeDeployment_services c h w :
  serviceFrame c w (worldOf (convergeDeployment (inMemory c) h w)).
Proof.
  unfold convergeDeployment.
  run; try (left; reflexivity).
  all: match goal with
       | |- context [convergeService _ ?d ?h ?w] =>
           pose proof (convergeService_services c d h w) as Hs
       end; exact Hs.
Qed.

Lemma convergeConfigMap_services c w :
  serviceFrame c w (worldOf (convergeConfigMap (inMemory c) w)).
Proof.
  unfold convergeConfigMap.
  run; try (left; reflexivity).
  all: match goal with
       | |- context [convergeDeployment _ ?h ?w] =>
           pose proof (convergeDeployment_services c h w) as Hs
       end; exact Hs.
Qed.

Lemma handleDeletion_services c w :
  serviceFrame c w (worldOf (handleDeletion (inMemory c) w)).
Proof.
  unfold handleDeletion.
  case_bool_decide.
  - destruct (controllerutil.ContainsFinalizer _ _); run; left; reflexivity.
  - apply convergeConfigMap_services.
Qed.

Lemma attachFinalizer_services c w :
  serviceFrame c w (worldOf (attachFinalizer c w)).
Proof.
  unfold attachFinalizer.
  destruct (controllerutil.ContainsFinalizer c nginxClusterFinalizer) eqn:Hf; simpl.
  - apply ContainsFinalizer_true in Hf.
    rewrite <- (inMemory_id c Hf) at 2. apply handleDeletion_services.
  - fold (inMemory c). run; try (left; reflexivity).
    all: match goal with
         | |- context [handleDeletion _ ?w] =>
             pose proof (handleDeletion_services c w) as Hs
         end; exact Hs.
Qed.

Lemma Reconcile_services req w :
  match nginxclusters w !! req with
  | Some c => serviceFrame c w (worldOf (Reconcile req w))
  | None => services (worldOf (Reconcile req w)) = services w
  end.
Proof.
  unfold Reconcile.
  destruct (nginxclusters w !! req) as [c|] eqn:Hc.
  - run; try (left; reflexivity).
    pose proof (attachFinalizer_services c (withFaults (tail (faults w)) w)) as Hs.
    exact Hs.
  - run; reflexivity.
Qed.

Lemma Reconcile_keeps_services req w k s :
  services w !! k = Some s -> services (worldOf (Reconcile req w)) !! k = Some s.
Proof.
  intros Hk. pose proof (Reconcile_services req w) as Hs.
  destruct (nginxclusters w !! req) as [c|].
  - destruct Hs as [-> | [Hnone ->]]; [assumption|].
    rewrite lookup_insert_ne; [assumption | congruence].
  - by rewrite Hs.
Qed.

Lemma runPasses_keeps_services ps : ∀ w k s,
  services w !! k = Some s -> services (runPasses ps w) !! k = Some s.
Proof.
  induction ps as [|p ps IH]; intros w k s Hk; simpl; [assumption|].
  apply IH. unfold runPass. by apply Reconcile_keeps_services.
Qed.

(* ===================================================================== *)
(** ** Deletion and absence *)
(* ===================================================================== *)

Lemma fetched_inr req w c :
  fetched req w = inr c -> scheduled (faults w) = None ∧ nginxclusters w !! req = Some c.
Proof.
  unfold fetched. destruct (scheduled (faults w)); [discriminate|].
  destruct (nginxclusters w !! req); [|discriminate]. by intros [= ->].
Qed.

Lemma fetched_NotFound req w :
  fetched req w = inl ErrNotFound ->
  scheduled (faults w) = Some ErrNotFound ∨
  (scheduled (faults w) = None ∧ nginxclusters w !! req = None).
Proof.
  unfold fetched. destruct (scheduled (faults w)) as [e|].
  - intros [= ->]. by left.
  - destruct (nginxclusters w !! req); [discriminate|]. by right.
Qed.

Ltac enter_deletion :=
  unfold Reconcile; run; unfold attachFinalizer;
  match goal with
  | Hf : hasFinalizer ?c, Hm : markedForDeletion ?c |- _ =>
      rewrite (proj2 (ContainsFinalizer_true c) Hf); simpl;
      unfold handleDeletion;
      rewrite (bool_decide_eq_true_2 _ Hm), (proj2 (ContainsFinalizer_true c) Hf)
  end.

Lemma deletion_pass_run req w c :
  fetched req w = inr c -> markedForDeletion c -> hasFinalizer c ->
  let r := Reconcile req w in
  let c' := controllerutil.RemoveFinalizer c nginxClusterFinalizer in
  eventsOf r = [EvGet KNginxCluster req; EvFinalize c; EvUpdate (ObjNginxCluster c')] ∧
  length (filter (λ e, isFinalize e = true) (eventsOf r)) = 1%nat ∧
  ¬ hasFinalizer c' ∧
  (∀ e, scheduled (tail (faults w)) = Some e ->
        outcomeOf r = Done ({| Requeue := false |}, Some e) ∧ sameObjects w (worldOf r)) ∧
  (scheduled (tail (faults w)) = None -> childKey c = req ->
   outcomeOf r = Done ({| Requeue := false |}, None) ∧
   nginxclusters (worldOf r) = <[req := c']> (nginxclusters w) ∧
   configmaps (worldOf r) = configmaps w ∧ deployments (worldOf r) = deployments w ∧
   services (worldOf r) = services w).
Proof.
  intros [Hs Hc]%fetched_inr Hm Hf. simpl.
  assert (Hev : eventsOf (Reconcile req w)
                = [EvGet KNginxCluster req; EvFinalize c;
                   EvUpdate (ObjNginxCluster
                               (controllerutil.RemoveFinalizer c nginxClusterFinalizer))]).
  { enter_deletion.
    run; reflexivity. }
  split; [exact Hev|]. split; [by rewrite Hev|].
  split; [apply RemoveFinalizer_gone|].
  split.
  - intros e He.
    unfold sameObjects. enter_deletion.
    run; simplify_eq; auto.
  - intros He Hk.
    enter_deletion.
    rewrite <- Hk in Hc.
    run. rewrite withStatus_RemoveFinalizer, Hk. auto.
Qed.

Lemma absent_pass_run req w :
  fetched req w = inl ErrNotFound ->
  let r := Reconcile req w in
  outcomeOf r = Done ({| Requeue := false |}, None) ∧
  eventsOf r = [EvGet KNginxCluster req] ∧
  sameObjects w (worldOf r).
Proof.
  intros Hf. unfold Reconcile, sameObjects. simpl.
  destruct (fetched_NotFound _ _ Hf) as [Hs | [Hs Hn]]; run; repeat split; reflexivity.
Qed.

(* ===================================================================== *)
(** ** A pass whose calls all succeed, step by step *)
(* ===================================================================== *)

Lemma triple_eq {A} (x y : outcome A * World * list Event) :
  outcomeOf x = outcomeOf y -> worldOf x = worldOf y -> eventsOf x = eventsOf y -> x = y.
Proof. destruct x as [[? ?] ?], y as [[? ?] ?]. unfold outcomeOf, worldOf, eventsOf. simpl. congruence. Qed.

Lemma world_eq (w w' : World) :
  nginxclusters w = nginxclusters w' -> configmaps w = configmaps w' ->
  deployments w = deployments w' -> services w = services w' ->
  clock w = clock w' -> faults w = faults w' -> w = w'.
Proof. destruct w, w'. simpl. congruence. Qed.

Lemma logged_nil {A} (x : outcome A * World * list Event) : logged [] x = x.
Proof. by destruct x as [[? ?] ?]. Qed.

Lemma logged_logged {A} l1 l2 (x : outcome A * World * list Event) :
  logged l1 (logged l2 x) = logged (l1 ++ l2) x.
Proof. unfold logged, outcomeOf, worldOf, eventsOf. simpl. by rewrite app_assoc. Qed.

Section Quiet.
Variables (req : NamespacedName) (c : nginxv1.NginxCluster).
Hypothesis keyed : childKey c = req.

Local Abbreviation cur := (inMemory c).

(** From the fetch to the ConfigMap step, for a cluster that is not
    being deleted. *)
Lemma Reconcile_enters w :
  faults w = [] -> nginxclusters w !! req = Some c -> ¬ markedForDeletion c ->
  ∃ l, Reconcile req w = logged l (convergeConfigMap cur (withCluster req cur w)) ∧
       Forall (λ e, isEarlyStep e = true) l ∧
       (hasFinalizer c -> l = [EvGet KNginxCluster req]) ∧
       (¬ hasFinalizer c -> l = [EvGet KNginxCluster req; EvUpdate (ObjNginxCluster cur)]).
Proof.
  intros Hq Hc Hm.
  assert (Hdel : ∀ w', handleDeletion cur w' = convergeConfigMap cur w').
  { intros w'. unfold handleDeletion. rewrite inMemory_deletion.
    by rewrite bool_decide_eq_false_2 by (intros Hx; exact (Hm Hx)). }
  destruct (decide (hasFinalizer c)) as [Hf|Hf].
  - exists [EvGet KNginxCluster req]. split; [|split; [by repeat constructor | split; [done | tauto]]].
    apply triple_eq; unfold Reconcile, logged; run; unfold attachFinalizer;
      rewrite (proj2 (ContainsFinalizer_true c) Hf); simpl;
      rewrite <- (inMemory_id c Hf) at 1; rewrite Hdel;
      repeat f_equal; apply world_eq; simpl; rewrite ?Hq; try reflexivity.
    all: rewrite (inMemory_id c Hf); symmetry; by apply insert_id.
  - exists [EvGet KNginxCluster req; EvUpdate (ObjNginxCluster cur)].
    split; [|split; [by repeat constructor | split; [tauto | done]]].
    rewrite <- keyed in Hc |- *.
    apply triple_eq; unfold Reconcile, logged; run; unfold attachFinalizer;
      rewrite (proj2 (ContainsFinalizer_false c) Hf); simpl; fold (inMemory c);
      run; rewrite ?Hdel, ?withStatus_inMemory; simpl;
      repeat f_equal; try (apply world_eq; simpl; rewrite ?Hq; reflexivity).
    all: try (rewrite Hq in *; simpl in *; discriminate).
Qed.

Local Abbreviation H := (fingerprintOf c).

Ltac same_run_with tac :=
  apply triple_eq; unfold logged; run_with tac; simpl;
  repeat f_equal; try (apply world_eq; simpl; try reflexivity).
Ltac same_run := same_run_with idtac.

(** The ConfigMap step. *)
Lemma convergeConfigMap_creates w :
  faults w = [] -> configmaps w !! configMapKey c = None ->
  let cm := configMapForNginxCluster cur H in
  convergeConfigMap cur w
  = logged [EvGet KConfigMap (configMapKey c); EvCreate (ObjConfigMap cm)]
      (convergeDeployment cur H (withTable (<[configMapKey c := cm]> (configmaps w)) w)).
Proof.
  intros Hq Hcm. simpl. unfold convergeConfigMap.
  rewrite inMemory_Spec. fold (configMapKey cur). fold H.
  same_run; by rewrite ?Hq.
Qed.

Lemma convergeConfigMap_settled w cm :
  faults w = [] -> configmaps w !! configMapKey c = Some cm ->
  mapaccess (metav1.Annotations (corev1.ConfigMapMeta cm)) "config-hash" = H ->
  convergeConfigMap cur w
  = logged [EvGet KConfigMap (configMapKey c)] (convergeDeployment cur H w).
Proof.
  intros Hq Hcm Hh. unfold convergeConfigMap.
  rewrite inMemory_Spec. fold (configMapKey cur). fold H.
  same_run; try (by rewrite ?Hq); by destruct w; simpl in *; subst.
Qed.

Lemma convergeConfigMap_updates w cm g a :
  faults w = [] -> configmaps w !! configMapKey c = Some cm ->
  keyOf cm = configMapKey c ->
  mapaccess (metav1.Annotations (corev1.ConfigMapMeta cm)) "config-hash" ≠ H ->
  corev1.Data cm = Some g -> metav1.Annotations (corev1.ConfigMapMeta cm) = Some a ->
  let cm' := updatedConfigMap c cm g a in
  convergeConfigMap cur w
  = logged [EvGet KConfigMap (configMapKey c); EvUpdate (ObjConfigMap cm')]
      (convergeDeployment cur H (withTable (<[configMapKey c := cm']> (configmaps w)) w)).
Proof.
  intros Hq Hcm Hk Hh Hd Ha. simpl. unfold convergeConfigMap.
  rewrite inMemory_Spec. fold (configMapKey cur). fold H.
  assert (Hk' : ∀ x y, keyOf {| corev1.ConfigMapMeta :=
                                  metav1.withAnnotations x (corev1.ConfigMapMeta cm);
                                corev1.Data := y |} = configMapKey c)
    by (intros; exact Hk).
  rewrite Ha in Hh. simpl in Hh.
  same_run_with ltac:(rewrite ?Hk'); try (by rewrite ?Hq); try contradiction.
Qed.

Local Abbreviation M := (nginxv1.Replicas (nginxv1.Spec c)).

(** The Deployment step. *)
Lemma convergeDeployment_creates w :
  faults w = [] -> deployments w !! childKey c = None ->
  let dep := deploymentForNginxCluster cur H in
  convergeDeployment cur H w
  = (Done ({| Requeue := true |}, None),
     withTable (<[childKey c := dep]> (deployments w)) w,
     [EvGet KDeployment (childKey c); EvCreate (ObjDeployment dep)]).
Proof.
  intros Hq Hd. simpl. unfold convergeDeployment. fold (childKey cur).
  same_run; by rewrite ?Hq.
Qed.

Lemma convergeDeployment_resizes w d n :
  faults w = [] -> deployments w !! childKey c = Some d -> keyOf d = childKey c ->
  appsv1.Replicas (appsv1.Spec d) = Some n -> n ≠ M ->
  let d' := appsv1.withReplicas (Some M) d in
  convergeDeployment cur H w
  = (Done ({| Requeue := true |}, None),
     withTable (<[childKey c := d']> (deployments w)) w,
     [EvGet KDeployment (childKey c); EvUpdate (ObjDeployment d')]).
Proof.
  intros Hq Hd Hk Hr Hn. simpl. unfold convergeDeployment. fold (childKey cur).
  rewrite inMemory_Spec.
  assert (Hk' : ∀ x, keyOf (appsv1.withReplicas x d) = childKey c) by (intros; exact Hk).
  same_run_with ltac:(rewrite ?Hk'); try (by rewrite ?Hq); try contradiction.
Qed.

Lemma convergeDeployment_restarts w d a :
  faults w = [] -> deployments w !! childKey c = Some d -> keyOf d = childKey c ->
  appsv1.Replicas (appsv1.Spec d) = Some M ->
  appsv1.templateAnnotations d = Some a ->
  mapaccess (Some a) "config-hash" ≠ H ->
  let d' := restartedDeployment c d a (clock w) in
  convergeDeployment cur H w
  = logged [EvGet KDeployment (childKey c); EvUpdate (ObjDeployment d')]
      (convergeService cur d' H (withTable (<[childKey c := d']> (deployments w)) w)).
Proof.
  intros Hq Hd Hk Hr Ha Hh. simpl. unfold convergeDeployment. fold (childKey cur).
  rewrite inMemory_Spec. simpl in Hh.
  assert (Hk' : ∀ x, keyOf (appsv1.withTemplateAnnotations x d) = childKey c)
    by (intros; exact Hk).
  same_run_with ltac:(rewrite ?Hk'); try (by rewrite ?Hq); try contradiction.
Qed.

Lemma convergeDeployment_settled w d :
  faults w = [] -> deployments w !! childKey c = Some d ->
  appsv1.Replicas (appsv1.Spec d) = Some M ->
  mapaccess (appsv1.templateAnnotations d) "config-hash" = H ->
  convergeDeployment cur H w
  = logged [EvGet KDeployment (childKey c)] (convergeService cur d H w).
Proof.
  intros Hq Hd Hr Hh. unfold convergeDeployment. fold (childKey cur).
  rewrite inMemory_Spec.
  same_run; try (by rewrite ?Hq); try contradiction;
    by destruct w; simpl in *; subst.
Qed.

(** The Service step and the status. *)
Lemma publishStatus_run w d stored :
  faults w = [] -> nginxclusters w !! req = Some stored ->
  let c' := nginxv1.withStatus (publishedStatus c d (clock w)) cur in
  publishStatus cur d H w
  = (Done ({| Requeue := false |}, None),
     withCluster req (nginxv1.withStatus (publishedStatus c d (clock w)) stored) w,
     [EvStatusUpdate c']).
Proof.
  intros Hq Hc. simpl. unfold publishStatus, withCluster.
  assert (Hk' : ∀ x, keyOf (nginxv1.withStatus x cur) = req)
    by (intros; rewrite <- keyed, <- (childKey_inMemory c); reflexivity).
  same_run_with ltac:(rewrite ?Hk'); by rewrite ?Hq.
Qed.

Lemma convergeService_present w d s :
  faults w = [] -> services w !! childKey c = Some s ->
  convergeService cur d H w
  = logged [EvGet KService (childKey c)] (publishStatus cur d H w).
Proof.
  intros Hq Hs. unfold convergeService. fold (childKey cur).
  same_run; try (by rewrite ?Hq); by destruct w; simpl in *; subst.
Qed.

Lemma convergeService_creates w d :
  faults w = [] -> services w !! childKey c = None ->
  let srv := serviceForNginxCluster cur in
  convergeService cur d H w
  = logged [EvGet KService (childKey c); EvCreate (ObjService srv)]
      (publishStatus cur d H (withTable (<[childKey c := srv]> (services w)) w)).
Proof.
  intros Hq Hs. simpl. unfold convergeService. fold (childKey cur).
  same_run; by rewrite ?Hq.
Qed.
End Quiet.

(* ===================================================================== *)
(** ** The properties of the specification *)
(* ===================================================================== *)



(** C9. No pass ever issues an update of a Service. A pass leaves the
    Service table as it is or adds the built Service under an identity
    that was free, so a Service that exists keeps every field, through any
    number of later passes, whatever their clocks and failures. *)
Theorem service_created_once_never_updated :
  (∀ req w s, EvUpdate (ObjService s) ∉ eventsOf (Reconcile req w)) ∧
  (∀ req w c, nginxclusters w !! req = Some c ->
     serviceFrame c w (worldOf (Reconcile req w)) ∧
     ∀ s, EvCreate (ObjService s) ∈ eventsOf (Reconcile req w) ->
          s = serviceForNginxCluster (inMemory c)) ∧
  (∀ ps w k s, services w !! k = Some s -> services (runPasses ps w) !! k = Some s).
Proof.
  split; [|split].
  - intros req w s Hin.
    pose proof (Reconcile_events req w) as Hev.
    destruct (nginxclusters w !! req) as [c|].
    + rewrite Forall_forall in Hev. specialize (Hev _ Hin). inversion Hev.
    + rewrite Hev in Hin. apply list_elem_of_singleton in Hin. discriminate.
  - intros req w c Hc.
    pose proof (Reconcile_events req w) as Hev.
    pose proof (Reconcile_services req w) as Hs.
    rewrite Hc in Hev, Hs. split; [exact Hs|].
    intros s Hin. rewrite Forall_forall in Hev. specialize (Hev _ Hin).
    by inversion Hev.
  - intros ps w k s. apply runPasses_keeps_services.
Qed.

Lemma service_created_once_never_updated_witness :
  services Sample2.withService !! Sample.req = Some Sample2.service ∧
  services (runPasses Sample2.passes Sample2.withService) !! Sample.req
  = Some Sample2.service.
Proof.
  assert (H : services Sample2.withService !! Sample.req = Some Sample2.service)
    by reflexivity.
  split; [exact H|].
  exact (proj2 (proj2 service_created_once_never_updated)
           Sample2.passes Sample2.withService Sample.req Sample2.service H).
Defined.

(** C6 as the code has it. The ConfigMap is named after the cluster with
    the suffix [-nginx-config]; the Deployment and the Service carry the
    cluster's name; all three live in the cluster's namespace; and every
    fetch and every create of a child in a pass is addressed to that same
    derived identity. *)
Theorem child_names :
  (∀ c h,
     keyOf (configMapForNginxCluster c h)
       = (clusterNamespace c, clusterName c +:+ "-nginx-config") ∧
     keyOf (deploymentForNginxCluster c h) = (clusterNamespace c, clusterName c) ∧
     keyOf (serviceForNginxCluster c) = (clusterNamespace c, clusterName c)) ∧
  (∀ req w c, nginxclusters w !! req = Some c ->
     Forall (namedFor c) (eventsOf (Reconcile req w))).
Proof.
  split.
  - intros c h. repeat split; reflexivity.
  - intros req w c Hc.
    pose proof (Reconcile_events req w) as Hev. rewrite Hc in Hev.
    eapply Forall_impl; [exact Hev|].
    intros e He. inversion He; subst; simpl; try exact I;
      rewrite ?keyOf_configMapFor, ?keyOf_deploymentFor, ?keyOf_serviceFor;
      unfold configMapKey, childKey;
      rewrite ?inMemory_name, ?inMemory_namespace; reflexivity.
Qed.

Lemma child_names_witness :
  let c := Sample.cluster [] None 2 "" "" in
  nginxclusters Sample.fresh !! Sample.req = Some c ∧
  Forall (namedFor c) (eventsOf (Reconcile Sample.req Sample.fresh)).
Proof.
  intros c.
  assert (H : nginxclusters Sample.fresh !! Sample.req = Some c) by reflexivity.
  split; [exact H|].
  exact (proj2 child_names Sample.req Sample.fresh c H).
Defined.

(** C6 as it is written fails: for the cluster [web] the ConfigMap is
    looked up and built as [web-nginx-config], not [web-config]. *)
Lemma child_names_counterexample :
  let c := Sample.cluster [] None 2 "" "" in
  metav1.Name (corev1.ConfigMapMeta (configMapForNginxCluster c (fingerprintOf c)))
    ≠ clusterName c +:+ "-config" ∧
  eventsOf (Reconcile Sample.req Sample.fresh) !! 2%nat
    = Some (EvGet KConfigMap ("default", "web-nginx-config")).
Proof.
  split; [discriminate | reflexivity].
Qed.

Lemma configMapFor_fingerprint c h :
  mapaccess (metav1.Annotations (corev1.ConfigMapMeta (configMapForNginxCluster c h)))
    "config-hash" = h.
Proof. unfold configMapForNginxCluster. simpl. by rewrite lookup_singleton_eq. Qed.

Lemma deploymentFor_fingerprint c h :
  mapaccess (appsv1.templateAnnotations (deploymentForNginxCluster c h)) "config-hash" = h.
Proof.
  unfold deploymentForNginxCluster, appsv1.templateAnnotations. simpl.
  by rewrite lookup_singleton_eq.
Qed.

Lemma restartedDeployment_fingerprint c d a t :
  mapaccess (appsv1.templateAnnotations (restartedDeployment c d a t)) "config-hash"
  = fingerprintOf c.
Proof.
  unfold restartedDeployment, appsv1.templateAnnotations. simpl.
  rewrite lookup_insert_ne by discriminate. by rewrite lookup_insert_eq.
Qed.

Lemma restartedDeployment_marker c d a t :
  mapaccess (appsv1.templateAnnotations (restartedDeployment c d a t)) "restartedAt"
  = formatRFC3339 t.
Proof.
  unfold restartedDeployment, appsv1.templateAnnotations. simpl.
  by rewrite lookup_insert_eq.
Qed.

Lemma updatedConfigMap_fingerprint c cm g a :
  mapaccess (metav1.Annotations (corev1.ConfigMapMeta (updatedConfigMap c cm g a)))
    "config-hash" = fingerprintOf c.
Proof. unfold updatedConfigMap. simpl. by rewrite lookup_insert_eq. Qed.

Lemma updatedConfigMap_payload c cm g a :
  mapaccess (corev1.Data (updatedConfigMap c cm g a)) "nginx.conf"
  = nginxv1.NginxConf (nginxv1.Spec c).
Proof. unfold updatedConfigMap. simpl. by rewrite lookup_insert_eq. Qed.

(** C4 as the code has it. The fingerprint is the digest of the spec's
    text as it stands, with no default put in its place: every write of a
    pass that carries a fingerprint (the ConfigMap created or updated, the
    Deployment created or restarted, the status) carries that one, and for
    an empty text it is the digest of the empty string. *)
Theorem fingerprint_of_spec_text :
  (∀ c, fingerprintOf c = calculateConfigHash (nginxv1.NginxConf (nginxv1.Spec c))) ∧
  (∀ req w c, nginxclusters w !! req = Some c ->
     Forall (taggedWith w c) (eventsOf (Reconcile req w))) ∧
  (∀ c, nginxv1.NginxConf (nginxv1.Spec c) = "" -> fingerprintOf c = "e3b0c44298fc1c14").
Proof.
  split; [reflexivity | split].
  - intros req w c Hc.
    pose proof (Reconcile_events req w) as Hev. rewrite Hc in Hev.
    eapply Forall_impl; [exact Hev|].
    intros e He. inversion He; subst; simpl; try exact I.
    + exact (configMapFor_fingerprint (inMemory c) (fingerprintOf c)).
    + exact (updatedConfigMap_fingerprint c cm g a).
    + exact (deploymentFor_fingerprint (inMemory c) (fingerprintOf c)).
    + right. by exists d.
    + left. exact (restartedDeployment_fingerprint c d a (clock w)).
    + reflexivity.
  - intros c Hc. unfold fingerprintOf. rewrite Hc. vm_compute. reflexivity.
Qed.

Lemma fingerprint_of_spec_text_witness :
  let c := Sample.cluster [] None 2 "" "" in
  (nginxclusters Sample.fresh !! Sample.req = Some c ∧
   Forall (taggedWith Sample.fresh c) (eventsOf (Reconcile Sample.req Sample.fresh))) ∧
  (nginxv1.NginxConf (nginxv1.Spec c) = "" ∧ fingerprintOf c = "e3b0c44298fc1c14").
Proof.
  intros c.
  assert (H : nginxclusters Sample.fresh !! Sample.req = Some c) by reflexivity.
  assert (H' : nginxv1.NginxConf (nginxv1.Spec c) = "") by reflexivity.
  split; (split; [assumption|]).
  - exact (proj1 (proj2 fingerprint_of_spec_text) Sample.req Sample.fresh c H).
  - exact (proj2 (proj2 fingerprint_of_spec_text) c H').
Defined.

(** C4 as it is written fails: with an empty text the ConfigMap is created
    under the digest of the empty string, which is not the digest of the
    default configuration. *)
Lemma fingerprint_counterexample :
  let c := Sample.cluster [] None 2 "" "" in
  nginxv1.NginxConf (nginxv1.Spec c) = "" ∧
  eventsOf (Reconcile Sample.req Sample.fresh) !! 3%nat
    = Some (EvCreate (ObjConfigMap
                        (configMapForNginxCluster (inMemory c) "e3b0c44298fc1c14"))) ∧
  calculateConfigHash getDefaultNginxConf = "18272da1eeeb3209" ∧
  fingerprintOf c ≠ calculateConfigHash getDefaultNginxConf.
Proof.
  split; [reflexivity|]. split; [vm_compute; reflexivity|]. split; [vm_compute; reflexivity|].
  intros H. vm_compute in H. discriminate.
Qed.

(** C5 at the failing input. The spec's text is empty and the stored
    ConfigMap carries another fingerprint: the pass overwrites the payload
    with the empty text, where the builder would have stored the default
    configuration. *)
Theorem empty_text_update_stores_empty_payload :
  let r := Reconcile Sample.req Sample3.emptied in
  let key := ("default", "web-nginx-config") in
  let c := Sample.cluster Sample.finalizers None 2 "" "" in
  outcomeOf r = Done ({| Requeue := true |}, None) ∧
  (corev1.Data <$> configmaps (worldOf r) !! key) = Some (Some {[ "nginx.conf" := "" ]}) ∧
  corev1.Data (configMapForNginxCluster c (fingerprintOf c))
    = Some {[ "nginx.conf" := getDefaultNginxConf ]} ∧
  getDefaultNginxConf ≠ "".
Proof.
  split; [vm_compute; reflexivity|]. split; [vm_compute; reflexivity|]. split; [reflexivity | discriminate].
Qed.

(** The parts of C5 that hold: the builders put the defaults in. *)
Lemma configMapFor_default c h :
  nginxv1.NginxConf (nginxv1.Spec c) = "" ->
  corev1.Data (configMapForNginxCluster c h) = Some {[ "nginx.conf" := getDefaultNginxConf ]}.
Proof. intros Hc. unfold configMapForNginxCluster. simpl. by rewrite Hc. Qed.

Lemma deploymentFor_default_image c h :
  nginxv1.Image (nginxv1.Spec c) = "" ->
  corev1.Image <$> corev1.Containers
    (corev1.TemplateSpec (appsv1.Template (appsv1.Spec (deploymentForNginxCluster c h))))
  = ["nginx:latest"].
Proof. intros Hc. unfold deploymentForNginxCluster. simpl. by rewrite Hc. Qed.

(** C7 as the code has it. The finalizer is added, and the update that
    persists it sent, exactly when the fetched cluster lacks it, marked for
    deletion or not: no update of the cluster in a pass carries the
    finalizer except that one. *)
Theorem finalizer_attach (req : NamespacedName) (w : World) (c : nginxv1.NginxCluster) :
  fetched req w = inr c ->
  let r := Reconcile req w in
  (¬ hasFinalizer c ->
     hasFinalizer (inMemory c) ∧
     ∃ l, eventsOf r
          = EvGet KNginxCluster req :: EvUpdate (ObjNginxCluster (inMemory c)) :: l) ∧
  (∀ c', EvUpdate (ObjNginxCluster c') ∈ eventsOf r -> hasFinalizer c' ->
         ¬ hasFinalizer c ∧ c' = inMemory c).
Proof.
  intros [Hs Hc]%fetched_inr. simpl. split.
  - intros Hf. split; [apply inMemory_hasFinalizer|].
    unfold Reconcile. run. unfold attachFinalizer.
    rewrite (proj2 (ContainsFinalizer_false c) Hf). simpl. fold (inMemory c).
    run; eauto.
  - intros c' Hin Hf'.
    pose proof (Reconcile_events req w) as Hev. rewrite Hc in Hev.
    rewrite Forall_forall in Hev. specialize (Hev _ Hin).
    inversion Hev; subst.
    + by split.
    + exfalso. by apply (RemoveFinalizer_gone (inMemory c)).
Qed.

Lemma finalizer_attach_witness :
  let c := Sample.cluster [] None 2 "" "" in
  fetched Sample.req Sample.fresh = inr c ∧ ¬ hasFinalizer c ∧
  ∃ l, eventsOf (Reconcile Sample.req Sample.fresh)
       = EvGet KNginxCluster Sample.req :: EvUpdate (ObjNginxCluster (inMemory c)) :: l.
Proof.
  intros c.
  assert (H : fetched Sample.req Sample.fresh = inr c) by reflexivity.
  assert (Hf : ¬ hasFinalizer c) by (apply not_elem_of_nil).
  split; [exact H | split; [exact Hf |]].
  exact (proj2 (proj1 (finalizer_attach Sample.req Sample.fresh c H) Hf)).
Defined.

(** C7 as it is written fails: a cluster already marked for deletion that
    lacks the finalizer gets it added, and the update is sent. *)
Lemma finalizer_attach_counterexample :
  let c := Sample.cluster ["example.com/other"] (Some 1761865000) 2 "" "" in
  fetched Sample.req Sample.deletingForeign = inr c ∧
  markedForDeletion c ∧ ¬ hasFinalizer c ∧
  eventsOf (Reconcile Sample.req Sample.deletingForeign) !! 1%nat
    = Some (EvUpdate (ObjNginxCluster
              (Sample.cluster ["example.com/other"; nginxClusterFinalizer]
                 (Some 1761865000) 2 "" ""))).
Proof.
  split; [reflexivity|]. split; [discriminate|]. split; [|reflexivity].
  unfold hasFinalizer. simpl. rewrite list_elem_of_singleton. discriminate.
Qed.

(* ===================================================================== *)
(** ** Panics *)
(* ===================================================================== *)









(* ===================================================================== *)
(** ** The replica count *)
(* ===================================================================== *)

Lemma replicasPinned_inMemory c w : replicasPinned (inMemory c) w <-> replicasPinned c w.
Proof. unfold replicasPinned. by rewrite childKey_inMemory, inMemory_Spec. Qed.

Lemma publishStatus_deployments c d h w :
  deployments (worldOf (publishStatus c d h w)) = deployments w.
Proof. unfold publishStatus. run; reflexivity. Qed.

Lemma convergeService_deployments c d h w :
  deployments (worldOf (convergeService c d h w)) = deployments w.
Proof. unfold convergeService. run; rewrite ?publishStatus_deployments; reflexivity. Qed.

Lemma convergeDeployment_pinned c h w :
  replicasPinned c w -> replicasPinned c (worldOf (convergeDeployment (inMemory c) h w)).
Proof.
  intros (d & Hd & Hr). unfold replicasPinned, convergeDeployment.
  fold (childKey (inMemory c)). rewrite inMemory_Spec.
  run; rewrite ?convergeService_deployments; simpl; simplify_eq;
    try (by exists d); try contradiction.
  all: rewrite lookup_insert; case_decide;
    [eexists; split; [reflexivity | simpl; assumption] | by exists d].
Qed.

Lemma convergeConfigMap_pinned c w :
  replicasPinned c w -> replicasPinned c (worldOf (convergeConfigMap (inMemory c) w)).
Proof.
  intros Hp. unfold convergeConfigMap.
  run; try exact Hp; by apply convergeDeployment_pinned.
Qed.

Lemma handleDeletion_pinned c w :
  replicasPinned c w -> replicasPinned c (worldOf (handleDeletion (inMemory c) w)).
Proof.
  intros Hp. unfold handleDeletion. case_bool_decide.
  - destruct (controllerutil.ContainsFinalizer _ _); run; exact Hp.
  - by apply convergeConfigMap_pinned.
Qed.

Lemma attachFinalizer_pinned c w :
  replicasPinned c w -> replicasPinned c (worldOf (attachFinalizer c w)).
Proof.
  intros Hp. unfold attachFinalizer.
  destruct (controllerutil.ContainsFinalizer c nginxClusterFinalizer) eqn:Hf; simpl.
  - apply ContainsFinalizer_true in Hf.
    rewrite <- (inMemory_id c Hf) at 2. by apply handleDeletion_pinned.
  - fold (inMemory c). run; try exact Hp; by apply handleDeletion_pinned.
Qed.

Lemma Reconcile_pinned req w c :
  nginxclusters w !! req = Some c ->
  replicasPinned c w -> replicasPinned c (worldOf (Reconcile req w)).
Proof.
  intros Hc Hp. unfold Reconcile.
  run; try exact Hp. by apply attachFinalizer_pinned.
Qed.

(** No update of the Deployment changes a replica count that agrees with
    the spec. *)
Lemma Reconcile_pinned_updates req w c d' :
  nginxclusters w !! req = Some c -> replicasPinned c w ->
  EvUpdate (ObjDeployment d') ∈ eventsOf (Reconcile req w) ->
  appsv1.Replicas (appsv1.Spec d') = Some (nginxv1.Replicas (nginxv1.Spec c)).
Proof.
  intros Hc (d & Hd & Hr) Hin.
  pose proof (Reconcile_events req w) as Hev. rewrite Hc in Hev.
  rewrite Forall_forall in Hev. specialize (Hev _ Hin).
  inversion Hev; subst; simplify_eq; simpl; congruence.
Qed.

(* ===================================================================== *)
(** ** Convergence *)
(* ===================================================================== *)

Lemma withTable_same_configmaps w : withTable (T := corev1.ConfigMap) (configmaps w) w = w.
Proof. by destruct w. Qed.

(** Whatever the ConfigMap step finds, when no call fails and the
    ConfigMap is well formed it hands over to the Deployment step with a
    ConfigMap in place under the fingerprint, the other tables as they
    were. *)
Lemma convergeConfigMap_passes c w :
  faults w = [] -> wellKeyed (T := corev1.ConfigMap) w -> ChildrenWellFormed c w ->
  ∃ l cms cm',
    convergeConfigMap (inMemory c) w
    = logged l (convergeDeployment (inMemory c) (fingerprintOf c)
                  (withTable (T := corev1.ConfigMap) cms w)) ∧
    Forall (λ e, isEarlyStep e = true) l ∧
    cms !! configMapKey c = Some cm' ∧
    mapaccess (metav1.Annotations (corev1.ConfigMapMeta cm')) "config-hash"
    = fingerprintOf c.
Proof.
  intros Hq Hk [Hwf _].
  destruct (configmaps w !! configMapKey c) as [cm|] eqn:Hcm.
  all: try specialize (Hwf _ eq_refl).
  - destruct (decide (mapaccess (metav1.Annotations (corev1.ConfigMapMeta cm)) "config-hash"
                      = fingerprintOf c)) as [Hh|Hh].
    + exists [EvGet KConfigMap (configMapKey c)], (configmaps w), cm.
      rewrite withTable_same_configmaps.
      split; [by apply (convergeConfigMap_settled c w cm)|].
      split; [by repeat constructor|]. by split.
    + destruct (Hwf Hh) as [Hd Ha].
      destruct (corev1.Data cm) as [g|] eqn:Hg; [|done].
      destruct (metav1.Annotations (corev1.ConfigMapMeta cm)) as [a|] eqn:Han; [|done].
      eexists _, _, _.
      split.
      { apply (convergeConfigMap_updates c w cm g a); auto;
          first [by apply Hk | by rewrite Han]. }
      split; [by repeat constructor|]. split; [apply lookup_insert_eq|].
      apply updatedConfigMap_fingerprint.
  - eexists _, _, _.
    split; [by apply convergeConfigMap_creates|].
    split; [by repeat constructor|]. split; [apply lookup_insert_eq|].
    apply configMapFor_fingerprint.
Qed.

Lemma WellKeyed_cluster w req c :
  WellKeyed w -> nginxclusters w !! req = Some c -> childKey c = req.
Proof. intros (Hk & _) Hc. exact (Hk req c Hc). Qed.

Lemma WellKeyed_deployment w k d :
  WellKeyed w -> deployments w !! k = Some d -> keyOf d = k.
Proof. intros (_ & _ & Hk & _) Hd. exact (Hk k d Hd). Qed.

Lemma WellKeyed_configMap w k cm :
  WellKeyed w -> configmaps w !! k = Some cm -> keyOf cm = k.
Proof. intros (_ & Hk & _) Hd. exact (Hk k cm Hd). Qed.

(** The sample worlds are well keyed. *)
Ltac solve_WellKeyed :=
  repeat split; intros ? ? Hk; simpl in Hk;
  first [ apply lookup_singleton_Some in Hk as [<- <-]; reflexivity
        | rewrite lookup_empty in Hk; discriminate ].

(** C3. An existing Deployment with N replicas and a spec asking for
    M ≠ N: the pass sends the update that sets the count to M, returns
    "requeue", and ends there, with nothing of the later steps done (the
    calls before it are those of the cluster and ConfigMap steps; the
    Service table is untouched). Every later pass, whatever its clock and
    failures, leaves the count at M and sends no update with another
    count. *)
Theorem replica_change_converges (req : NamespacedName) (w : World)
    (c : nginxv1.NginxCluster) (d : appsv1.Deployment) (n : Z) :
  faults w = [] -> WellKeyed w ->
  nginxclusters w !! req = Some c -> ¬ markedForDeletion c ->
  ChildrenWellFormed c w ->
  deployments w !! childKey c = Some d ->
  appsv1.Replicas (appsv1.Spec d) = Some n ->
  n ≠ nginxv1.Replicas (nginxv1.Spec c) ->
  let r := Reconcile req w in
  let d' := appsv1.withReplicas (Some (nginxv1.Replicas (nginxv1.Spec c))) d in
  outcomeOf r = Done ({| Requeue := true |}, None) ∧
  deployments (worldOf r) = <[childKey c := d']> (deployments w) ∧
  services (worldOf r) = services w ∧
  (∃ l, eventsOf r = l ++ [EvGet KDeployment (childKey c); EvUpdate (ObjDeployment d')] ∧
        Forall (λ e, isEarlyStep e = true) l) ∧
  ∀ t f,
    let r2 := runPass {| passRequest := req; passClock := t; passFaults := f |} (worldOf r) in
    replicasPinned c (worldOf r2) ∧
    ∀ d2, EvUpdate (ObjDeployment d2) ∈ eventsOf r2 ->
          appsv1.Replicas (appsv1.Spec d2) = Some (nginxv1.Replicas (nginxv1.Spec c)).
Proof.
  intros Hq Hwk Hc Hm Hwf Hd Hr Hn. simpl.
  pose proof (WellKeyed_cluster _ _ _ Hwk Hc) as keyed.
  pose proof (WellKeyed_deployment _ _ _ Hwk Hd) as Hkd.
  destruct (Reconcile_enters req c keyed w Hq Hc Hm) as (l1 & E1 & F1 & _).
  destruct (convergeConfigMap_passes c (withCluster req (inMemory c) w))
    as (l2 & cms & cm' & E2 & F2 & _);
    [exact Hq | exact (proj1 (proj2 Hwk)) | exact Hwf |].
  pose proof (convergeDeployment_resizes c
                (withTable (T := corev1.ConfigMap) cms (withCluster req (inMemory c) w))
                d n Hq Hd Hkd Hr Hn) as E3.
  cbv zeta in E3. rewrite E1, E2, E3. unfold logged, outcomeOf, worldOf, eventsOf. simpl.
  split; [reflexivity|]. split; [reflexivity|]. split; [reflexivity|]. split.
  - exists (l1 ++ l2). split; [by rewrite app_assoc | by apply Forall_app].
  - intros t f.
    match goal with
    | |- context [runPass ?p ?W] => set (W1 := W); set (p1 := p)
    end.
    assert (Hc1 : nginxclusters (withClock t (withFaults f W1)) !! req = Some (inMemory c))
      by apply lookup_insert_eq.
    assert (Hp : replicasPinned (inMemory c) (withClock t (withFaults f W1))).
    { apply replicasPinned_inMemory. eexists. split; [apply lookup_insert_eq | reflexivity]. }
    split.
    + apply replicasPinned_inMemory. exact (Reconcile_pinned _ _ _ Hc1 Hp).
    + intros d2 Hin. rewrite <- (inMemory_Spec c).
      exact (Reconcile_pinned_updates _ _ _ d2 Hc1 Hp Hin).
Qed.

Lemma replica_change_converges_witness :
  let c := Sample4.live in
  let d := Sample.deployment (Some 3)
             (Some {[ "config-hash" := fingerprintOf Sample4.live ]}) in
  outcomeOf (Reconcile Sample.req Sample5.resized) = Done ({| Requeue := true |}, None) ∧
  deployments (worldOf (Reconcile Sample.req Sample5.resized))
  = <[childKey c := appsv1.withReplicas (Some 2) d]> (deployments Sample5.resized).
Proof.
  intros c d.
  assert (Hq : faults Sample5.resized = []) by reflexivity.
  assert (Hwk : WellKeyed Sample5.resized).
  { solve_WellKeyed. }
  assert (Hc : nginxclusters Sample5.resized !! Sample.req = Some c) by reflexivity.
  assert (Hm : ¬ markedForDeletion c) by (intros Hx; by apply Hx).
  assert (Hwf : ChildrenWellFormed c Sample5.resized).
  { split.
    - intros cm Hcm Hh. exfalso. apply Hh.
      assert (cm = Sample.configMap (fingerprintOf Sample4.live) "") as ->
        by (vm_compute in Hcm; by injection Hcm).
      by vm_compute.
    - intros d0 Hd0.
      assert (d0 = d) as -> by (vm_compute in Hd0; by injection Hd0).
      split; discriminate. }
  assert (Hd : deployments Sample5.resized !! childKey c = Some d) by reflexivity.
  assert (Hr : appsv1.Replicas (appsv1.Spec d) = Some 3) by reflexivity.
  assert (Hn : 3 ≠ nginxv1.Replicas (nginxv1.Spec c)) by discriminate.
  pose proof (replica_change_converges Sample.req Sample5.resized c d 3
                Hq Hwk Hc Hm Hwf Hd Hr Hn) as H.
  exact (conj (proj1 H) (proj1 (proj2 H))).
Defined.

(** C1 as the code has it. The ConfigMap is under a fingerprint F1, the
    spec's text hashes to F2 ≠ F1, the Deployment has the replica count of
    the spec, and its pod template is not under F2 yet: the pass, when no
    call fails, sends both updates, the ConfigMap's first, and leaves the
    ConfigMap with the spec's text under F2 and the pod template under F2
    with the restart marker set to the time of the pass. *)
Theorem config_change_propagates (req : NamespacedName) (w : World)
    (c : nginxv1.NginxCluster) (cm : corev1.ConfigMap) (g a : gmap string string)
    (d : appsv1.Deployment) (ta : gmap string string) :
  faults w = [] -> WellKeyed w ->
  nginxclusters w !! req = Some c -> ¬ markedForDeletion c ->
  configmaps w !! configMapKey c = Some cm ->
  corev1.Data cm = Some g -> metav1.Annotations (corev1.ConfigMapMeta cm) = Some a ->
  mapaccess (Some a) "config-hash" ≠ fingerprintOf c ->
  deployments w !! childKey c = Some d ->
  appsv1.Replicas (appsv1.Spec d) = Some (nginxv1.Replicas (nginxv1.Spec c)) ->
  appsv1.templateAnnotations d = Some ta ->
  mapaccess (Some ta) "config-hash" ≠ fingerprintOf c ->
  let r := Reconcile req w in
  let cm' := updatedConfigMap c cm g a in
  let d' := restartedDeployment c d ta (clock w) in
  outcomeOf r = Done ({| Requeue := false |}, None) ∧
  configmaps (worldOf r) = <[configMapKey c := cm']> (configmaps w) ∧
  deployments (worldOf r) = <[childKey c := d']> (deployments w) ∧
  (∃ l1 l2 l3, eventsOf r
               = l1 ++ EvUpdate (ObjConfigMap cm') :: l2 ++ EvUpdate (ObjDeployment d') :: l3) ∧
  mapaccess (metav1.Annotations (corev1.ConfigMapMeta cm')) "config-hash" = fingerprintOf c ∧
  mapaccess (corev1.Data cm') "nginx.conf" = nginxv1.NginxConf (nginxv1.Spec c) ∧
  mapaccess (appsv1.templateAnnotations d') "config-hash" = fingerprintOf c ∧
  mapaccess (appsv1.templateAnnotations d') "restartedAt" = formatRFC3339 (clock w).
Proof.
  intros Hq Hwk Hc Hm Hcm Hg Ha Hh Hd Hr Hta Hth. simpl.
  pose proof (WellKeyed_cluster _ _ _ Hwk Hc) as keyed.
  pose proof (WellKeyed_deployment _ _ _ Hwk Hd) as Hkd.
  pose proof (WellKeyed_configMap _ _ _ Hwk Hcm) as Hkc.
  destruct (Reconcile_enters req c keyed w Hq Hc Hm) as (l1 & E1 & _).
  assert (Hh' : mapaccess (metav1.Annotations (corev1.ConfigMapMeta cm)) "config-hash"
                ≠ fingerprintOf c) by (by rewrite Ha).
  pose proof (convergeConfigMap_updates c (withCluster req (inMemory c) w) cm g a
                Hq Hcm Hkc Hh' Hg Ha) as E2.
  cbv zeta in E2.
  set (w2 := withTable (<[configMapKey c := updatedConfigMap c cm g a]>
                          (configmaps (withCluster req (inMemory c) w)))
               (withCluster req (inMemory c) w)) in E2.
  pose proof (convergeDeployment_restarts c w2 d ta Hq Hd Hkd Hr Hta Hth) as E3.
  cbv zeta in E3.
  set (d' := restartedDeployment c d ta (clock w2)) in E3.
  set (w3 := withTable (<[childKey c := d']> (deployments w2)) w2) in E3.
  assert (Hst : nginxclusters w3 !! req = Some (inMemory c)) by apply lookup_insert_eq.
  assert (E4 : ∃ l w4, convergeService (inMemory c) d' (fingerprintOf c) w3
                       = logged l (publishStatus (inMemory c) d' (fingerprintOf c) w4) ∧
                       faults w4 = [] ∧ nginxclusters w4 !! req = Some (inMemory c) ∧
                       configmaps w4 = configmaps w3 ∧ deployments w4 = deployments w3).
  { destruct (services w3 !! childKey c) as [s|] eqn:Hs.
    - eexists _, w3. split; [by apply (convergeService_present c w3 d' s)|]. by repeat split.
    - eexists _, _. split; [by apply (convergeService_creates c w3 d')|]. by repeat split. }
  destruct E4 as (l4 & w4 & E4 & Hq4 & Hst4 & Hcm4 & Hd4).
  pose proof (publishStatus_run req c keyed w4 d' (inMemory c) Hq4 Hst4) as E5.
  cbv zeta in E5.
  rewrite E1, E2, E3, E4, E5. unfold logged, outcomeOf, worldOf, eventsOf. simpl.
  split; [reflexivity|]. split; [by rewrite Hcm4|]. split; [by rewrite Hd4|]. split.
  - exists (l1 ++ [EvGet KConfigMap (configMapKey c)]),
      [EvGet KDeployment (childKey c)], (l4 ++ [EvStatusUpdate
         (nginxv1.withStatus (publishedStatus c d' (clock w4)) (inMemory c))]).
    by rewrite <- !app_assoc.
  - split; [exact (updatedConfigMap_fingerprint c cm g a)|].
    split; [exact (updatedConfigMap_payload c cm g a)|].
    split; [exact (restartedDeployment_fingerprint c d ta (clock w))
           | exact (restartedDeployment_marker c d ta (clock w))].
Qed.

Lemma config_change_propagates_witness :
  let w := Sample6.configChanged in
  let c := Sample6.changed in
  let old := calculateConfigHash Sample6.oldText in
  let d := Sample.deployment (Some 2) (Some {[ "config-hash" := old ]}) in
  outcomeOf (Reconcile Sample.req w) = Done ({| Requeue := false |}, None) ∧
  deployments (worldOf (Reconcile Sample.req w))
  = <[childKey c := restartedDeployment c d {[ "config-hash" := old ]} (clock w)]>
      (deployments w).
Proof.
  intros w c old d.
  assert (Hq : faults w = []) by reflexivity.
  assert (Hwk : WellKeyed w) by solve_WellKeyed.
  assert (Hc : nginxclusters w !! Sample.req = Some c) by reflexivity.
  assert (Hm : ¬ markedForDeletion c) by (intros Hx; by apply Hx).
  assert (Hcm : configmaps w !! configMapKey c = Some (Sample.configMap old Sample6.oldText))
    by reflexivity.
  assert (Hg : corev1.Data (Sample.configMap old Sample6.oldText)
               = Some {[ "nginx.conf" := Sample6.oldText ]}) by reflexivity.
  assert (Ha : metav1.Annotations (corev1.ConfigMapMeta (Sample.configMap old Sample6.oldText))
               = Some {[ "config-hash" := old ]}) by reflexivity.
  assert (Hh : mapaccess (Some {[ "config-hash" := old ]}) "config-hash" ≠ fingerprintOf c)
    by (intros Hx; vm_compute in Hx; discriminate).
  assert (Hd : deployments w !! childKey c = Some d) by reflexivity.
  assert (Hr : appsv1.Replicas (appsv1.Spec d) = Some (nginxv1.Replicas (nginxv1.Spec c)))
    by reflexivity.
  assert (Hta : appsv1.templateAnnotations d = Some {[ "config-hash" := old ]}) by reflexivity.
  pose proof (config_change_propagates Sample.req w c _ _ _ d _
                Hq Hwk Hc Hm Hcm Hg Ha Hh Hd Hr Hta Hh) as H.
  exact (conj (proj1 H) (proj1 (proj2 (proj2 H)))).
Defined.

(** C1 as it is written fails. The ConfigMap is under the old fingerprint
    and the Deployment has the replica count of the spec, but the pod
    template carries the new fingerprint already: the pass updates the
    ConfigMap and leaves the Deployment as it is, with no restart marker
    and no update sent. *)
Lemma config_change_counterexample :
  let w := Sample6.templateAhead in
  let c := Sample6.changed in
  let r := Reconcile Sample.req w in
  let hashOf (cm : corev1.ConfigMap) :=
    mapaccess (metav1.Annotations (corev1.ConfigMapMeta cm)) "config-hash" in
  (∃ cm, configmaps w !! configMapKey c = Some cm ∧ hashOf cm ≠ fingerprintOf c) ∧
  (∃ d, deployments w !! childKey c = Some d ∧
        appsv1.Replicas (appsv1.Spec d) = Some (nginxv1.Replicas (nginxv1.Spec c))) ∧
  outcomeOf r = Done ({| Requeue := false |}, None) ∧
  (hashOf <$> configmaps (worldOf r) !! configMapKey c) = Some (fingerprintOf c) ∧
  deployments (worldOf r) !! childKey c = deployments w !! childKey c ∧
  (appsv1.templateAnnotations <$> deployments (worldOf r) !! childKey c)
  = Some (Some {[ "config-hash" := fingerprintOf c ]}) ∧
  filter (λ e, isDeploymentUpdate e = true) (eventsOf r) = [].
Proof.
  intros w c r hashOf. split.
  { eexists. split; [reflexivity|]. intros Hx. vm_compute in Hx. discriminate. }
  split.
  { eexists. split; reflexivity. }
  split; [vm_compute; reflexivity|]. split; [vm_compute; reflexivity|].
  split; [vm_compute; reflexivity|]. split; vm_compute; reflexivity.
Qed.

(* ===================================================================== *)
(** ** Two passes in a row *)
(* ===================================================================== *)

Lemma outcomeOf_logged {A} l (x : outcome A * World * list Event) :
  outcomeOf (logged l x) = outcomeOf x.
Proof. reflexivity. Qed.

Lemma worldOf_logged {A} l (x : outcome A * World * list Event) :
  worldOf (logged l x) = worldOf x.
Proof. reflexivity. Qed.

Lemma eventsOf_logged {A} l (x : outcome A * World * list Event) :
  eventsOf (logged l x) = l ++ eventsOf x.
Proof. reflexivity. Qed.

Lemma convergeConfigMap_panics c w cm :
  faults w = [] -> configmaps w !! configMapKey c = Some cm ->
  mapaccess (metav1.Annotations (corev1.ConfigMapMeta cm)) "config-hash" ≠ fingerprintOf c ->
  corev1.Data cm = None ∨ metav1.Annotations (corev1.ConfigMapMeta cm) = None ->
  outcomeOf (convergeConfigMap (inMemory c) w) = Panicked.
Proof.
  intros Hq Hcm Hh Hnil. unfold convergeConfigMap.
  rewrite inMemory_Spec. fold (configMapKey (inMemory c)). fold (fingerprintOf c).
  destruct Hnil as [Hn|Hn]; run; try reflexivity; try contradiction.
  all: exfalso; apply Hh; unfold mapaccess;
    repeat match goal with
           | He : metav1.Annotations _ = _ |- _ => rewrite He
           end; by apply dec_stable.
Qed.

Lemma convergeDeployment_panics c w d :
  faults w = [] -> deployments w !! childKey c = Some d ->
  appsv1.Replicas (appsv1.Spec d) = None ∨
  (appsv1.Replicas (appsv1.Spec d) = Some (nginxv1.Replicas (nginxv1.Spec c)) ∧
   appsv1.templateAnnotations d = None) ->
  outcomeOf (convergeDeployment (inMemory c) (fingerprintOf c) w) = Panicked.
Proof.
  intros Hq Hd Hnil. unfold convergeDeployment. fold (childKey (inMemory c)).
  rewrite inMemory_Spec.
  destruct Hnil as [Hn|[Hr Hn]]; run; try reflexivity; try contradiction.
  all: exfalso; by apply (fingerprint_nonempty c); symmetry; apply dec_stable.
Qed.

Lemma publishedStatus_withStatus s c d t :
  publishedStatus (nginxv1.withStatus s c) d t = publishedStatus c d t.
Proof. reflexivity. Qed.

Lemma publishedStatus_inMemory c d t :
  publishedStatus (inMemory c) d t = publishedStatus c d t.
Proof. unfold publishedStatus. by rewrite inMemory_fingerprint. Qed.

Section Passes.
Variables (req : NamespacedName) (c : nginxv1.NginxCluster).
Hypothesis keyed : childKey c = req.

Local Abbreviation cur := (inMemory c).
Local Abbreviation H := (fingerprintOf c).
Local Abbreviation M := (nginxv1.Replicas (nginxv1.Spec c)).

(** The Service step hands over to the status step with a Service in
    place. *)
Lemma convergeService_passes w d :
  faults w = [] ->
  ∃ l svcs, convergeService cur d H w
            = logged l (publishStatus cur d H (withTable (T := corev1.Service) svcs w)) ∧
            is_Some (svcs !! childKey c) ∧
            (∀ s, services w !! childKey c = Some s ->
                  svcs = services w ∧ l = [EvGet KService (childKey c)]).
Proof.
  intros Hq. destruct (services w !! childKey c) as [s|] eqn:Hs.
  - exists [EvGet KService (childKey c)], (services w).
    replace (withTable (services w) w) with w by (by destruct w).
    split; [by apply (convergeService_present c w d s)|].
    split; [by rewrite Hs | done].
  - eexists _, _. split; [by apply (convergeService_creates c w d)|].
    split; [by rewrite lookup_insert_eq | discriminate].
Qed.

(** From the status step back to the Service step: a pass that gets to
    the Service step with the cluster, a ConfigMap and a Deployment in
    agreement with the spec ends converged. *)
Lemma convergeService_converges w cm d :
  faults w = [] -> nginxclusters w !! req = Some cur -> ¬ markedForDeletion c ->
  configmaps w !! configMapKey c = Some cm ->
  mapaccess (metav1.Annotations (corev1.ConfigMapMeta cm)) "config-hash" = H ->
  deployments w !! childKey c = Some d ->
  appsv1.Replicas (appsv1.Spec d) = Some M ->
  mapaccess (appsv1.templateAnnotations d) "config-hash" = H ->
  Converged req (worldOf (convergeService cur d H w)).
Proof.
  intros Hq Hst Hm Hcm Hh Hd Hr Hth.
  destruct (convergeService_passes w d Hq) as (l & svcs & E & [s Hs] & _).
  rewrite E, worldOf_logged.
  assert (Hq' : faults (withTable (T := corev1.Service) svcs w) = []) by exact Hq.
  assert (Hst' : nginxclusters (withTable (T := corev1.Service) svcs w) !! req = Some cur)
    by exact Hst.
  rewrite (publishStatus_run req c keyed _ d cur Hq' Hst').
  unfold worldOf, withCluster. simpl.
  exists (nginxv1.withStatus (publishedStatus c d (clock w)) cur), cm, d, s, (clock w).
  split; [apply lookup_insert_eq|].
  split; [by rewrite <- keyed, <- (childKey_inMemory c)|].
  split; [apply inMemory_hasFinalizer|].
  split; [unfold markedForDeletion; simpl; by rewrite inMemory_deletion|].
  change (configMapKey (nginxv1.withStatus (publishedStatus c d (clock w)) cur))
    with (configMapKey cur).
  change (childKey (nginxv1.withStatus (publishedStatus c d (clock w)) cur))
    with (childKey cur).
  change (fingerprintOf (nginxv1.withStatus (publishedStatus c d (clock w)) cur))
    with (fingerprintOf cur).
  rewrite configMapKey_inMemory, childKey_inMemory, inMemory_fingerprint.
  simpl. rewrite inMemory_Spec.
  repeat split; try assumption.
  by rewrite publishedStatus_withStatus, publishedStatus_inMemory.
Qed.
End Passes.

Section Passes2.
Variables (req : NamespacedName) (c : nginxv1.NginxCluster).
Hypothesis keyed : childKey c = req.
Hypothesis live : ¬ markedForDeletion c.

Local Abbreviation cur := (inMemory c).
Local Abbreviation H := (fingerprintOf c).
Local Abbreviation M := (nginxv1.Replicas (nginxv1.Spec c)).
Local Abbreviation finished := (Done ({| Requeue := false |}, @None error)).

Lemma convergeDeployment_converges w cm :
  faults w = [] -> wellKeyed (T := appsv1.Deployment) w ->
  nginxclusters w !! req = Some cur ->
  configmaps w !! configMapKey c = Some cm ->
  mapaccess (metav1.Annotations (corev1.ConfigMapMeta cm)) "config-hash" = H ->
  outcomeOf (convergeDeployment cur H w) = finished ->
  Converged req (worldOf (convergeDeployment cur H w)).
Proof.
  intros Hq Hk Hst Hcm Hh Hout.
  destruct (deployments w !! childKey c) as [d|] eqn:Hd.
  2:{ rewrite (convergeDeployment_creates c w Hq Hd) in Hout. discriminate. }
  pose proof (Hk _ _ Hd) as Hkd.
  destruct (appsv1.Replicas (appsv1.Spec d)) as [n|] eqn:Hr.
  2:{ rewrite (convergeDeployment_panics c w d Hq Hd (or_introl Hr)) in Hout.
      discriminate. }
  destruct (decide (n = M)) as [->|Hn].
  2:{ rewrite (convergeDeployment_resizes c w d n Hq Hd Hkd Hr Hn) in Hout.
      discriminate. }
  destruct (appsv1.templateAnnotations d) as [ta|] eqn:Hta.
  2:{ rewrite (convergeDeployment_panics c w d Hq Hd (or_intror (conj Hr Hta))) in Hout.
      discriminate. }
  destruct (decide (mapaccess (Some ta) "config-hash" = H)) as [Hth|Hth].
  - rewrite <- Hta in Hth.
    rewrite (convergeDeployment_settled c w d Hq Hd Hr Hth), worldOf_logged.
    by apply (convergeService_converges req c keyed w cm d).
  - rewrite (convergeDeployment_restarts c w d ta Hq Hd Hkd Hr Hta Hth), worldOf_logged.
    apply (convergeService_converges req c keyed _ cm); try assumption.
    + apply lookup_insert_eq.
    + exact (restartedDeployment_fingerprint c d ta (clock w)).
Qed.

Lemma convergeConfigMap_converges w :
  faults w = [] -> WellKeyed w ->
  nginxclusters w !! req = Some cur ->
  outcomeOf (convergeConfigMap cur w) = finished ->
  Converged req (worldOf (convergeConfigMap cur w)).
Proof.
  intros Hq Hwk Hst Hout.
  pose proof (proj1 (proj2 (proj2 Hwk))) as Hkd.
  destruct (configmaps w !! configMapKey c) as [cm|] eqn:Hcm.
  - destruct (decide (mapaccess (metav1.Annotations (corev1.ConfigMapMeta cm))
                        "config-hash" = H)) as [Hh|Hh].
    + rewrite (convergeConfigMap_settled c w cm Hq Hcm Hh) in Hout |- *.
      rewrite outcomeOf_logged in Hout. rewrite worldOf_logged.
      by apply (convergeDeployment_converges w cm).
    + destruct (corev1.Data cm) as [g|] eqn:Hg.
      2:{ rewrite (convergeConfigMap_panics c w cm Hq Hcm Hh (or_introl Hg)) in Hout.
          discriminate. }
      destruct (metav1.Annotations (corev1.ConfigMapMeta cm)) as [a|] eqn:Ha.
      2:{ rewrite (convergeConfigMap_panics c w cm Hq Hcm) in Hout;
            [discriminate | by rewrite Ha | by right]. }
      assert (Hh' : mapaccess (metav1.Annotations (corev1.ConfigMapMeta cm)) "config-hash"
                    ≠ H) by (by rewrite Ha).
      pose proof (convergeConfigMap_updates c w cm g a Hq Hcm
                    (WellKeyed_configMap _ _ _ Hwk Hcm) Hh' Hg Ha) as E.
      cbv zeta in E. rewrite E in Hout |- *.
      rewrite outcomeOf_logged in Hout. rewrite worldOf_logged.
      apply (convergeDeployment_converges _ (updatedConfigMap c cm g a)); try assumption.
      * apply lookup_insert_eq.
      * apply updatedConfigMap_fingerprint.
  - pose proof (convergeConfigMap_creates c w Hq Hcm) as E.
    cbv zeta in E. rewrite E in Hout |- *.
    rewrite outcomeOf_logged in Hout. rewrite worldOf_logged.
    apply (convergeDeployment_converges _ (configMapForNginxCluster cur H));
      try assumption.
    + apply lookup_insert_eq.
    + apply configMapFor_fingerprint.
Qed.
End Passes2.

(** A pass for a cluster that is not being deleted, in which no call
    fails and which returns without asking for a requeue, leaves the
    world converged. *)
Lemma finished_pass_converges req w c :
  faults w = [] -> WellKeyed w ->
  nginxclusters w !! req = Some c -> ¬ markedForDeletion c ->
  outcomeOf (Reconcile req w) = Done ({| Requeue := false |}, None) ->
  Converged req (worldOf (Reconcile req w)).
Proof.
  intros Hq Hwk Hc Hm Hout.
  pose proof (WellKeyed_cluster _ _ _ Hwk Hc) as keyed.
  destruct (Reconcile_enters req c keyed w Hq Hc Hm) as (l & E & _).
  rewrite E in Hout |- *. rewrite outcomeOf_logged in Hout. rewrite worldOf_logged.
  apply (convergeConfigMap_converges req c keyed Hm); try assumption.
  - destruct Hwk as (Hk1 & Hk2 & Hk3 & Hk4). repeat split; try assumption.
    intros k o Hko. unfold withCluster in Hko. simpl in Hko.
    rewrite lookup_insert in Hko. case_decide; [|by apply Hk1].
    simplify_eq. by rewrite inMemory_keyOf.
  - apply lookup_insert_eq.
Qed.

Lemma withCluster_same req c w :
  nginxclusters w !! req = Some c -> withCluster req c w = w.
Proof.
  intros Hc. destruct w. unfold withCluster. simpl in *. f_equal. by apply insert_id.
Qed.

(** A pass from a converged world in which no call fails issues the four
    fetches and the status update, and nothing else; the stored objects are
    the same afterwards except for the status of the cluster, republished
    from the same Deployment at the new clock reading. *)
Lemma converged_pass_is_quiet req w :
  Converged req w -> faults w = [] ->
  ∃ c d t,
    nginxclusters w !! req = Some c ∧ deployments w !! childKey c = Some d ∧
    nginxv1.Status c = publishedStatus c d t ∧
    let r := Reconcile req w in
    let c' := nginxv1.withStatus (publishedStatus c d (clock w)) c in
    outcomeOf r = Done ({| Requeue := false |}, None) ∧
    eventsOf r = [EvGet KNginxCluster req; EvGet KConfigMap (configMapKey c);
                  EvGet KDeployment (childKey c); EvGet KService (childKey c);
                  EvStatusUpdate c'] ∧
    nginxclusters (worldOf r) = <[req := c']> (nginxclusters w) ∧
    configmaps (worldOf r) = configmaps w ∧ deployments (worldOf r) = deployments w ∧
    services (worldOf r) = services w.
Proof.
  intros (c & cm & d & s & t & Hc & keyed & Hf & Hm & Hcm & Hh & Hd & Hr & Hth & Hs & Hst) Hq.
  exists c, d, t. split; [assumption|]. split; [assumption|]. split; [assumption|].
  destruct (Reconcile_enters req c keyed w Hq Hc Hm) as (l & E & _ & Hl & _).
  rewrite (Hl Hf) in E. simpl. rewrite E.
  set (w1 := withCluster req (inMemory c) w).
  assert (Hc1 : nginxclusters w1 !! req = Some (inMemory c)) by apply lookup_insert_eq.
  rewrite (convergeConfigMap_settled c w1 cm Hq Hcm Hh).
  rewrite (convergeDeployment_settled c w1 d Hq Hd Hr Hth).
  rewrite (convergeService_present c w1 d s Hq Hs).
  rewrite (publishStatus_run req c keyed w1 d (inMemory c) Hq Hc1).
  unfold logged, outcomeOf, worldOf, eventsOf, w1, withCluster. simpl.
  rewrite (inMemory_id c Hf), insert_insert_eq. by repeat split.
Qed.





(* ===================================================================== *)
(** ** Further properties of the reconciler *)
(* ===================================================================== *)

Lemma controllerRef_inMemory c : controllerRef (inMemory c) = controllerRef c.
Proof. unfold inMemory, controllerutil.AddFinalizer. case_bool_decide; reflexivity. Qed.

Lemma sameDesired_inMemory c : sameDesired c (inMemory c).
Proof.
  unfold sameDesired, inMemory, controllerutil.AddFinalizer.
  case_bool_decide; split; reflexivity.
Qed.

(** X1. A failure of the first fetch other than not-found is handed back
    as it is: the pass makes no other call, asks for no requeue, and the
    stored objects are untouched. *)
Theorem fetch_error_is_returned (req : NamespacedName) (w : World) (e : error) :
  fetched req w = inl e -> e ≠ ErrNotFound ->
  let r := Reconcile req w in
  outcomeOf r = Done ({| Requeue := false |}, Some e) ∧
  eventsOf r = [EvGet KNginxCluster req] ∧
  sameObjects w (worldOf r).
Proof.
  intros Hf Hne. simpl. unfold fetched in Hf.
  destruct (scheduled (faults w)) as [e'|] eqn:Hs.
  - injection Hf as ->. unfold Reconcile, sameObjects.
    destruct e; try contradiction; run; by repeat split.
  - destruct (nginxclusters w !! req); [discriminate|]. injection Hf as <-. contradiction.
Qed.

Lemma fetch_error_is_returned_witness :
  let w := withFaults [Some ErrInternal] Sample.fresh in
  fetched Sample.req w = inl ErrInternal ∧
  outcomeOf (Reconcile Sample.req w) = Done ({| Requeue := false |}, Some ErrInternal).
Proof.
  intros w.
  assert (H : fetched Sample.req w = inl ErrInternal) by reflexivity.
  assert (H' : ErrInternal ≠ ErrNotFound) by discriminate.
  split; [exact H|].
  exact (proj1 (fetch_error_is_returned Sample.req w ErrInternal H H')).
Defined.

(** X2. Every child a pass creates carries exactly one owner link, the
    controller link to the cluster (its name and UID, controller and
    block-owner-deletion set), and lives in the cluster's namespace. *)
Theorem created_children_are_owned (req : NamespacedName) (w : World)
    (c : nginxv1.NginxCluster) (o : Object) :
  nginxclusters w !! req = Some c ->
  EvCreate o ∈ eventsOf (Reconcile req w) ->
  ownersOf o
  = [ {| metav1.APIVersion := "nginx.example.com/v1"; metav1.Kind := "NginxCluster";
         metav1.OwnerName := clusterName c;
         metav1.OwnerUID := metav1.UID (nginxv1.ObjectMeta c);
         metav1.Controller := true; metav1.BlockOwnerDeletion := true |} ] ∧
  namespaceOf o = clusterNamespace c.
Proof.
  intros Hc Hin.
  pose proof (Reconcile_events req w) as Hev. rewrite Hc in Hev.
  rewrite Forall_forall in Hev. specialize (Hev _ Hin).
  change (ownersOf o = [controllerRef c] ∧ namespaceOf o = clusterNamespace c).
  rewrite <- (controllerRef_inMemory c), <- (inMemory_namespace c).
  inversion Hev; subst; split; reflexivity.
Qed.

Lemma created_children_are_owned_witness :
  let c := Sample.cluster [] None 2 "" "" in
  let o := ObjDeployment (deploymentForNginxCluster (inMemory c) (fingerprintOf c)) in
  EvCreate o ∈ eventsOf (Reconcile Sample.req Sample.fresh) ∧
  (metav1.OwnerUID <$> ownersOf o) = ["c0ffee"].
Proof.
  intros c o.
  assert (H : nginxclusters Sample.fresh !! Sample.req = Some c) by reflexivity.
  assert (Hin : EvCreate o ∈ eventsOf (Reconcile Sample.req Sample.fresh)).
  { apply list_elem_of_lookup. exists 5%nat. vm_compute. reflexivity. }
  split; [exact Hin|].
  pose proof (proj1 (created_children_are_owned Sample.req Sample.fresh c o H Hin)) as Ho.
  rewrite Ho. reflexivity.
Defined.

Lemma sameDesired_RemoveFinalizer (c : nginxv1.NginxCluster) f :
  sameDesired c (controllerutil.RemoveFinalizer c f).
Proof. split; reflexivity. Qed.

Lemma sameDesired_trans c1 c2 c3 :
  sameDesired c1 c2 -> sameDesired c2 c3 -> sameDesired c1 c3.
Proof. intros [H1 H2] [H3 H4]. split; congruence. Qed.

Lemma RemoveFinalizer_inMemory c :
  ¬ hasFinalizer c ->
  controllerutil.RemoveFinalizer (inMemory c) nginxClusterFinalizer = c.
Proof.
  intros Hf. unfold inMemory, controllerutil.AddFinalizer, controllerutil.RemoveFinalizer.
  rewrite bool_decide_eq_false_2 by exact Hf.
  destruct c as [[n ns u lb an fs dt ow] sp st]. unfold hasFinalizer in Hf. simpl in *.
  unfold nginxv1.withObjectMeta, metav1.withFinalizers. simpl. do 2 f_equal.
  rewrite filter_app, filter_cons_False, filter_nil, app_nil_r by (intros Hx; by apply Hx).
  induction fs as [|x fs IH]; [reflexivity|].
  rewrite filter_cons_True.
  - f_equal. apply IH. intros Hx. apply Hf. by right.
  - intros ->. apply Hf. by left.
Qed.

(** X3. The reconciler never writes the desired state of the cluster: an
    update of the cluster and a status update both carry the spec and the
    metadata of the cluster as fetched, finalizer list apart; and an
    update changes the finalizer list only by appending the controller's
    finalizer or by removing it. *)
Theorem cluster_writes_keep_spec (req : NamespacedName) (w : World)
    (c c' : nginxv1.NginxCluster) :
  nginxclusters w !! req = Some c ->
  (EvUpdate (ObjNginxCluster c') ∈ eventsOf (Reconcile req w) ->
   sameDesired c c' ∧ nginxv1.Status c' = nginxv1.Status c ∧
   let f := metav1.Finalizers (nginxv1.ObjectMeta c) in
   let f' := metav1.Finalizers (nginxv1.ObjectMeta c') in
   f' = f ++ [nginxClusterFinalizer] ∨ f' = filter (λ x, x ≠ nginxClusterFinalizer) f) ∧
  (EvStatusUpdate c' ∈ eventsOf (Reconcile req w) -> sameDesired c c').
Proof.
  intros Hc.
  pose proof (Reconcile_events req w) as Hev. rewrite Hc in Hev.
  rewrite Forall_forall in Hev. split; intros Hin; specialize (Hev _ Hin).
  - inversion Hev as [|Hf| | Hm| | | | | | | | | |]; subst.
    + split; [apply sameDesired_inMemory|].
      split; [apply inMemory_Status|]. left.
      unfold inMemory, controllerutil.AddFinalizer.
      by rewrite bool_decide_eq_false_2 by exact Hf.
    + split; [eapply sameDesired_trans;
                [apply sameDesired_inMemory | apply sameDesired_RemoveFinalizer]|].
      split; [by rewrite RemoveFinalizer_Status, inMemory_Status|]. right.
      unfold inMemory, controllerutil.AddFinalizer, controllerutil.RemoveFinalizer.
      case_bool_decide as Hf; simpl; [reflexivity|].
      rewrite filter_app, filter_cons_False, filter_nil, app_nil_r
        by (intros Hx; by apply Hx).
      reflexivity.
  - inversion Hev; subst.
    eapply sameDesired_trans; [apply sameDesired_inMemory|]. split; reflexivity.
Qed.

Lemma cluster_writes_keep_spec_witness :
  let c := Sample.cluster [] None 2 "" "" in
  EvUpdate (ObjNginxCluster (inMemory c)) ∈ eventsOf (Reconcile Sample.req Sample.fresh) ∧
  sameDesired c (inMemory c).
Proof.
  intros c.
  assert (H : nginxclusters Sample.fresh !! Sample.req = Some c) by reflexivity.
  assert (Hin : EvUpdate (ObjNginxCluster (inMemory c))
                ∈ eventsOf (Reconcile Sample.req Sample.fresh)).
  { apply list_elem_of_lookup. exists 1%nat. vm_compute. reflexivity. }
  split; [exact Hin|].
  exact (proj1 (proj1 (cluster_writes_keep_spec Sample.req Sample.fresh c (inMemory c) H)
                  Hin)).
Defined.

(** X4. An update of the Deployment changes the replica count or the two
    pod template annotations and nothing else: the metadata, the
    selector, the pod template's labels and pod spec (the containers and
    their image among them) and the status are those of the stored
    Deployment. A changed image in the cluster's spec is therefore never
    carried over to a Deployment that exists. *)
Theorem deployment_updates_keep_pod_spec (req : NamespacedName) (w : World)
    (c : nginxv1.NginxCluster) (d' : appsv1.Deployment) :
  nginxclusters w !! req = Some c ->
  EvUpdate (ObjDeployment d') ∈ eventsOf (Reconcile req w) ->
  ∃ d, deployments w !! childKey c = Some d ∧
       appsv1.ObjectMeta d' = appsv1.ObjectMeta d ∧
       appsv1.Selector (appsv1.Spec d') = appsv1.Selector (appsv1.Spec d) ∧
       corev1.TemplateSpec (appsv1.Template (appsv1.Spec d'))
       = corev1.TemplateSpec (appsv1.Template (appsv1.Spec d)) ∧
       metav1.Labels (corev1.TemplateMeta (appsv1.Template (appsv1.Spec d')))
       = metav1.Labels (corev1.TemplateMeta (appsv1.Template (appsv1.Spec d))) ∧
       appsv1.Status d' = appsv1.Status d ∧
       appsv1.Replicas (appsv1.Spec d') = Some (nginxv1.Replicas (nginxv1.Spec c)) ∧
       ∀ k, k ≠ "config-hash" -> k ≠ "restartedAt" ->
            mapaccess (appsv1.templateAnnotations d') k
            = mapaccess (appsv1.templateAnnotations d) k.
Proof.
  intros Hc Hin.
  pose proof (Reconcile_events req w) as Hev. rewrite Hc in Hev.
  rewrite Forall_forall in Hev. specialize (Hev _ Hin).
  inversion Hev as [| | | | | | | | |d n Hd Hr Hn|d a Hd Hr Ha Hh| | |]; subst.
  - exists d. by repeat split.
  - exists d. repeat split; try assumption.
    intros k Hk1 Hk2. unfold restartedDeployment, appsv1.templateAnnotations at 1. simpl.
    rewrite Ha. simpl. by rewrite !lookup_insert_ne by congruence.
Qed.

Lemma deployment_updates_keep_pod_spec_witness :
  let c := Sample4.live in
  let d := Sample.deployment (Some 3) (Some {[ "config-hash" := fingerprintOf c ]}) in
  let d' := appsv1.withReplicas (Some 2) d in
  EvUpdate (ObjDeployment d') ∈ eventsOf (Reconcile Sample.req Sample5.resized) ∧
  ∃ d0, deployments Sample5.resized !! childKey c = Some d0 ∧
        appsv1.ObjectMeta d' = appsv1.ObjectMeta d0.
Proof.
  intros c d d'.
  assert (H : nginxclusters Sample5.resized !! Sample.req = Some c) by reflexivity.
  assert (Hin : EvUpdate (ObjDeployment d') ∈ eventsOf (Reconcile Sample.req Sample5.resized)).
  { apply list_elem_of_lookup. exists 3%nat. vm_compute. reflexivity. }
  split; [exact Hin|].
  destruct (deployment_updates_keep_pod_spec Sample.req Sample5.resized c d' H Hin)
    as (d0 & Hd0 & Hm & _).
  exists d0. by split.
Defined.

(** X5. The in-place update of the ConfigMap writes the entry
    [nginx.conf] and the annotation [config-hash] and nothing else: the
    name, labels and owner links, every other data entry and every other
    annotation are those of the stored ConfigMap. *)
Theorem configmap_update_keeps_other_entries (req : NamespacedName) (w : World)
    (c : nginxv1.NginxCluster) (cm' : corev1.ConfigMap) :
  nginxclusters w !! req = Some c ->
  EvUpdate (ObjConfigMap cm') ∈ eventsOf (Reconcile req w) ->
  ∃ cm, configmaps w !! configMapKey c = Some cm ∧
        metav1.withAnnotations None (corev1.ConfigMapMeta cm')
        = metav1.withAnnotations None (corev1.ConfigMapMeta cm) ∧
        (∀ k, k ≠ "nginx.conf" ->
              mapaccess (corev1.Data cm') k = mapaccess (corev1.Data cm) k) ∧
        (∀ k, k ≠ "config-hash" ->
              mapaccess (metav1.Annotations (corev1.ConfigMapMeta cm')) k
              = mapaccess (metav1.Annotations (corev1.ConfigMapMeta cm)) k) ∧
        mapaccess (corev1.Data cm') "nginx.conf" = nginxv1.NginxConf (nginxv1.Spec c).
Proof.
  intros Hc Hin.
  pose proof (Reconcile_events req w) as Hev. rewrite Hc in Hev.
  rewrite Forall_forall in Hev. specialize (Hev _ Hin).
  inversion Hev as [| | | | | |cm g a Hcm Hh Hg Ha| | | | | | |]; subst.
  exists cm. split; [assumption|]. split; [reflexivity|].
  unfold updatedConfigMap. simpl. rewrite Hg, Ha. simpl.
  split; [intros k Hk; by rewrite lookup_insert_ne by congruence|].
  split; [intros k Hk; by rewrite lookup_insert_ne by congruence|].
  by rewrite lookup_insert_eq.
Qed.

Lemma configmap_update_keeps_other_entries_witness :
  let c := Sample6.changed in
  let old := calculateConfigHash Sample6.oldText in
  let cm' := updatedConfigMap c (Sample.configMap old Sample6.oldText)
               {[ "nginx.conf" := Sample6.oldText ]} {[ "config-hash" := old ]} in
  EvUpdate (ObjConfigMap cm') ∈ eventsOf (Reconcile Sample.req Sample6.configChanged) ∧
  mapaccess (corev1.Data cm') "nginx.conf" = Sample6.newText.
Proof.
  intros c old cm'.
  assert (H : nginxclusters Sample6.configChanged !! Sample.req = Some c) by reflexivity.
  assert (Hin : EvUpdate (ObjConfigMap cm')
                ∈ eventsOf (Reconcile Sample.req Sample6.configChanged)).
  { apply list_elem_of_lookup. exists 2%nat. vm_compute. reflexivity. }
  split; [exact Hin|].
  destruct (configmap_update_keeps_other_entries Sample.req Sample6.configChanged c cm' H Hin)
    as (cm & _ & _ & _ & _ & Hp).
  exact Hp.
Defined.

(** X6. The status a pass publishes mirrors the Deployment as it was
    stored when the pass began: its replica and ready-replica counts, with
    the fingerprint of the spec's text and the clock reading of the pass;
    no status is published in a pass that found no Deployment. *)
Theorem status_mirrors_stored_deployment (req : NamespacedName) (w : World)
    (c c' : nginxv1.NginxCluster) :
  nginxclusters w !! req = Some c ->
  EvStatusUpdate c' ∈ eventsOf (Reconcile req w) ->
  ∃ d, deployments w !! childKey c = Some d ∧
       nginxv1.Status c'
       = {| nginxv1.StatusReplicas := appsv1.StatusReplicas (appsv1.Status d);
            nginxv1.ReadyReplicas := appsv1.ReadyReplicas (appsv1.Status d);
            nginxv1.ConfigHash := calculateConfigHash (nginxv1.NginxConf (nginxv1.Spec c));
            nginxv1.LastUpdateTime := Some (clock w) |}.
Proof.
  intros Hc Hin.
  pose proof (Reconcile_events req w) as Hev. rewrite Hc in Hev.
  rewrite Forall_forall in Hev. specialize (Hev _ Hin).
  inversion Hev; subst. eexists. split; [eassumption | reflexivity].
Qed.

Lemma status_mirrors_stored_deployment_witness :
  let w := Sample6.configChanged in
  ∃ c', EvStatusUpdate c' ∈ eventsOf (Reconcile Sample.req w) ∧
        nginxv1.StatusReplicas (nginxv1.Status c') = 2 ∧
        nginxv1.ReadyReplicas (nginxv1.Status c') = 1 ∧
        nginxv1.LastUpdateTime (nginxv1.Status c') = Some 1761865200.
Proof.
  intros w.
  assert (H : nginxclusters w !! Sample.req = Some Sample6.changed) by reflexivity.
  assert (Hin : ∃ c', eventsOf (Reconcile Sample.req w) !! 6%nat = Some (EvStatusUpdate c')).
  { vm_compute. eexists. reflexivity. }
  destruct Hin as [c' Hin]. exists c'.
  assert (Hin' : EvStatusUpdate c' ∈ eventsOf (Reconcile Sample.req w))
    by (apply list_elem_of_lookup; by exists 6%nat).
  split; [exact Hin'|].
  destruct (status_mirrors_stored_deployment Sample.req w Sample6.changed c' H Hin')
    as (d & Hd & Hst).
  assert (d = Sample.deployment (Some 2)
                (Some {[ "config-hash" := calculateConfigHash Sample6.oldText ]})) as ->.
  { assert (Hd' : deployments w !! childKey Sample6.changed
                  = Some (Sample.deployment (Some 2)
                     (Some {[ "config-hash" := calculateConfigHash Sample6.oldText ]})))
      by reflexivity.
    rewrite Hd' in Hd. by injection Hd. }
  rewrite Hst. by repeat split.
Defined.

Lemma nginxLabels_cluster c : nginxLabels c !! "cluster" = Some (clusterName c).
Proof. unfold nginxLabels. by rewrite lookup_insert_ne, lookup_singleton_eq by discriminate. Qed.

(** X7. The built children are wired to one another: the Service's
    selector, the Deployment's selector and the pod template's labels are
    one and the same map; the pod's only volume refers to the ConfigMap
    under the name the ConfigMap builder gives it, and the container
    mounts that volume; the Service's port is the container's. And the
    selector of one cluster never matches the pod labels of a cluster
    with another name. *)
Theorem children_select_their_own_pods (c1 c2 : nginxv1.NginxCluster) (h h' : string) :
  clusterName c1 ≠ clusterName c2 ->
  let template c := appsv1.Template (appsv1.Spec (deploymentForNginxCluster c h)) in
  let podLabels c := metav1.Labels (corev1.TemplateMeta (template c)) in
  let selector c := corev1.Selector (corev1.ServiceSpec_ (serviceForNginxCluster c)) in
  selector c1 = podLabels c1 ∧
  appsv1.Selector (appsv1.Spec (deploymentForNginxCluster c1 h)) = podLabels c1 ∧
  selector c1 ≠ podLabels c2 ∧
  (corev1.ConfigMapRef <$> corev1.Volumes (corev1.TemplateSpec (template c1)))
  = [metav1.Name (corev1.ConfigMapMeta (configMapForNginxCluster c1 h'))] ∧
  (corev1.MountName
     <$> flat_map corev1.VolumeMounts (corev1.Containers (corev1.TemplateSpec (template c1))))
  = (corev1.VolumeName <$> corev1.Volumes (corev1.TemplateSpec (template c1))) ∧
  (corev1.Port <$> corev1.ServicePorts (corev1.ServiceSpec_ (serviceForNginxCluster c1)))
  = (corev1.ContainerPortNumber
       <$> flat_map corev1.Ports (corev1.Containers (corev1.TemplateSpec (template c1)))).
Proof.
  intros Hne. cbv zeta.
  assert (Hs : ∀ c, corev1.Selector (corev1.ServiceSpec_ (serviceForNginxCluster c))
                    = Some (nginxLabels c)) by reflexivity.
  assert (Hp : ∀ c, metav1.Labels (corev1.TemplateMeta
                      (appsv1.Template (appsv1.Spec (deploymentForNginxCluster c h))))
                    = Some (nginxLabels c)) by reflexivity.
  split; [by rewrite Hs, Hp|]. split; [by rewrite Hp|].
  split; [|by repeat split].
  rewrite Hs, Hp. intros Heq. apply Hne.
  assert (Heq' : nginxLabels c1 = nginxLabels c2) by congruence.
  pose proof (nginxLabels_cluster c1) as H1. rewrite Heq', nginxLabels_cluster in H1.
  congruence.
Qed.

Lemma children_select_their_own_pods_witness :
  let c1 := Sample.cluster [] None 2 "" "" in
  let c2 := nginxv1.withObjectMeta (Sample.meta "api") c1 in
  corev1.Selector (corev1.ServiceSpec_ (serviceForNginxCluster c1))
  ≠ metav1.Labels (corev1.TemplateMeta
                     (appsv1.Template (appsv1.Spec (deploymentForNginxCluster c2 "")))).
Proof.
  intros c1 c2.
  assert (H : clusterName c1 ≠ clusterName c2) by discriminate.
  exact (proj1 (proj2 (proj2 (children_select_their_own_pods c1 c2 "" "" H)))).
Defined.

Lemma handleDeletion_deleting c w :
  markedForDeletion c ->
  handleDeletion (inMemory c) w
  = (ferr <- finalizeNginxCluster (inMemory c) ;;
     match ferr with
     | Some e => fail e
     | None =>
         err <- Update (controllerutil.RemoveFinalizer (inMemory c) nginxClusterFinalizer) ;;
         match err with Some e => fail e | None => ok false end
     end) w.
Proof.
  intros Hm. unfold handleDeletion.
  rewrite inMemory_deletion, (bool_decide_eq_true_2 _ Hm).
  by rewrite (proj2 (ContainsFinalizer_true _) (inMemory_hasFinalizer c)).
Qed.

Lemma deleting_without_finalizer_run req w c :
  nginxclusters w !! req = Some c -> markedForDeletion c ->
  ¬ hasFinalizer c -> faults w = [] -> childKey c = req ->
  eventsOf (Reconcile req w)
  = [EvGet KNginxCluster req; EvUpdate (ObjNginxCluster (inMemory c));
     EvFinalize (inMemory c); EvUpdate (ObjNginxCluster c)] ∧
  outcomeOf (Reconcile req w) = Done ({| Requeue := false |}, None) ∧
  sameObjects w (worldOf (Reconcile req w)).
Proof.
  intros Hc Hm Hf Hq Hk. rewrite <- Hk in Hc |- *.
  pose proof (λ w', handleDeletion_deleting c w' Hm) as Hdel.
  unfold Reconcile, sameObjects. run.
  unfold attachFinalizer. rewrite (proj2 (ContainsFinalizer_false c) Hf). simpl.
  fold (inMemory c).
  split; [|split].
  - run; rewrite ?Hdel; run; rewrite ?(RemoveFinalizer_inMemory c Hf);
      try reflexivity.
    all: rewrite ?Hq in *; simpl in *; try discriminate.
    all: rewrite ?lookup_insert_eq in *; try discriminate.
  - run; rewrite ?Hdel; run; try reflexivity.
    all: rewrite ?Hq in *; simpl in *; try discriminate.
    all: rewrite ?lookup_insert_eq in *; try discriminate.
  - run; rewrite ?Hdel; run.
    all: rewrite ?Hq in *; simpl in *; try discriminate.
    all: rewrite ?lookup_insert_eq in *; try discriminate.
    all: simplify_eq.
    all: rewrite ?(RemoveFinalizer_inMemory c Hf), ?withStatus_inMemory.
    all: repeat split; try reflexivity.
    all: rewrite ?insert_insert_eq, inMemory_Status, withStatus_same; by apply insert_id.
Qed.

(** X8. A pass on a cluster that is marked for deletion stays with the
    cluster: whatever calls fail, it fetches, creates and updates no
    child and publishes no status, and the three child tables are as
    they were. When such a cluster lacks the finalizer and no call fails,
    the pass adds the finalizer, runs the hook, and removes the finalizer
    again: two updates, after which the stored cluster is what it was. *)
Theorem deletion_never_touches_children (req : NamespacedName) (w : World)
    (c : nginxv1.NginxCluster) :
  fetched req w = inr c -> markedForDeletion c ->
  let r := Reconcile req w in
  Forall (λ e, isClusterStep e = true) (eventsOf r) ∧
  configmaps (worldOf r) = configmaps w ∧
  deployments (worldOf r) = deployments w ∧
  services (worldOf r) = services w ∧
  (¬ hasFinalizer c -> faults w = [] -> childKey c = req ->
   eventsOf r = [EvGet KNginxCluster req; EvUpdate (ObjNginxCluster (inMemory c));
                 EvFinalize (inMemory c); EvUpdate (ObjNginxCluster c)] ∧
   outcomeOf r = Done ({| Requeue := false |}, None) ∧
   sameObjects w (worldOf r)).
Proof.
  intros [Hs Hc]%fetched_inr Hm. simpl.
  pose proof (λ w', handleDeletion_deleting c w' Hm) as Hdel.
  assert (Hatt : ∀ w', hasFinalizer c -> attachFinalizer c w' = handleDeletion (inMemory c) w').
  { intros w' Hf. unfold attachFinalizer.
    rewrite (proj2 (ContainsFinalizer_true c) Hf). simpl. by rewrite (inMemory_id c Hf). }
  split; [|split; [|split; [|split]]].
  - unfold Reconcile. run. destruct (decide (hasFinalizer c)) as [Hf|Hf].
    + rewrite (Hatt _ Hf), Hdel. run; by repeat constructor.
    + unfold attachFinalizer. rewrite (proj2 (ContainsFinalizer_false c) Hf). simpl.
      fold (inMemory c). run; rewrite ?Hdel; run; by repeat constructor.
  - unfold Reconcile. run. destruct (decide (hasFinalizer c)) as [Hf|Hf].
    + rewrite (Hatt _ Hf), Hdel. run; reflexivity.
    + unfold attachFinalizer. rewrite (proj2 (ContainsFinalizer_false c) Hf). simpl.
      fold (inMemory c). run; rewrite ?Hdel; run; reflexivity.
  - unfold Reconcile. run. destruct (decide (hasFinalizer c)) as [Hf|Hf].
    + rewrite (Hatt _ Hf), Hdel. run; reflexivity.
    + unfold attachFinalizer. rewrite (proj2 (ContainsFinalizer_false c) Hf). simpl.
      fold (inMemory c). run; rewrite ?Hdel; run; reflexivity.
  - unfold Reconcile. run. destruct (decide (hasFinalizer c)) as [Hf|Hf].
    + rewrite (Hatt _ Hf), Hdel. run; reflexivity.
    + unfold attachFinalizer. rewrite (proj2 (ContainsFinalizer_false c) Hf). simpl.
      fold (inMemory c). run; rewrite ?Hdel; run; reflexivity.
  - intros Hf Hq Hk. by apply deleting_without_finalizer_run.
Qed.

Lemma deletion_never_touches_children_witness :
  let c := Sample.cluster ["example.com/other"] (Some 1761865000) 2 "" "" in
  let r := Reconcile Sample.req Sample.deletingForeign in
  Forall (λ e, isClusterStep e = true) (eventsOf r) ∧
  eventsOf r = [EvGet KNginxCluster Sample.req; EvUpdate (ObjNginxCluster (inMemory c));
                EvFinalize (inMemory c); EvUpdate (ObjNginxCluster c)] ∧
  sameObjects Sample.deletingForeign (worldOf r).
Proof.
  intros c r.
  assert (H : fetched Sample.req Sample.deletingForeign = inr c) by reflexivity.
  assert (Hm : markedForDeletion c) by discriminate.
  assert (Hf : ¬ hasFinalizer c).
  { unfold hasFinalizer. simpl. rewrite list_elem_of_singleton. discriminate. }
  assert (Hq : faults Sample.deletingForeign = []) by reflexivity.
  assert (Hk : childKey c = Sample.req) by reflexivity.
  pose proof (deletion_never_touches_children Sample.req Sample.deletingForeign c H Hm) as Hall.
  cbv zeta in Hall. destruct Hall as (T1 & _ & _ & _ & T2).
  destruct (T2 Hf Hq Hk) as (T3 & _ & T4).
  exact (conj T1 (conj T3 T4)).
Defined.

(* ===================================================================== *)
(** ** How a pass ends *)
(* ===================================================================== *)

Arguments endsWell : simpl never.

Lemma endsWell_cons c w0 o e l : endsWell c w0 o l -> endsWell c w0 o (e :: l).
Proof.
  unfold endsWell. destruct o as [[res err]|]; [|done].
  intros [H1 H2]. split; [exact H1|].
  intros Hr. destruct (H2 Hr) as (He & l' & e' & -> & Hw).
  split; [exact He|]. by exists (e :: l'), e'.
Qed.

Lemma endsWell_plain c w0 err l : endsWell c w0 (Done ({| Requeue := false |}, err)) l.
Proof. unfold endsWell. split; [done | discriminate]. Qed.

Lemma endsWell_requeue c w0 l e :
  deploymentWrite c w0 e -> endsWell c w0 (Done ({| Requeue := true |}, None)) (l ++ [e]).
Proof.
  intros Hw. unfold endsWell. split; [by intros [? ?]|].
  intros _. split; [done|]. by exists l, e.
Qed.

Ltac ends_leaf :=
  repeat match goal with
         | |- endsWell _ _ (Done ({| Requeue := false |}, _)) _ => apply endsWell_plain
         | |- endsWell _ _ (outcomeOf _) (_ :: _) => apply endsWell_cons
         | |- endsWell _ _ Panicked _ => exact I
         end.

Section Ends.
Variables (c : nginxv1.NginxCluster) (w0 : World).

Local Abbreviation cur := (inMemory c).

Lemma publishStatus_ends d h w :
endsWell c w0 (outcomeOf (publishStatus cur d h w)) (eventsOf (publishStatus cur d h w)).
Proof. unfold publishStatus. run; ends_leaf. Qed.

Lemma convergeService_ends d h w :
endsWell c w0 (outcomeOf (convergeService cur d h w)) (eventsOf (convergeService cur d h w)).
Proof. unfold convergeService. run; ends_leaf; apply publishStatus_ends. Qed.

Lemma convergeDeployment_ends w :
deployments w = deployments w0 ->
endsWell c w0 (outcomeOf (convergeDeployment cur (fingerprintOf c) w))
  (eventsOf (convergeDeployment cur (fingerprintOf c) w)).
Proof.
intros Hd. unfold convergeDeployment. fold (childKey cur). rewrite inMemory_Spec.
run; ends_leaf; try apply convergeService_ends.
all: rewrite ?Hd in *; stabilise.
all: apply (endsWell_requeue c w0 [_]); first [by left | right; eauto 10].
Qed.

Lemma convergeConfigMap_ends w :
deployments w = deployments w0 ->
endsWell c w0 (outcomeOf (convergeConfigMap cur w)) (eventsOf (convergeConfigMap cur w)).
Proof.
intros Hd. unfold convergeConfigMap. rewrite inMemory_Spec. fold (fingerprintOf c).
run; ends_leaf; by apply convergeDeployment_ends.
Qed.

Lemma handleDeletion_ends w :
deployments w = deployments w0 ->
endsWell c w0 (outcomeOf (handleDeletion cur w)) (eventsOf (handleDeletion cur w)).
Proof.
intros Hd. unfold handleDeletion. case_bool_decide.
- destruct (controllerutil.ContainsFinalizer _ _); run; ends_leaf.
- by apply convergeConfigMap_ends.
Qed.

Lemma attachFinalizer_ends w :
deployments w = deployments w0 ->
endsWell c w0 (outcomeOf (attachFinalizer c w)) (eventsOf (attachFinalizer c w)).
Proof.
intros Hd. unfold attachFinalizer.
destruct (controllerutil.ContainsFinalizer c nginxClusterFinalizer) eqn:Hf; simpl.
- apply ContainsFinalizer_true in Hf.
  rewrite <- (inMemory_id c Hf) at 2 3. by apply handleDeletion_ends.
- fold (inMemory c). run; ends_leaf; by apply handleDeletion_ends.
Qed.
End Ends.

Lemma Reconcile_ends req w :
  match nginxclusters w !! req with
  | Some c => endsWell c w (outcomeOf (Reconcile req w)) (eventsOf (Reconcile req w))
  | None => ∃ err, outcomeOf (Reconcile req w) = Done ({| Requeue := false |}, err)
  end.
Proof.
  unfold Reconcile. destruct (nginxclusters w !! req) as [c|] eqn:Hc.
  - run; ends_leaf. by apply attachFinalizer_ends.
  - run; eauto.
Qed.

(** X9. A pass that returns an error asks for no requeue. A pass asks
    for a requeue only on success, and only when its last call was the
    create of the Deployment or the update that sets the replica count of
    the stored Deployment, which differed, to the spec's. *)
Theorem requeue_only_after_deployment_write (req : NamespacedName) (w : World)
    (res : Result) (err : option error) :
  outcomeOf (Reconcile req w) = Done (res, err) ->
  (is_Some err -> Requeue res = false) ∧
  (Requeue res = true ->
   err = None ∧
   ∃ c l e, nginxclusters w !! req = Some c ∧
            eventsOf (Reconcile req w) = l ++ [e] ∧ deploymentWrite c w e).
Proof.
  intros Hout. pose proof (Reconcile_ends req w) as He.
  destruct (nginxclusters w !! req) as [c|].
  - rewrite Hout in He. destruct He as [H1 H2]. split; [exact H1|].
    intros Hr. destruct (H2 Hr) as (Hn & l & e & Hl & Hw). split; [exact Hn|].
    by exists c, l, e.
  - destruct He as [err' He]. rewrite He in Hout. injection Hout as <- <-.
    split; [done | discriminate].
Qed.

Lemma requeue_only_after_deployment_write_witness :
  outcomeOf (Reconcile Sample.req Sample.fresh) = Done ({| Requeue := true |}, None) ∧
  ∃ c l e, nginxclusters Sample.fresh !! Sample.req = Some c ∧
           eventsOf (Reconcile Sample.req Sample.fresh) = l ++ [e] ∧
           deploymentWrite c Sample.fresh e.
Proof.
  assert (H : outcomeOf (Reconcile Sample.req Sample.fresh)
              = Done ({| Requeue := true |}, None)) by (vm_compute; reflexivity).
  split; [exact H|].
  exact (proj2 (proj2 (requeue_only_after_deployment_write Sample.req Sample.fresh _ _ H)
                  eq_refl)).
Defined.

(* ===================================================================== *)
(** ** The fingerprint *)
(* ===================================================================== *)

(** Known answers, as any SHA-256 tool gives them. *)
Example Sum256_abc :
  hex_of_bytes (SHA256.Sum256 "abc")
  = "ba7816bf8f01cfea414140de5dae2223b00361a396177a9cb410ff61f20015ad".
Proof. vm_compute. reflexivity. Qed.

Example formatRFC3339_sample : formatRFC3339 1761865200 = "2025-10-30T23:00:00Z".
Proof. vm_compute. reflexivity. Qed.

Lemma hex_digit_lower n : 0 <= n < 16 -> isLowerHex (hex_digit n) = true.
Proof.
  intros Hn.
  assert (H : n = 0 ∨ n = 1 ∨ n = 2 ∨ n = 3 ∨ n = 4 ∨ n = 5 ∨ n = 6 ∨ n = 7 ∨
              n = 8 ∨ n = 9 ∨ n = 10 ∨ n = 11 ∨ n = 12 ∨ n = 13 ∨ n = 14 ∨ n = 15) by lia.
  repeat destruct H as [-> | H]; try subst n; reflexivity.
Qed.

Lemma byte_nibbles x k :
  let b := Z.land (Z.shiftr x k) 0xFF in
  0 <= Z.shiftr b 4 < 16 ∧ 0 <= Z.land b 0xF < 16.
Proof.
  simpl.
  assert (Hb : 0 <= Z.land (Z.shiftr x k) 255 < 256).
  { change 255 with (Z.ones 8). rewrite Z.land_ones by lia. apply Z.mod_pos_bound. lia. }
  split.
  - rewrite Z.shiftr_div_pow2 by lia. change (2 ^ 4) with 16. split.
    + apply Z.div_pos; lia.
    + apply Z.div_lt_upper_bound; lia.
  - change 15 with (Z.ones 4). rewrite Z.land_ones by lia. apply Z.mod_pos_bound. lia.
Qed.

(** X10. A fingerprint is sixteen lower-case hexadecimal digits,
    whatever the text. *)
Theorem calculateConfigHash_hex (config : string) :
  String.length (calculateConfigHash config) = 16%nat ∧
  Forall (λ a, isLowerHex a = true) (list_ascii_of_string (calculateConfigHash config)).
Proof.
  split; [reflexivity|].
  unfold calculateConfigHash, SHA256.Sum256.
  generalize (SHA256.absorb SHA256.H0 [] (SHA256.words (SHA256.pad (SHA256.bytes_of_string config)))).
  intros r.
  cbv [hex_of_bytes flat_map SHA256.be_bytes map seq app string_of_list_ascii
       String.substring list_ascii_of_string Nat.sub].
  repeat constructor; apply hex_digit_lower; apply byte_nibbles.
Qed.

(* ===================================================================== *)
(** ** What every pass keeps of the store *)
(* ===================================================================== *)

Lemma sameDesired_refl c : sameDesired c c.
Proof. by split. Qed.

Lemma sameDesired_deletion c c' :
  sameDesired c c' -> (markedForDeletion c' <-> markedForDeletion c).
Proof.
  intros [_ Hm]. unfold markedForDeletion.
  assert (H : metav1.DeletionTimestamp (nginxv1.ObjectMeta c')
              = metav1.DeletionTimestamp (nginxv1.ObjectMeta c))
    by exact (f_equal metav1.DeletionTimestamp Hm).
  by rewrite H.
Qed.

Lemma sameDesired_childKey c c' : sameDesired c c' -> childKey c' = childKey c.
Proof.
  intros [_ Hm]. unfold childKey, clusterNamespace, clusterName.
  by rewrite (f_equal metav1.Namespace Hm : metav1.Namespace (nginxv1.ObjectMeta c') = _),
             (f_equal metav1.Name Hm : metav1.Name (nginxv1.ObjectMeta c') = _).
Qed.

(** *** The ConfigMap table *)

Lemma goodConfigMaps_insert t k (cm : corev1.ConfigMap) :
  goodConfigMaps t -> keyOf cm = k -> wellFormedConfigMap cm ->
  goodConfigMaps (<[k := cm]> t).
Proof.
  intros Ht Hk Hcm k' o. rewrite lookup_insert. case_decide.
  - intros [= <-]. subst. by split.
  - apply Ht.
Qed.

Lemma publishStatus_configmaps c d h w :
  configmaps (worldOf (publishStatus c d h w)) = configmaps w.
Proof. unfold publishStatus. run; reflexivity. Qed.

Lemma convergeService_configmaps c d h w :
  configmaps (worldOf (convergeService c d h w)) = configmaps w.
Proof. unfold convergeService. run; rewrite ?publishStatus_configmaps; reflexivity. Qed.

Lemma convergeDeployment_configmaps c h w :
  configmaps (worldOf (convergeDeployment c h w)) = configmaps w.
Proof. unfold convergeDeployment. run; rewrite ?convergeService_configmaps; reflexivity. Qed.

Lemma convergeConfigMap_goodConfigMaps c w :
  goodConfigMaps (configmaps w) ->
  goodConfigMaps (configmaps (worldOf (convergeConfigMap c w))).
Proof.
  intros Ht. unfold convergeConfigMap.
  run; rewrite ?convergeDeployment_configmaps; simpl; try exact Ht.
  all: apply goodConfigMaps_insert; [exact Ht | reflexivity | split; discriminate].
Qed.

Lemma handleDeletion_goodConfigMaps c w :
  goodConfigMaps (configmaps w) ->
  goodConfigMaps (configmaps (worldOf (handleDeletion c w))).
Proof.
  intros Ht. unfold handleDeletion. case_bool_decide.
  - destruct (controllerutil.ContainsFinalizer _ _); run; exact Ht.
  - by apply convergeConfigMap_goodConfigMaps.
Qed.

Lemma attachFinalizer_goodConfigMaps c w :
  goodConfigMaps (configmaps w) ->
  goodConfigMaps (configmaps (worldOf (attachFinalizer c w))).
Proof.
  intros Ht. unfold attachFinalizer.
  destruct (controllerutil.ContainsFinalizer c nginxClusterFinalizer); simpl.
  - by apply handleDeletion_goodConfigMaps.
  - run; try exact Ht; by apply handleDeletion_goodConfigMaps.
Qed.

Lemma Reconcile_goodConfigMaps req w :
  goodConfigMaps (configmaps w) ->
  goodConfigMaps (configmaps (worldOf (Reconcile req w))).
Proof.
  intros Ht. unfold Reconcile.
  run; try exact Ht; by apply attachFinalizer_goodConfigMaps.
Qed.

(** *** The Deployment table *)

Lemma goodDeployments_insert t k (d : appsv1.Deployment) :
  goodDeployments t -> keyOf d = k -> wellFormedDeployment d ->
  goodDeployments (<[k := d]> t).
Proof.
  intros Ht Hk Hd k' o. rewrite lookup_insert. case_decide.
  - intros [= <-]. subst. by split.
  - apply Ht.
Qed.

Lemma convergeDeployment_goodDeployments c h w :
  goodDeployments (deployments w) ->
  goodDeployments (deployments (worldOf (convergeDeployment c h w))).
Proof.
  intros Ht. unfold convergeDeployment.
  run; rewrite ?convergeService_deployments; simpl; try exact Ht.
  all: apply goodDeployments_insert; [exact Ht | reflexivity |].
  all: try (split; discriminate).
  all: split; [simpl; congruence|].
  all: try (unfold appsv1.templateAnnotations; simpl; discriminate).
  all: change (appsv1.templateAnnotations (appsv1.withReplicas ?r ?d))
         with (appsv1.templateAnnotations d).
  all: match goal with
       | H : deployments _ !! (clusterNamespace _, _) = Some _ |- _ =>
           exact (proj2 (proj2 (Ht _ _ H)))
       end.
Qed.

Lemma convergeConfigMap_goodDeployments c w :
  goodDeployments (deployments w) ->
  goodDeployments (deployments (worldOf (convergeConfigMap c w))).
Proof.
  intros Ht. unfold convergeConfigMap.
  run; try exact Ht; by apply convergeDeployment_goodDeployments.
Qed.

Lemma handleDeletion_goodDeployments c w :
  goodDeployments (deployments w) ->
  goodDeployments (deployments (worldOf (handleDeletion c w))).
Proof.
  intros Ht. unfold handleDeletion. case_bool_decide.
  - destruct (controllerutil.ContainsFinalizer _ _); run; exact Ht.
  - by apply convergeConfigMap_goodDeployments.
Qed.

Lemma attachFinalizer_goodDeployments c w :
  goodDeployments (deployments w) ->
  goodDeployments (deployments (worldOf (attachFinalizer c w))).
Proof.
  intros Ht. unfold attachFinalizer.
  destruct (controllerutil.ContainsFinalizer c nginxClusterFinalizer); simpl.
  - by apply handleDeletion_goodDeployments.
  - run; try exact Ht; by apply handleDeletion_goodDeployments.
Qed.

Lemma Reconcile_goodDeployments req w :
  goodDeployments (deployments w) ->
  goodDeployments (deployments (worldOf (Reconcile req w))).
Proof.
  intros Ht. unfold Reconcile.
  run; try exact Ht; by apply attachFinalizer_goodDeployments.
Qed.

(** *** The cluster table *)

Lemma sameDesired_withStatus c c' s :
  sameDesired c c' -> sameDesired c (nginxv1.withStatus s c').
Proof. intros [H1 H2]. by split. Qed.

Lemma childKey_withStatus s c : childKey (nginxv1.withStatus s c) = childKey c.
Proof. reflexivity. Qed.

Lemma clusterRewritten_start c m0 :
  m0 !! childKey c = Some c -> clusterRewritten c m0 m0.
Proof.
  intros Hc. exists c. split; [apply sameDesired_refl|]. split; [reflexivity|].
  symmetry. by apply insert_id.
Qed.

Lemma clusterRewritten_update c m0 m c' :
  clusterRewritten c m0 m -> sameDesired c c' ->
  clusterRewritten c m0 (<[childKey c := c']> m).
Proof.
  intros (c1 & H1 & Hk & ->) Hs. exists c'.
  split; [exact Hs|]. split; [by apply sameDesired_childKey|].
  apply insert_insert_eq.
Qed.

Lemma clusterRewritten_status c m0 m stored s :
  clusterRewritten c m0 m -> m !! childKey c = Some stored ->
  clusterRewritten c m0 (<[childKey c := nginxv1.withStatus s stored]> m).
Proof.
  intros Hm Hst. apply clusterRewritten_update; [exact Hm|].
  destruct Hm as (c1 & H1 & Hk & ->).
  rewrite lookup_insert_eq in Hst. injection Hst as <-.
  by apply sameDesired_withStatus.
Qed.

Ltac cluster_leaf Hm :=
  simpl; rewrite ?childKey_withStatus, ?RemoveFinalizer_keyOf, ?childKey_inMemory;
  first [ exact Hm
        | apply clusterRewritten_status; [exact Hm | assumption]
        | apply clusterRewritten_update;
          [ exact Hm
          | apply sameDesired_withStatus;
            first [ apply sameDesired_inMemory
                  | eapply sameDesired_trans;
                    [apply sameDesired_inMemory | apply sameDesired_RemoveFinalizer] ] ] ].

Section Clusters.
Variables (c : nginxv1.NginxCluster) (m0 : gmap NamespacedName nginxv1.NginxCluster).

Local Abbreviation cur := (inMemory c).
Local Abbreviation kept := (clusterRewritten c m0).

Lemma publishStatus_clusters d h w :
kept (nginxclusters w) -> kept (nginxclusters (worldOf (publishStatus cur d h w))).
Proof.
intros Hm. unfold publishStatus.
run_with ltac:(rewrite ?childKey_withStatus); cluster_leaf Hm.
Qed.

Lemma convergeService_clusters d h w :
kept (nginxclusters w) -> kept (nginxclusters (worldOf (convergeService cur d h w))).
Proof.
intros Hm. unfold convergeService.
run; try (apply publishStatus_clusters); cluster_leaf Hm.
Qed.

Lemma convergeDeployment_clusters h w :
kept (nginxclusters w) -> kept (nginxclusters (worldOf (convergeDeployment cur h w))).
Proof.
intros Hm. unfold convergeDeployment.
run; try (apply convergeService_clusters); cluster_leaf Hm.
Qed.

Lemma convergeConfigMap_clusters w :
kept (nginxclusters w) -> kept (nginxclusters (worldOf (convergeConfigMap cur w))).
Proof.
intros Hm. unfold convergeConfigMap.
run; try (apply convergeDeployment_clusters); cluster_leaf Hm.
Qed.

Lemma handleDeletion_clusters w :
kept (nginxclusters w) -> kept (nginxclusters (worldOf (handleDeletion cur w))).
Proof.
intros Hm. unfold handleDeletion. case_bool_decide.
- destruct (controllerutil.ContainsFinalizer _ _); run; cluster_leaf Hm.
- by apply convergeConfigMap_clusters.
Qed.

Lemma attachFinalizer_clusters w :
kept (nginxclusters w) -> kept (nginxclusters (worldOf (attachFinalizer c w))).
Proof.
intros Hm. unfold attachFinalizer.
destruct (controllerutil.ContainsFinalizer c nginxClusterFinalizer) eqn:Hf; simpl.
- apply ContainsFinalizer_true in Hf.
  rewrite <- (inMemory_id c Hf) at 2. by apply handleDeletion_clusters.
- fold (inMemory c). run; try (apply handleDeletion_clusters); cluster_leaf Hm.
Qed.
End Clusters.

Lemma Reconcile_clusters req w :
  match nginxclusters w !! req with
  | Some c =>
      childKey c = req ->
      clusterRewritten c (nginxclusters w) (nginxclusters (worldOf (Reconcile req w)))
  | None => nginxclusters (worldOf (Reconcile req w)) = nginxclusters w
  end.
Proof.
  unfold Reconcile. destruct (nginxclusters w !! req) as [c|] eqn:Hc.
  - intros Hk. subst req.
    pose proof (clusterRewritten_start c _ Hc) as Hm.
    run; try (apply attachFinalizer_clusters); cluster_leaf Hm.
  - run; reflexivity.
Qed.

(** *** The store as a whole *)

Lemma StoreSound_tables w :
  StoreSound w <->
  wellKeyed (T := nginxv1.NginxCluster) w ∧ goodConfigMaps (configmaps w) ∧
  goodDeployments (deployments w) ∧ wellKeyed (T := corev1.Service) w.
Proof.
  unfold StoreSound, WellKeyed, AllWellFormed, goodConfigMaps, goodDeployments, wellKeyed.
  simpl. split.
  - intros [(H1 & H2 & H3 & H4) [H5 H6]].
    split; [exact H1|].
    split; [intros k cm Hk; split; [exact (H2 _ _ Hk) | exact (H5 _ _ Hk)]|].
    split; [intros k d Hk; split; [exact (H3 _ _ Hk) | exact (H6 _ _ Hk)] | exact H4].
  - intros (H1 & H2 & H3 & H4). split.
    + split; [exact H1|].
      split; [intros k o Ho; exact (proj1 (H2 k o Ho))|].
      split; [intros k o Ho; exact (proj1 (H3 k o Ho)) | exact H4].
    + split; [intros k cm Hk; exact (proj2 (H2 _ _ Hk))
             | intros k d Hk; exact (proj2 (H3 _ _ Hk))].
Qed.

Lemma AllWellFormed_children c w : AllWellFormed w -> ChildrenWellFormed c w.
Proof.
  intros [Hcm Hd]. split.
  - intros cm Hk _. exact (Hcm _ _ Hk).
  - intros d Hk. exact (Hd _ _ Hk).
Qed.

Lemma clustersKept_refl w : clustersKept w w.
Proof.
  intros k. destruct (nginxclusters w !! k) as [c|]; [|reflexivity].
  exists c. split; [reflexivity | apply sameDesired_refl].
Qed.

Lemma clustersKept_trans w1 w2 w3 :
  clustersKept w1 w2 -> clustersKept w2 w3 -> clustersKept w1 w3.
Proof.
  intros H12 H23 k. specialize (H12 k). specialize (H23 k).
  destruct (nginxclusters w1 !! k) as [c|].
  - destruct H12 as (c2 & Hc2 & Hs2). rewrite Hc2 in H23.
    destruct H23 as (c3 & Hc3 & Hs3). exists c3. split; [exact Hc3|].
    by eapply sameDesired_trans.
  - by rewrite H12 in H23.
Qed.

Lemma Reconcile_sound req w :
  StoreSound w ->
  StoreSound (worldOf (Reconcile req w)) ∧ clustersKept w (worldOf (Reconcile req w)).
Proof.
  intros Hs. pose proof Hs as (Hk1 & Hcm & Hd & Hk4)%StoreSound_tables.
  pose proof (Reconcile_clusters req w) as Hcl.
  pose proof (Reconcile_services req w) as Hsv.
  assert (Hcl' : wellKeyed (T := nginxv1.NginxCluster) (worldOf (Reconcile req w)) ∧
                 clustersKept w (worldOf (Reconcile req w))).
  { destruct (nginxclusters w !! req) as [c|] eqn:Hc.
    - pose proof (Hk1 _ _ Hc : childKey c = req) as Hkc.
      destruct (Hcl Hkc) as (c' & Hsd & Hkey & Hm). rewrite Hkc in Hm. split.
      + intros k o. unfold table. simpl. rewrite Hm, lookup_insert. case_decide.
        * intros [= <-]. subst k. change (childKey c' = req). congruence.
        * apply Hk1.
      + intros k. rewrite Hm, lookup_insert. case_decide.
        * subst k. rewrite Hc. by exists c'.
        * destruct (nginxclusters w !! k) as [c0|]; [|reflexivity].
          exists c0. split; [reflexivity | apply sameDesired_refl].
    - split.
      + intros k o. unfold table. simpl. rewrite Hcl. apply Hk1.
      + intros k. rewrite Hcl. apply clustersKept_refl. }
  destruct Hcl' as [Hk1' Hkept]. split; [|exact Hkept].
  apply StoreSound_tables. split; [exact Hk1'|].
  split; [by apply Reconcile_goodConfigMaps|].
  split; [by apply Reconcile_goodDeployments|].
  intros k o. unfold table. simpl.
  destruct (nginxclusters w !! req) as [c|].
  - destruct Hsv as [-> | [_ ->]]; [apply Hk4|].
    rewrite lookup_insert. case_decide; [|apply Hk4].
    intros [= <-]. by rewrite keyOf_serviceFor, childKey_inMemory.
  - rewrite Hsv. apply Hk4.
Qed.

Lemma runPasses_sound ps : ∀ w,
  StoreSound w -> StoreSound (runPasses ps w) ∧ clustersKept w (runPasses ps w).
Proof.
  induction ps as [|p ps IH]; intros w Hs; simpl.
  - split; [exact Hs | apply clustersKept_refl].
  - destruct (Reconcile_sound (passRequest p)
                (withClock (passClock p) (withFaults (passFaults p) w)) Hs) as [Hs1 Hk1].
    destruct (IH _ Hs1) as [Hs2 Hk2]. split; [exact Hs2|].
    eapply clustersKept_trans; [exact Hk1 | exact Hk2].
Qed.



Lemma Sample_world_sound c :
  childKey c = Sample.req -> StoreSound (Sample.world c None None None).
Proof.
  intros Hk. split; [|split; intros k o Ho; simpl in Ho; by rewrite lookup_empty in Ho].
  repeat split; intros k o Ho; simpl in Ho;
    first [ apply lookup_singleton_Some in Ho as [<- <-]; exact Hk
          | rewrite lookup_empty in Ho; discriminate ].
Qed.


(* ===================================================================== *)
(** ** Convergence *)
(* ===================================================================== *)

Lemma replicasPinned_sameDesired c c' w :
  sameDesired c c' -> replicasPinned c w -> replicasPinned c' w.
Proof.
  intros Hs (d & Hd & Hr). exists d.
  rewrite (sameDesired_childKey _ _ Hs), (proj1 Hs). by split.
Qed.

Section CleanPass.
Variables (req : NamespacedName) (w : World) (c : nginxv1.NginxCluster).
Hypothesis quiet : faults w = [].
Hypothesis sound : StoreSound w.
Hypothesis stored : nginxclusters w !! req = Some c.
Hypothesis live : ¬ markedForDeletion c.

Local Abbreviation cur := (inMemory c).
Local Abbreviation w1 := (withCluster req cur w).

(** The steps up to the Deployment step, with what they leave. *)
Lemma clean_pass_reaches_deployment :
∃ l cms,
  Reconcile req w
  = logged l (convergeDeployment cur (fingerprintOf c)
                (withTable (T := corev1.ConfigMap) cms w1)) ∧
  childKey c = req.
Proof.
pose proof (WellKeyed_cluster _ _ _ (proj1 sound) stored) as keyed.
destruct (Reconcile_enters req c keyed w quiet stored live) as (l1 & E1 & _).
destruct (convergeConfigMap_passes c w1) as (l2 & cms & cm' & E2 & _);
  [exact quiet | exact (proj1 (proj2 (proj1 sound)))
  | exact (AllWellFormed_children c w (proj2 sound)) |].
exists (l1 ++ l2), cms. split; [|exact keyed].
by rewrite E1, E2, logged_logged.
Qed.

(** With the replica count in place the pass runs to its end. *)
Lemma pinned_pass_finishes :
replicasPinned c w ->
outcomeOf (Reconcile req w) = Done ({| Requeue := false |}, None) ∧
Converged req (worldOf (Reconcile req w)).
Proof.
intros (d & Hd & Hr).
assert (Hout : outcomeOf (Reconcile req w) = Done ({| Requeue := false |}, None)).
{ destruct clean_pass_reaches_deployment as (l & cms & E & keyed).
  set (w2 := withTable (T := corev1.ConfigMap) cms w1) in E.
  pose proof (WellKeyed_deployment _ _ _ (proj1 sound) Hd) as Hkd.
  destruct (proj2 (proj2 sound) _ _ Hd) as [_ Hta].
  destruct (appsv1.templateAnnotations d) as [ta|] eqn:Eta; [clear Hta|done].
  assert (Hq2 : faults w2 = []) by exact quiet.
  assert (Hd2 : deployments w2 !! childKey c = Some d) by exact Hd.
  assert (Hfin : ∀ d' w3, faults w3 = [] -> nginxclusters w3 !! req = Some cur ->
                 outcomeOf (convergeService cur d' (fingerprintOf c) w3)
                 = Done ({| Requeue := false |}, None)).
  { intros d' w3 Hq3 Hst3.
    destruct (convergeService_passes c w3 d' Hq3) as (l4 & svcs & E4 & _).
    rewrite E4, outcomeOf_logged.
    set (w4 := withTable (T := corev1.Service) svcs w3).
    assert (Hq4 : faults w4 = []) by exact Hq3.
    assert (Hst4 : nginxclusters w4 !! req = Some cur) by exact Hst3.
    by rewrite (publishStatus_run req c keyed w4 d' cur Hq4 Hst4). }
  rewrite E, outcomeOf_logged.
  destruct (decide (mapaccess (Some ta) "config-hash" = fingerprintOf c)) as [Hth|Hth].
  - rewrite <- Eta in Hth.
    rewrite (convergeDeployment_settled c w2 d Hq2 Hd2 Hr Hth), outcomeOf_logged.
    apply Hfin; [exact quiet | apply lookup_insert_eq].
  - rewrite (convergeDeployment_restarts c w2 d ta Hq2 Hd2 Hkd Hr Eta Hth),
      outcomeOf_logged.
    apply Hfin; [exact quiet | apply lookup_insert_eq]. }
split; [exact Hout|].
exact (finished_pass_converges req w c quiet (proj1 sound) stored live Hout).
Qed.

(** Without it the pass creates or resizes the Deployment and stops. *)
Lemma clean_pass_pins :
(∃ b, outcomeOf (Reconcile req w) = Done ({| Requeue := b |}, None)) ∧
replicasPinned c (worldOf (Reconcile req w)).
Proof.
destruct (deployments w !! childKey c) as [d|] eqn:Hd.
- destruct (proj2 (proj2 sound) _ _ Hd) as [Hrn _].
  destruct (appsv1.Replicas (appsv1.Spec d)) as [n|] eqn:Hr; [clear Hrn|done].
  destruct (decide (n = nginxv1.Replicas (nginxv1.Spec c))) as [->|Hn].
  + assert (Hp : replicasPinned c w) by (by exists d).
    split; [exists false; exact (proj1 (pinned_pass_finishes Hp))|].
    by apply Reconcile_pinned.
  + destruct clean_pass_reaches_deployment as (l & cms & E & keyed).
    pose proof (WellKeyed_deployment _ _ _ (proj1 sound) Hd) as Hkd.
    pose proof (convergeDeployment_resizes c
                  (withTable (T := corev1.ConfigMap) cms w1) d n quiet Hd Hkd Hr Hn) as E3.
    cbv zeta in E3. rewrite E, E3. split; [by exists true|].
    eexists. split; [apply lookup_insert_eq | reflexivity].
- destruct clean_pass_reaches_deployment as (l & cms & E & keyed).
  pose proof (convergeDeployment_creates c
                (withTable (T := corev1.ConfigMap) cms w1) quiet Hd) as E3.
  cbv zeta in E3. rewrite E, E3. split; [by exists true|].
  eexists. split; [apply lookup_insert_eq|].
  unfold deploymentForNginxCluster. simpl. by rewrite inMemory_Spec.
Qed.
End CleanPass.

Lemma two_clean_passes req w c t1 t2 :
  StoreSound w -> nginxclusters w !! req = Some c -> ¬ markedForDeletion c ->
  let w1 := worldOf (runPass (cleanPass req t1) w) in
  let r2 := runPass (cleanPass req t2) w1 in
  outcomeOf r2 = Done ({| Requeue := false |}, None) ∧ Converged req (worldOf r2) ∧
  ∃ c', nginxclusters (worldOf r2) !! req = Some c' ∧ sameDesired c c'.
Proof.
  intros Hs Hc Hm w1 r2.
  set (w0 := withClock t1 (withFaults [] w)).
  assert (Hs0 : StoreSound w0) by exact Hs.
  destruct (clean_pass_pins req w0 c eq_refl Hs0 Hc Hm) as [_ Hp].
  destruct (Reconcile_sound req w0 Hs0) as [Hs1 Hk1].
  fold w1 in Hp, Hs1, Hk1.
  pose proof (Hk1 req) as Hk. change (nginxclusters w0) with (nginxclusters w) in Hk.
  rewrite Hc in Hk. destruct Hk as (c1 & Hc1 & Hsd).
  set (w1' := withClock t2 (withFaults [] w1)).
  assert (Hs1' : StoreSound w1') by exact Hs1.
  assert (Hm1 : ¬ markedForDeletion c1) by (by rewrite (sameDesired_deletion _ _ Hsd)).
  assert (Hp1 : replicasPinned c1 w1') by exact (replicasPinned_sameDesired _ _ _ Hsd Hp).
  destruct (pinned_pass_finishes req w1' c1 eq_refl Hs1' Hc1 Hm1 Hp1) as [Hout Hcv].
  split; [exact Hout|]. split; [exact Hcv|].
  destruct (Reconcile_sound req w1' Hs1') as [_ Hk2].
  specialize (Hk2 req).
  assert (Hc1' : nginxclusters w1' !! req = Some c1) by exact Hc1.
  rewrite Hc1' in Hk2. destruct Hk2 as (c2 & Hc2 & Hsd2).
  exists c2. split; [exact Hc2|]. by eapply sameDesired_trans.
Qed.

(** X12. The reconciler recovers by itself. From a sound store, take
    any history of passes, for any requests and with any calls failing;
    then two passes for a cluster that is not being deleted, in which no
    call fails, leave it converged: the second one ends without error and
    without requeue, the cluster carries the finalizer, its ConfigMap,
    Deployment and Service exist, the fingerprints and the replica count
    agree with the spec, which is the one the cluster began with, and
    the status is published. *)
Theorem converges_after_failures (req : NamespacedName) (w : World)
    (c : nginxv1.NginxCluster) (ps : list Pass) (t1 t2 : Time) :
  StoreSound w -> nginxclusters w !! req = Some c -> ¬ markedForDeletion c ->
  let w1 := worldOf (runPass (cleanPass req t1) (runPasses ps w)) in
  let r2 := runPass (cleanPass req t2) w1 in
  outcomeOf r2 = Done ({| Requeue := false |}, None) ∧ Converged req (worldOf r2) ∧
  ∃ c', nginxclusters (worldOf r2) !! req = Some c' ∧ sameDesired c c'.
Proof.
  intros Hs Hc Hm.
  destruct (runPasses_sound ps w Hs) as [Hs' Hk].
  specialize (Hk req). rewrite Hc in Hk. destruct Hk as (c0 & Hc0 & Hsd).
  assert (Hm0 : ¬ markedForDeletion c0) by (by rewrite (sameDesired_deletion _ _ Hsd)).
  destruct (two_clean_passes req (runPasses ps w) c0 t1 t2 Hs' Hc0 Hm0)
    as (Hout & Hcv & c' & Hc' & Hsd').
  cbv zeta. split; [exact Hout|]. split; [exact Hcv|].
  exists c'. split; [exact Hc'|]. by eapply sameDesired_trans.
Qed.

Lemma converges_after_failures_witness :
  let c := Sample.cluster [] None 2 "" "" in
  let failing := [ {| passRequest := Sample.req; passClock := 1761865201;
                      passFaults := [None; None; None; Some ErrInternal] |};
                   {| passRequest := Sample.req; passClock := 1761865202;
                      passFaults := [None; None; None; None; Some ErrConflict] |} ] in
  let w1 := worldOf (runPass (cleanPass Sample.req 1761865203)
                       (runPasses failing Sample.fresh)) in
  Converged Sample.req (worldOf (runPass (cleanPass Sample.req 1761865204) w1)).
Proof.
  intros c failing w1.
  assert (Hs : StoreSound Sample.fresh) by (by apply Sample_world_sound).
  assert (Hc : nginxclusters Sample.fresh !! Sample.req = Some c) by reflexivity.
  assert (Hm : ¬ markedForDeletion c) by (intros Hx; by apply Hx).
  exact (proj1 (proj2 (converges_after_failures Sample.req Sample.fresh c failing
                         1761865203 1761865204 Hs Hc Hm))).
Defined.

(* ===================================================================== *)
(** ** Success, and the order of the calls *)
(* ===================================================================== *)

(** X13. Errors come from the API only: on a sound store, a pass in
    which no call fails returns no error, whether the cluster is absent,
    being deleted, or live. *)
Theorem clean_pass_returns_no_error (req : NamespacedName) (w : World) :
  faults w = [] -> StoreSound w ->
  ∃ b, outcomeOf (Reconcile req w) = Done ({| Requeue := b |}, None).
Proof.
  intros Hq Hs.
  destruct (nginxclusters w !! req) as [c|] eqn:Hc.
  - pose proof (WellKeyed_cluster _ _ _ (proj1 Hs) Hc) as keyed.
    assert (Hfet : fetched req w = inr c) by (unfold fetched; rewrite Hq; simpl; by rewrite Hc).
    destruct (metav1.DeletionTimestamp (nginxv1.ObjectMeta c)) as [t|] eqn:Hdt.
    + assert (Hm : markedForDeletion c) by (unfold markedForDeletion; by rewrite Hdt).
      exists false. destruct (decide (hasFinalizer c)) as [Hf|Hf].
      * destruct (deletion_pass_run req w c Hfet Hm Hf) as (_ & _ & _ & _ & Hok).
        apply Hok; [by rewrite Hq | exact keyed].
      * exact (proj1 (proj2 (deleting_without_finalizer_run req w c Hc Hm Hf Hq keyed))).
    + assert (Hm : ¬ markedForDeletion c)
        by (unfold markedForDeletion; rewrite Hdt; intros Hx; by apply Hx).
      exact (proj1 (clean_pass_pins req w c Hq Hs Hc Hm)).
  - exists false. apply absent_pass_run. unfold fetched. rewrite Hq. simpl. by rewrite Hc.
Qed.

Lemma clean_pass_returns_no_error_witness :
  ∃ b, outcomeOf (Reconcile Sample.req Sample.deletingForeign)
       = Done ({| Requeue := b |}, None).
Proof.
  assert (Hq : faults Sample.deletingForeign = []) by reflexivity.
  assert (Hs : StoreSound Sample.deletingForeign) by (by apply Sample_world_sound).
  exact (clean_pass_returns_no_error Sample.req Sample.deletingForeign Hq Hs).
Defined.

(** X14. What a pass creates follows the spec: a created ConfigMap
    holds the spec's text under [nginx.conf], or the default
    configuration when the text is empty, and the fingerprint of the
    spec's text as its only annotation; a created Deployment asks for the
    spec's replica count and runs the spec's image, or [nginx:latest]
    when the image is empty, its pod template annotated with the same
    fingerprint. *)
Theorem created_children_follow_spec (req : NamespacedName) (w : World)
    (c : nginxv1.NginxCluster) :
  nginxclusters w !! req = Some c ->
  let conf := nginxv1.NginxConf (nginxv1.Spec c) in
  let image := nginxv1.Image (nginxv1.Spec c) in
  (∀ cm, EvCreate (ObjConfigMap cm) ∈ eventsOf (Reconcile req w) ->
     corev1.Data cm
     = Some {[ "nginx.conf" := if decide (conf = "") then getDefaultNginxConf else conf ]} ∧
     metav1.Annotations (corev1.ConfigMapMeta cm)
     = Some {[ "config-hash" := calculateConfigHash conf ]}) ∧
  (∀ d, EvCreate (ObjDeployment d) ∈ eventsOf (Reconcile req w) ->
     appsv1.Replicas (appsv1.Spec d) = Some (nginxv1.Replicas (nginxv1.Spec c)) ∧
     (corev1.Image <$> corev1.Containers
        (corev1.TemplateSpec (appsv1.Template (appsv1.Spec d))))
     = [if decide (image = "") then "nginx:latest" else image] ∧
     appsv1.templateAnnotations d = Some {[ "config-hash" := calculateConfigHash conf ]}).
Proof.
  intros Hc. cbv zeta.
  pose proof (Reconcile_events req w) as Hev. rewrite Hc in Hev.
  rewrite Forall_forall in Hev.
  split; intros o Hin; specialize (Hev _ Hin); inversion Hev; subst.
  - unfold configMapForNginxCluster. simpl. rewrite inMemory_Spec. by split.
  - unfold deploymentForNginxCluster, appsv1.templateAnnotations. simpl.
    rewrite inMemory_Spec. by repeat split.
Qed.

Lemma created_children_follow_spec_witness :
  let c := Sample.cluster [] None 2 "" "" in
  let cm := configMapForNginxCluster (inMemory c) (fingerprintOf c) in
  EvCreate (ObjConfigMap cm) ∈ eventsOf (Reconcile Sample.req Sample.fresh) ∧
  corev1.Data cm = Some {[ "nginx.conf" := getDefaultNginxConf ]}.
Proof.
  intros c cm.
  assert (H : nginxclusters Sample.fresh !! Sample.req = Some c) by reflexivity.
  assert (Hin : EvCreate (ObjConfigMap cm) ∈ eventsOf (Reconcile Sample.req Sample.fresh)).
  { apply list_elem_of_lookup. exists 3%nat. vm_compute. reflexivity. }
  split; [exact Hin|].
  exact (proj1 (proj1 (created_children_follow_spec Sample.req Sample.fresh c H) cm Hin)).
Defined.

(** *** The order of the calls *)

Lemma inOrder_mono s s' l : inOrder s l -> (s' <= s)%nat -> inOrder s' l.
Proof. destruct l as [|e l]; simpl; [done|]. intros [H1 H2] Hs. split; [lia | exact H2]. Qed.

Lemma inOrder_lookup l : ∀ s i j e1 e2,
  inOrder s l -> l !! i = Some e1 -> l !! j = Some e2 ->
  (s <= stage e1)%nat ∧ ((i < j)%nat <-> (stage e1 < stage e2)%nat).
Proof.
  induction l as [|e l IH]; intros s i j e1 e2 Hl Hi Hj; [by rewrite lookup_nil in Hi|].
  destruct Hl as [Hs Hl].
  assert (Hge : ∀ k e', l !! k = Some e' -> (S (stage e) <= stage e')%nat).
  { intros k e' Hk. exact (proj1 (IH _ k k e' e' Hl Hk Hk)). }
  destruct i as [|i], j as [|j]; simpl in Hi, Hj.
  - injection Hi as <-. injection Hj as <-. split; [exact Hs | lia].
  - injection Hi as <-. pose proof (Hge _ _ Hj). split; [exact Hs | lia].
  - injection Hj as <-. pose proof (Hge _ _ Hi). split; lia.
  - destruct (IH _ i j e1 e2 Hl Hi Hj) as [H1 H2]. split; lia.
Qed.

Ltac order_leaf :=
  simpl;
  rewrite ?(bool_decide_eq_true_2 _ (inMemory_hasFinalizer _)),
          ?(bool_decide_eq_false_2 _ (RemoveFinalizer_gone _));
  repeat match goal with
         | |- _ ∧ _ => split
         | |- (_ <= _)%nat => lia
         | |- True => exact I
         end.

Ltac order_next lem := try (eapply inOrder_mono; [apply lem | lia]).

Lemma publishStatus_order c d h w : inOrder 10 (eventsOf (publishStatus c d h w)).
Proof. unfold publishStatus. run; order_leaf. Qed.

Lemma convergeService_order c d h w : inOrder 8 (eventsOf (convergeService c d h w)).
Proof. unfold convergeService. run; order_leaf; order_next publishStatus_order. Qed.

Lemma convergeDeployment_order c h w : inOrder 6 (eventsOf (convergeDeployment c h w)).
Proof. unfold convergeDeployment. run; order_leaf; order_next convergeService_order. Qed.

Lemma convergeConfigMap_order c w : inOrder 4 (eventsOf (convergeConfigMap c w)).
Proof. unfold convergeConfigMap. run; order_leaf; order_next convergeDeployment_order. Qed.

Lemma handleDeletion_order c w : inOrder 2 (eventsOf (handleDeletion (inMemory c) w)).
Proof.
  unfold handleDeletion. case_bool_decide.
  - destruct (controllerutil.ContainsFinalizer _ _); run; order_leaf.
  - order_next convergeConfigMap_order.
Qed.

Lemma attachFinalizer_order c w : inOrder 1 (eventsOf (attachFinalizer c w)).
Proof.
  unfold attachFinalizer.
  destruct (controllerutil.ContainsFinalizer c nginxClusterFinalizer) eqn:Hf; simpl.
  - apply ContainsFinalizer_true in Hf.
    rewrite <- (inMemory_id c Hf). order_next handleDeletion_order.
  - fold (inMemory c). run; order_leaf; order_next handleDeletion_order.
Qed.

Lemma Reconcile_order req w : inOrder 0 (eventsOf (Reconcile req w)).
Proof. unfold Reconcile. run; order_leaf; order_next attachFinalizer_order. Qed.

(** X15. The calls of a pass come in the order of the source, each
    call site at most once: the fetch of the cluster, the update that
    adds the finalizer, the hook, the update that removes the finalizer,
    then the fetch and the write of the ConfigMap, of the Deployment, of
    the Service, and the status update. So a pass makes at most eleven
    calls, and the ConfigMap is written before the Deployment is
    touched. *)
Theorem calls_in_source_order (req : NamespacedName) (w : World) :
  let l := eventsOf (Reconcile req w) in
  (∀ i j e1 e2, l !! i = Some e1 -> l !! j = Some e2 ->
                ((i < j)%nat <-> (stage e1 < stage e2)%nat)) ∧
  (∀ e, e ∈ l -> (stage e <= 10)%nat) ∧
  (length l <= 11)%nat.
Proof.
  cbv zeta. pose proof (Reconcile_order req w) as Ho.
  assert (Hle : ∀ e, e ∈ eventsOf (Reconcile req w) -> (stage e <= 10)%nat).
  { intros e Hin. pose proof (Reconcile_events req w) as Hev.
    destruct (nginxclusters w !! req) as [c|].
    - rewrite Forall_forall in Hev. specialize (Hev _ Hin).
      inversion Hev; subst; simpl; try case_bool_decide; lia.
    - rewrite Hev in Hin. apply list_elem_of_singleton in Hin. subst. simpl. lia. }
  split; [|split; [exact Hle|]].
  - intros i j e1 e2 Hi Hj. exact (proj2 (inOrder_lookup _ _ i j e1 e2 Ho Hi Hj)).
  - destruct (decide (length (eventsOf (Reconcile req w)) <= 11)%nat) as [|Hlen]; [done|].
    exfalso.
    assert (Hbound : ∀ l s, inOrder s l -> Forall (λ e, (stage e <= 10)%nat) l ->
                            (length l <= 11 - s)%nat).
    { clear. induction l as [|e l IH]; intros s Hl Hf; simpl; [lia|].
      destruct Hl as [Hs Hl]. inversion Hf as [|? ? He Hf']; subst.
      specialize (IH _ Hl Hf'). lia. }
    apply Hlen. apply (Hbound _ 0%nat Ho). by apply Forall_forall.
Qed.

Lemma calls_in_source_order_witness :
  let l := eventsOf (Reconcile Sample.req Sample6.configChanged) in
  ∃ e1 e2, l !! 2%nat = Some e1 ∧ l !! 4%nat = Some e2 ∧
           stage e1 = 5%nat ∧ stage e2 = 7%nat ∧
           ((2 < 4)%nat <-> (stage e1 < stage e2)%nat).
Proof.
  intros l.
  assert (H1 : ∃ e1, l !! 2%nat = Some e1 ∧ stage e1 = 5%nat)
    by (vm_compute; eexists; split; reflexivity).
  assert (H2 : ∃ e2, l !! 4%nat = Some e2 ∧ stage e2 = 7%nat)
    by (vm_compute; eexists; split; reflexivity).
  destruct H1 as (e1 & H1 & Hs1), H2 as (e2 & H2 & Hs2).
  exists e1, e2. split; [exact H1|]. split; [exact H2|].
  split; [exact Hs1|]. split; [exact Hs2|].
  exact (proj1 (calls_in_source_order Sample.req Sample6.configChanged) 2%nat 4%nat e1 e2 H1 H2).
Defined.

(* ===================================================================== *)
(** ** The steady state *)
(* ===================================================================== *)

Lemma Converged_republished req w c d t :
  Converged req w -> nginxclusters w !! req = Some c ->
  deployments w !! childKey c = Some d ->
  ∀ w', nginxclusters w' = <[req := nginxv1.withStatus (publishedStatus c d t) c]>
                             (nginxclusters w) ->
        configmaps w' = configmaps w -> deployments w' = deployments w ->
        services w' = services w -> Converged req w'.
Proof.
  intros (c0 & cm & d0 & s & t0 & Hc0 & Hk & Hf & Hm & Hcm & Hh & Hd0 & Hr & Hth & Hs & Hst)
         Hc Hd w' En Ecm Ed Es.
  rewrite Hc0 in Hc. injection Hc as <-. rewrite Hd0 in Hd. injection Hd as <-.
  exists (nginxv1.withStatus (publishedStatus c0 d0 t) c0), cm, d0, s, t.
  rewrite En, Ecm, Ed, Es.
  split; [apply lookup_insert_eq|]. by repeat split.
Qed.

Lemma steady_state req ts : ∀ w,
  Converged req w ->
  let w' := runPasses (cleanPass req <$> ts) w in
  Converged req w' ∧ configmaps w' = configmaps w ∧
  deployments w' = deployments w ∧ services w' = services w.
Proof.
  induction ts as [|t ts IH]; intros w Hcv; simpl; [by repeat split|].
  set (w0 := withClock t (withFaults [] w)).
  assert (Hcv0 : Converged req w0) by exact Hcv.
  destruct (converged_pass_is_quiet req w0 Hcv0 eq_refl)
    as (c & d & t0 & Hc & Hd & _ & _ & _ & En & Ecm & Ed & Es).
  pose proof (Converged_republished req w0 c d (clock w0) Hcv0 Hc Hd _ En Ecm Ed Es) as Hcv1.
  destruct (IH _ Hcv1) as (H1 & H2 & H3 & H4).
  split; [exact H1|].
  split; [exact (eq_trans H2 Ecm)|].
  split; [exact (eq_trans H3 Ed) | exact (eq_trans H4 Es)].
Qed.

(** X16. The converged state is steady: any number of further passes
    in which no call fails, at any clock readings, leave the cluster
    converged and its ConfigMap, Deployment and Service exactly as they
    are; in particular the pods are not restarted again. *)
Theorem converged_state_is_steady (req : NamespacedName) (w : World) (ts : list Time) :
  Converged req w ->
  let w' := runPasses (cleanPass req <$> ts) w in
  Converged req w' ∧ configmaps w' = configmaps w ∧
  deployments w' = deployments w ∧ services w' = services w.
Proof. intros Hcv. by apply steady_state. Qed.

Lemma converged_state_is_steady_witness :
  let c := Sample.cluster [] None 2 "" "" in
  let w := runPasses [cleanPass Sample.req 1761865203; cleanPass Sample.req 1761865204]
             Sample.fresh in
  let w' := runPasses (cleanPass Sample.req <$> [1761865300; 1761865400; 1761865500]) w in
  Converged Sample.req w ∧ Converged Sample.req w' ∧ deployments w' = deployments w.
Proof.
  intros c w w'.
  assert (Hcv : Converged Sample.req w).
  { assert (Hs : StoreSound Sample.fresh) by (by apply Sample_world_sound).
    assert (Hc : nginxclusters Sample.fresh !! Sample.req = Some c) by reflexivity.
    assert (Hm : ¬ markedForDeletion c) by (intros Hx; by apply Hx).
    exact (proj1 (proj2 (two_clean_passes Sample.req Sample.fresh c
                           1761865203 1761865204 Hs Hc Hm))). }
  split; [exact Hcv|].
  pose proof (converged_state_is_steady Sample.req w [1761865300; 1761865400; 1761865500] Hcv)
    as (H1 & _ & H3 & _).
  exact (conj H1 H3).
Defined.
